(** * aumai-modeloci: packaging, unpacking and verification of model archives

    A shallow embedding of [aumai_modeloci/core.py] and
    [aumai_modeloci/models.py], with the library calls they make
    (hashlib, gzip, tarfile, pathlib, json, pydantic) modelled next to them,
    and the properties of the packaging / unpacking / verification pipeline
    proved over that embedding.

    Conventions.
    - Python [bytes] and [str] are both [string]: a [str] is held as its
      UTF-8 encoding, so [.encode("utf-8")] and [.decode("utf-8")] are the
      identity.
    - A [pathlib.Path] is the list of its components; [str(path)] joins them
      with "/".
    - An opened tar archive is the list of its members, in file order.
    - A function that can raise returns a [result]. *)

From Stdlib Require Import ZArith Lia Ascii String List.
From stdpp Require Import base option list sorting gmap strings.

Local Open Scope string_scope.
Local Open Scope list_scope.
Local Open Scope Z_scope.

(** ** Bytes and strings *)

Abbreviation bytes := string (only parsing).

Definition byte_val (c : ascii) : Z := Z.of_N (N_of_ascii c).
Definition byte_chr (z : Z) : ascii := ascii_of_N (Z.to_N (z mod 256)).

Definition to_list (s : string) : list ascii := list_ascii_of_string s.
Definition of_list (l : list ascii) : string := string_of_list_ascii l.

(** [len(s)] *)
Definition len (s : string) : Z := Z.of_nat (String.length s).

(** [sep.join(parts)] *)
Fixpoint str_join (sep : string) (parts : list string) : string :=
  match parts with
  | [] => ""
  | [p] => p
  | p :: rest => p +:+ sep +:+ str_join sep rest
  end.

(** [s.split(sep)] for a one-character separator: never empty,
    ["".split(sep) = [""]]. *)
Fixpoint str_split (sep : ascii) (s : string) : list string :=
  match s with
  | "" => [""]
  | String c s' =>
      if Ascii.eqb c sep then "" :: str_split sep s'
      else match str_split sep s' with
           | [] => [String c ""]
           | w :: ws => String c w :: ws
           end
  end.

(** [s.startswith(p)] *)
Definition startswith (p s : string) : bool := String.prefix p s.

(** ** Exceptions *)

Inductive exn :=
  | NotADirectoryError
  | FileNotFoundError
  | IsADirectoryError
  | FileExistsError
  | RuntimeError
  | IndexError
  | KeyError
  | TypeError
  | JSONDecodeError
  | ValidationError.

Inductive result (A : Type) :=
  | Ok (a : A)
  | Raise (e : exn).
Arguments Ok {A} a.
Arguments Raise {A} e.

Global Instance result_ret : MRet result := fun A a => Ok a.
Global Instance result_bind : MBind result := fun A B k r =>
  match r with
  | Ok a => k a
  | Raise e => Raise e
  end.

Definition or_raise {A} (e : exn) (o : option A) : result A :=
  match o with
  | Some a => Ok a
  | None => Raise e
  end.

(** ** hashlib: SHA-256 (FIPS 180-4) *)

Module hashlib.

Definition mask32 (x : Z) : Z := Z.land x 0xffffffff.
Definition add32 (x y : Z) : Z := mask32 (x + y).
Definition rotr (n x : Z) : Z :=
  Z.lor (Z.shiftr x n) (mask32 (Z.shiftl x (32 - n))).

Definition Ch (x y z : Z) : Z :=
  Z.lxor (Z.land x y) (Z.land (Z.lxor x 0xffffffff) z).
Definition Maj (x y z : Z) : Z :=
  Z.lxor (Z.lxor (Z.land x y) (Z.land x z)) (Z.land y z).
Definition Sigma0 (x : Z) : Z :=
  Z.lxor (Z.lxor (rotr 2 x) (rotr 13 x)) (rotr 22 x).
Definition Sigma1 (x : Z) : Z :=
  Z.lxor (Z.lxor (rotr 6 x) (rotr 11 x)) (rotr 25 x).
Definition sigma0 (x : Z) : Z :=
  Z.lxor (Z.lxor (rotr 7 x) (rotr 18 x)) (Z.shiftr x 3).
Definition sigma1 (x : Z) : Z :=
  Z.lxor (Z.lxor (rotr 17 x) (rotr 19 x)) (Z.shiftr x 10).

(** The constants of FIPS 180-4 (4.2.2 and 5.3.3): the first 32 bits of the
    fractional parts of the cube roots of the first 64 primes, and of the
    square roots of the first 8. *)
Definition is_prime (n : Z) : bool :=
  forallb (fun d => negb (n mod Z.of_nat d =? 0)) (seq 2 (Z.to_nat n - 2)).

Definition primes : list Z :=
  Eval vm_compute in List.filter is_prime (map Z.of_nat (seq 2 310)).

(** The integer cube root, one bit at a time from bit 35 down. *)
Definition cbrt (n : Z) : Z :=
  fold_left (fun r b => let r' := r + Z.shiftl 1 (Z.of_nat b) in
                        if r' * r' * r' <=? n then r' else r)
            (rev (seq 0 36)) 0.

Definition K : list Z :=
  Eval vm_compute in map (fun p => mask32 (cbrt (Z.shiftl p 96))) primes.

Definition H0 : list Z :=
  Eval vm_compute in map (fun p => mask32 (Z.sqrt (Z.shiftl p 64))) (firstn 8 primes).

(** Big-endian encoding of [x] on [n] bytes. *)
Fixpoint be_bytes (n : nat) (x : Z) : list Z :=
  match n with
  | O => []
  | S n' => Z.land (Z.shiftr x (8 * Z.of_nat n')) 0xff :: be_bytes n' x
  end.

(** The message, a 1 bit, zeros up to 56 mod 64, the bit length on 64 bits. *)
Definition pad (msg : list Z) : list Z :=
  let l := Z.of_nat (length msg) in
  msg ++ [0x80] ++ repeat 0 (Z.to_nat ((55 - l) mod 64)) ++ be_bytes 8 (8 * l).

Fixpoint be_words (n : nat) (bs : list Z) : list Z :=
  match n, bs with
  | S n', b0 :: b1 :: b2 :: b3 :: rest =>
      (Z.shiftl b0 24 + Z.shiftl b1 16 + Z.shiftl b2 8 + b3) :: be_words n' rest
  | _, _ => []
  end.

(** The message schedule, newest word first. *)
Fixpoint schedule (n : nat) (w : list Z) : list Z :=
  match n with
  | O => w
  | S n' =>
      let x := add32 (add32 (sigma1 (nth 1 w 0)) (nth 6 w 0))
                     (add32 (sigma0 (nth 14 w 0)) (nth 15 w 0)) in
      schedule n' (x :: w)
  end.

Definition round (st : list Z) (kw : Z * Z) : list Z :=
  match st with
  | [a; b; c; d; e; f; g; h] =>
      let t1 := add32 (add32 (add32 h (Sigma1 e)) (add32 (Ch e f g) (fst kw)))
                      (snd kw) in
      let t2 := add32 (Sigma0 a) (Maj a b c) in
      [add32 t1 t2; a; b; c; add32 d t1; e; f; g]
  | _ => st
  end.

Definition compress (h : list Z) (block : list Z) : list Z :=
  let w := List.rev (schedule 48 (List.rev (be_words 16 block))) in
  let st := fold_left round (combine K w) h in
  map (fun p => add32 (fst p) (snd p)) (combine h st).

Fixpoint blocks (n : nat) (h : list Z) (bs : list Z) : list Z :=
  match n with
  | O => h
  | S n' => blocks n' (compress h (firstn 64 bs)) (skipn 64 bs)
  end.

Definition sha256 (data : bytes) : list Z :=
  let m := pad (map byte_val (to_list data)) in
  blocks (length m / 64) H0 m.

Definition hex_digit (x : Z) : ascii :=
  nth (Z.to_nat (Z.land x 0xf)) (to_list "0123456789abcdef") "0"%char.

Definition hex_word (x : Z) : list ascii :=
  map (fun i => hex_digit (Z.shiftr x (4 * Z.of_nat i))) [7; 6; 5; 4; 3; 2; 1; 0]%nat.

(** [hashlib.sha256(data).hexdigest()] *)
Definition hexdigest (data : bytes) : string :=
  of_list (concat (map hex_word (sha256 data))).

End hashlib.

(** ** json: values, the writer used by [model_dump_json], and [json.loads] *)

Module json.

(** A JSON value. A Python [dict] is the list of its items in insertion
    order; its keys are pairwise distinct ([wf] below). Numbers are
    integers: floats are outside this development. *)
#[local] Unset Elimination Schemes.
Inductive value :=
  | Null
  | Bool (b : bool)
  | Num (n : Z)
  | Str (s : string)
  | Arr (items : list value)
  | Obj (members : list (string * value)).
#[local] Set Elimination Schemes.

Abbreviation dict := (list (string * value)) (only parsing).

(** [d.get(k)] *)
Fixpoint dict_get (k : string) (d : dict) : option value :=
  match d with
  | [] => None
  | (k', v) :: d' => if String.eqb k k' then Some v else dict_get k d'
  end.

(** [d[k] = v]: an existing key keeps its position. *)
Fixpoint dict_set (k : string) (v : value) (d : dict) : dict :=
  match d with
  | [] => [(k, v)]
  | (k', v') :: d' =>
      if String.eqb k k' then (k, v) :: d' else (k', v') :: dict_set k v d'
  end.

(** [dict(pairs)] *)
Definition dict_of_pairs (pairs : list (string * value)) : dict :=
  fold_left (fun d kv => dict_set (fst kv) (snd kv) d) pairs [].

(** Keys of every object are pairwise distinct, at every depth. *)
Fixpoint wf (v : value) : Prop :=
  match v with
  | Arr items => fold_right (fun x P => wf x /\ P) True items
  | Obj members =>
      NoDup (map fst members)
      /\ fold_right (fun kv P => wf (snd kv) /\ P) True members
  | _ => True
  end.

Definition dquote : ascii := "034"%char.
Definition backslash : ascii := "092"%char.
Definition newline : ascii := "010"%char.

(** *** Writer (serde_json, as driven by pydantic) *)

Definition hex_digit (x : Z) : ascii :=
  nth (Z.to_nat x) (to_list "0123456789abcdef") "0"%char.

Definition escape_char (c : ascii) : list ascii :=
  let v := byte_val c in
  if Ascii.eqb c dquote then [backslash; dquote]
  else if Ascii.eqb c backslash then [backslash; backslash]
  else if v =? 8 then [backslash; "b"%char]
  else if v =? 9 then [backslash; "t"%char]
  else if v =? 10 then [backslash; "n"%char]
  else if v =? 12 then [backslash; "f"%char]
  else if v =? 13 then [backslash; "r"%char]
  else if v <? 32 then
    [backslash; "u"%char; "0"%char; "0"%char; hex_digit (v / 16); hex_digit (v mod 16)]
  else [c].

Definition write_string (s : string) : list ascii :=
  dquote :: flat_map escape_char (to_list s) ++ [dquote].

Definition digit_chr (d : Z) : ascii := byte_chr (48 + d).

(** Decimal digits of a non-negative number, most significant first. *)
Fixpoint write_nat (fuel : nat) (n : Z) (acc : list ascii) : list ascii :=
  match fuel with
  | O => digit_chr (n mod 10) :: acc
  | S fuel' =>
      if n <? 10 then digit_chr n :: acc
      else write_nat fuel' (n / 10) (digit_chr (n mod 10) :: acc)
  end.

Definition write_int (n : Z) : list ascii :=
  if n <? 0 then "-"%char :: write_nat (Z.to_nat (Z.log2 (- n))) (- n) []
  else write_nat (Z.to_nat (Z.log2 n)) n [].

(** Line break and indentation before an item at nesting [depth]; nothing
    in compact mode ([indent = None]). *)
Definition nl (indent : option nat) (depth : nat) : list ascii :=
  match indent with
  | None => []
  | Some k => newline :: repeat " "%char (k * depth)
  end.

Definition colon (indent : option nat) : list ascii :=
  match indent with
  | None => [":"%char]
  | Some _ => [":"%char; " "%char]
  end.

(** The items of a non-empty array or object, each on its own line. *)
Fixpoint write_seq (indent : option nat) (depth : nat)
    (parts : list (list ascii)) : list ascii :=
  match parts with
  | [] => []
  | [p] => nl indent (S depth) ++ p
  | p :: rest =>
      nl indent (S depth) ++ p ++ ","%char :: write_seq indent depth rest
  end.

Fixpoint write (indent : option nat) (depth : nat) (v : value) : list ascii :=
  match v with
  | Null => to_list "null"
  | Bool true => to_list "true"
  | Bool false => to_list "false"
  | Num n => write_int n
  | Str s => write_string s
  | Arr [] => to_list "[]"
  | Arr items =>
      "["%char :: write_seq indent depth (map (write indent (S depth)) items)
      ++ nl indent depth ++ ["]"%char]
  | Obj [] => to_list "{}"
  | Obj members =>
      "{"%char :: write_seq indent depth
        (map (fun kv => write_string (fst kv) ++ colon indent
                        ++ write indent (S depth) (snd kv)) members)
      ++ nl indent depth ++ ["}"%char]
  end.

(** [json.dumps(v, indent=indent)] with compact separators when
    [indent = None]; the text pydantic's [model_dump_json] produces. *)
Definition dumps (indent : option nat) (v : value) : string :=
  of_list (write indent 0 v).

(** *** Parser ([json.loads]) *)

Definition is_ws (c : ascii) : bool :=
  let v := byte_val c in
  (v =? 32) || (v =? 9) || (v =? 10) || (v =? 13).

Fixpoint skip_ws (s : list ascii) : list ascii :=
  match s with
  | c :: r => if is_ws c then skip_ws r else s
  | [] => []
  end.

Definition digit_val (c : ascii) : option Z :=
  let v := byte_val c in
  if (48 <=? v) && (v <=? 57) then Some (v - 48) else None.

Fixpoint read_digits (s : list ascii) : list Z * list ascii :=
  match s with
  | c :: r =>
      match digit_val c with
      | Some d => let (ds, rest) := read_digits r in (d :: ds, rest)
      | None => ([], s)
      end
  | [] => ([], [])
  end.

Definition digits_val (ds : list Z) : Z :=
  fold_left (fun a d => 10 * a + d) ds 0.

(** A fraction or an exponent makes the number a float. *)
Definition starts_float (s : list ascii) : bool :=
  match s with
  | c :: _ => Ascii.eqb c "."%char || Ascii.eqb c "e"%char || Ascii.eqb c "E"%char
  | [] => false
  end.

Definition parse_int (s : list ascii) : option (Z * list ascii) :=
  let (neg, s1) :=
    match s with
    | c :: r => if Ascii.eqb c "-"%char then (true, r) else (false, s)
    | [] => (false, s)
    end in
  let (ds, rest) := read_digits s1 in
  match ds with
  | [] => None
  | d :: ds' =>
      if (d =? 0) && negb (match ds' with [] => true | _ => false end) then None
      else if starts_float rest then None
      else Some (if neg : bool then - digits_val ds else digits_val ds, rest)
  end.

Definition hex_val (c : ascii) : option Z :=
  let v := byte_val c in
  if (48 <=? v) && (v <=? 57) then Some (v - 48)
  else if (97 <=? v) && (v <=? 102) then Some (v - 87)
  else if (65 <=? v) && (v <=? 70) then Some (v - 55)
  else None.

(** UTF-8 encoding of a code point of the basic plane; surrogates have none. *)
Definition utf8 (cp : Z) : option (list ascii) :=
  if cp <? 0x80 then Some [byte_chr cp]
  else if cp <? 0x800 then
    Some [byte_chr (0xc0 + cp / 64); byte_chr (0x80 + cp mod 64)]
  else if (0xd800 <=? cp) && (cp <=? 0xdfff) then None
  else Some [byte_chr (0xe0 + cp / 4096); byte_chr (0x80 + (cp / 64) mod 64);
             byte_chr (0x80 + cp mod 64)].

Definition unescape (c : ascii) : option ascii :=
  if Ascii.eqb c dquote then Some dquote
  else if Ascii.eqb c backslash then Some backslash
  else if Ascii.eqb c "/"%char then Some "/"%char
  else if Ascii.eqb c "b"%char then Some (byte_chr 8)
  else if Ascii.eqb c "f"%char then Some (byte_chr 12)
  else if Ascii.eqb c "n"%char then Some (byte_chr 10)
  else if Ascii.eqb c "r"%char then Some (byte_chr 13)
  else if Ascii.eqb c "t"%char then Some (byte_chr 9)
  else None.

(** The characters of a string literal after its opening quote, up to and
    including the closing quote. *)
Fixpoint parse_chars (s : list ascii) : option (list ascii * list ascii) :=
  match s with
  | [] => None
  | c :: r =>
      if Ascii.eqb c dquote then Some ([], r)
      else if Ascii.eqb c backslash then
        match r with
        | [] => None
        | e :: r1 =>
            if Ascii.eqb e "u"%char then
              match r1 with
              | h1 :: h2 :: h3 :: h4 :: r2 =>
                  match hex_val h1, hex_val h2, hex_val h3, hex_val h4 with
                  | Some a, Some b, Some c', Some d =>
                      match utf8 (((a * 16 + b) * 16 + c') * 16 + d), parse_chars r2 with
                      | Some bs, Some (t, rest) => Some (bs ++ t, rest)
                      | _, _ => None
                      end
                  | _, _, _, _ => None
                  end
              | _ => None
              end
            else
              match unescape e, parse_chars r1 with
              | Some x, Some (t, rest) => Some (x :: t, rest)
              | _, _ => None
              end
        end
      else if byte_val c <? 32 then None
      else
        match parse_chars r with
        | Some (t, rest) => Some (c :: t, rest)
        | None => None
        end
  end.

Definition parse_string (s : list ascii) : option (string * list ascii) :=
  match s with
  | c :: r =>
      if Ascii.eqb c dquote then
        match parse_chars r with
        | Some (t, rest) => Some (of_list t, rest)
        | None => None
        end
      else None
  | [] => None
  end.

Fixpoint expect (lit s : list ascii) : option (list ascii) :=
  match lit with
  | [] => Some s
  | c :: lit' =>
      match s with
      | c' :: s' => if Ascii.eqb c c' then expect lit' s' else None
      | [] => None
      end
  end.

(** Items of a non-empty array, after the opening bracket. *)
Fixpoint parse_items (pv : list ascii -> option (value * list ascii))
    (n : nat) (s : list ascii) : option (list value * list ascii) :=
  match n with
  | O => None
  | S n' =>
      match pv s with
      | Some (v, r) =>
          match skip_ws r with
          | c :: r' =>
              if Ascii.eqb c ","%char then
                match parse_items pv n' r' with
                | Some (vs, rest) => Some (v :: vs, rest)
                | None => None
                end
              else if Ascii.eqb c "]"%char then Some ([v], r')
              else None
          | [] => None
          end
      | None => None
      end
  end.

(** Members of a non-empty object, after the opening brace. *)
Fixpoint parse_members (pv : list ascii -> option (value * list ascii))
    (n : nat) (s : list ascii) : option (list (string * value) * list ascii) :=
  match n with
  | O => None
  | S n' =>
      match parse_string (skip_ws s) with
      | Some (k, r0) =>
          match skip_ws r0 with
          | c0 :: r1 =>
              if Ascii.eqb c0 ":"%char then
                match pv r1 with
                | Some (v, r) =>
                    match skip_ws r with
                    | c :: r' =>
                        if Ascii.eqb c ","%char then
                          match parse_members pv n' r' with
                          | Some (kvs, rest) => Some ((k, v) :: kvs, rest)
                          | None => None
                          end
                        else if Ascii.eqb c "}"%char then Some ([(k, v)], r')
                        else None
                    | [] => None
                    end
                | None => None
                end
              else None
          | [] => None
          end
      | None => None
      end
  end.

Fixpoint parse_value (fuel : nat) (s : list ascii) : option (value * list ascii) :=
  match fuel with
  | O => None
  | S fuel' =>
      match skip_ws s with
      | [] => None
      | c :: r =>
          if Ascii.eqb c "n"%char then
            match expect (to_list "ull") r with Some r' => Some (Null, r') | None => None end
          else if Ascii.eqb c "t"%char then
            match expect (to_list "rue") r with Some r' => Some (Bool true, r') | None => None end
          else if Ascii.eqb c "f"%char then
            match expect (to_list "alse") r with Some r' => Some (Bool false, r') | None => None end
          else if Ascii.eqb c dquote then
            match parse_string (c :: r) with
            | Some (t, r') => Some (Str t, r')
            | None => None
            end
          else if Ascii.eqb c "["%char then
            match skip_ws r with
            | c' :: r' =>
                if Ascii.eqb c' "]"%char then Some (Arr [], r')
                else
                  match parse_items (parse_value fuel') fuel' r with
                  | Some (vs, rest) => Some (Arr vs, rest)
                  | None => None
                  end
            | [] => None
            end
          else if Ascii.eqb c "{"%char then
            match skip_ws r with
            | c' :: r' =>
                if Ascii.eqb c' "}"%char then Some (Obj [], r')
                else
                  match parse_members (parse_value fuel') fuel' r with
                  | Some (kvs, rest) => Some (Obj (dict_of_pairs kvs), rest)
                  | None => None
                  end
            | [] => None
            end
          else
            match parse_int (c :: r) with
            | Some (n, r') => Some (Num n, r')
            | None => None
            end
      end
  end.

(** [json.loads(text)] *)
Definition loads (text : string) : result value :=
  let s := to_list text in
  match parse_value (S (length s)) s with
  | Some (v, rest) =>
      match skip_ws rest with
      | [] => Ok v
      | _ => Raise JSONDecodeError
      end
  | None => Raise JSONDecodeError
  end.

End json.

(** ** models.py *)

(** [class ModelLayer(BaseModel)] *)
Record ModelLayer := {
  digest : string;                          (* sha256:<hex> *)
  size : Z;                                 (* bytes *)
  media_type : string;
  annotations : list (string * string);
}.

Definition ModelLayer_media_type_default : string :=
  "application/vnd.oci.image.layer.v1.tar+gzip".

(** [class OCIConfig(BaseModel)] *)
Record OCIConfig := {
  model_name : string;
  version : string;
  framework : string;
  architecture : string;
  metadata : list (string * json.value);
}.

(** [class OCIManifest(BaseModel)]; [manifest_media_type] is the field
    [media_type]. *)
Record OCIManifest := {
  schema_version : Z;
  manifest_media_type : string;
  config : list (string * json.value);
  layers : list (list (string * json.value));
}.

(** [OCIManifest(config=..., layers=...)]: the other fields take their
    defaults. *)
Definition OCIManifest_new (config : list (string * json.value))
    (layers : list (list (string * json.value))) : OCIManifest :=
  {| schema_version := 2;
     manifest_media_type := "application/vnd.oci.image.manifest.v1+json";
     config := config;
     layers := layers |}.

(** *** pydantic: serialization and validation of the models

    No field declares an alias, so a model is dumped and validated under its
    field names. *)

Module pydantic.

(** [config.model_dump(mode="json")] *)
Definition OCIConfig_dump (c : OCIConfig) : json.value :=
  json.Obj [ ("model_name", json.Str (model_name c));
             ("version", json.Str (version c));
             ("framework", json.Str (framework c));
             ("architecture", json.Str (architecture c));
             ("metadata", json.Obj (metadata c)) ].

(** [manifest.model_dump(mode="json")] *)
Definition OCIManifest_dump (m : OCIManifest) : json.value :=
  json.Obj [ ("schema_version", json.Num (schema_version m));
             ("media_type", json.Str (manifest_media_type m));
             ("config", json.Obj (config m));
             ("layers", json.Arr (map json.Obj (layers m))) ].

Definition get_str (k : string) (d : list (string * json.value)) : option string :=
  match json.dict_get k d with
  | Some (json.Str s) => Some s
  | _ => None
  end.

Definition as_dict (v : json.value) : option (list (string * json.value)) :=
  match v with
  | json.Obj d => Some d
  | _ => None
  end.

(** [OCIConfig.model_validate(obj)]: the four strings are required, a
    missing [metadata] defaults to [{}], other keys are ignored. The
    coercions of pydantic's lax mode are not modelled: a field of another
    JSON type is refused. *)
Definition OCIConfig_validate (obj : json.value) : result OCIConfig :=
  or_raise ValidationError
    (d ← as_dict obj;
     n ← get_str "model_name" d;
     v ← get_str "version" d;
     f ← get_str "framework" d;
     a ← get_str "architecture" d;
     md ← match json.dict_get "metadata" d with
          | None => Some []
          | Some x => as_dict x
          end;
     Some {| model_name := n; version := v; framework := f;
             architecture := a; metadata := md |}).

(** [OCIManifest.model_validate(obj)]: [config] is required, the other
    fields have defaults. *)
Definition OCIManifest_validate (obj : json.value) : result OCIManifest :=
  or_raise ValidationError
    (d ← as_dict obj;
     sv ← match json.dict_get "schema_version" d with
          | None => Some 2
          | Some (json.Num n) => Some n
          | Some _ => None
          end;
     mt ← match json.dict_get "media_type" d with
          | None => Some "application/vnd.oci.image.manifest.v1+json"
          | Some (json.Str s) => Some s
          | Some _ => None
          end;
     c ← json.dict_get "config" d ≫= as_dict;
     ls ← match json.dict_get "layers" d with
          | None => Some []
          | Some (json.Arr items) => mapM as_dict items
          | Some _ => None
          end;
     Some {| schema_version := sv; manifest_media_type := mt;
             config := c; layers := ls |}).

End pydantic.

(** [config.model_dump_json(indent=indent)] *)
Definition OCIConfig_model_dump_json (indent : option nat) (c : OCIConfig) : string :=
  json.dumps indent (pydantic.OCIConfig_dump c).

(** [manifest.model_dump_json(indent=indent)] *)
Definition OCIManifest_model_dump_json (indent : option nat) (m : OCIManifest) : string :=
  json.dumps indent (pydantic.OCIManifest_dump m).

(** ** The file system and pathlib *)

(** What [os.stat] reports of a file and tarfile copies into a header. *)
Record stat_result := {
  st_mode : Z;
  st_uid : Z;
  st_gid : Z;
  st_mtime : Z;
}.

Inductive node :=
  | File (st : stat_result) (data : bytes)
  | Dir.

Abbreviation path := (list string) (only parsing).
Abbreviation filesystem := (gmap (list string) node) (only parsing).

(** A file this process creates. Its metadata is not tracked: nothing below
    reads it. *)
Definition created (data : bytes) : node :=
  File {| st_mode := 420; st_uid := 0; st_gid := 0; st_mtime := 0 |} data.

(** [Path(s)] for a relative [s]: empty components and "." are dropped. *)
Definition Path (s : string) : path :=
  filter (fun c => c ≠ "" ∧ c ≠ ".") (str_split "/" s).

(** [p / s] *)
Definition joinpath (p : path) (s : string) : path := p ++ Path s.
Infix "//" := joinpath (at level 40, left associativity).

(** [str(p)] *)
Definition str (p : path) : string := str_join "/" p.

(** [p.parent] *)
Definition parent (p : path) : path := removelast p.

(** [p.name] *)
Definition Path_name (p : path) : string := List.last p "".

Definition is_dir (fs : filesystem) (p : path) : bool :=
  match fs !! p with Some Dir => true | _ => false end.

Definition is_file (fs : filesystem) (p : path) : bool :=
  match fs !! p with Some (File _ _) => true | _ => false end.

Definition exists_ (fs : filesystem) (p : path) : bool :=
  match fs !! p with Some _ => true | None => false end.

(** [p] lies strictly below [root]. *)
Definition below (root p : path) : Prop := root `prefix_of` p ∧ p ≠ root.

(** [root.rglob("*")]: everything below [root], in the order the operating
    system lists it. *)
Definition rglob (fs : filesystem) (root : path) : list path :=
  filter (below root) (map_to_list fs).*1.

(** The order of [Path] objects: their component sequences compared
    lexicographically, each component as a string. *)
Fixpoint path_leb (p q : path) : bool :=
  match p, q with
  | [], _ => true
  | _ :: _, [] => false
  | x :: p', y :: q' =>
      match String.compare x y with
      | Lt => true
      | Eq => path_leb p' q'
      | Gt => false
      end
  end.

Definition path_le (p q : path) : Prop := path_leb p q = true.

Global Instance path_le_dec : RelDecision path_le.
Proof. intros p q. unfold path_le. apply _. Defined.

(** [sorted(paths)] *)
Definition sorted (ps : list path) : list path := merge_sort path_le ps.

(** [os.path.relpath(p, start)], as components. *)
Fixpoint relpath (p start : path) : path :=
  match p, start with
  | x :: p', y :: start' =>
      if String.eqb x y then relpath p' start'
      else repeat ".." (length start) ++ p
  | _, _ => repeat ".." (length start) ++ p
  end.

Definition relpath_str (p start : path) : string :=
  match relpath p start with
  | [] => "."
  | r => str r
  end.

(** [p.mkdir(parents=True, exist_ok=True)]: the directories from [base]
    down to [base ++ rest] are made where they are missing; a regular file
    on the way is an error. *)
Fixpoint makedirs_from (base : path) (rest : list string) (fs : filesystem)
    : result filesystem :=
  match fs !! base with
  | Some (File _ _) => Raise FileExistsError
  | cur =>
      let fs' := match cur with None => <[base := Dir]> fs | _ => fs end in
      match rest with
      | [] => Ok fs'
      | c :: rest' => makedirs_from (base ++ [c]) rest' fs'
      end
  end.

Definition makedirs (p : path) (fs : filesystem) : result filesystem :=
  makedirs_from [] p fs.

(** [p.write_bytes(data)] where the parent directory exists and [p] is not a
    directory. *)
Definition write_bytes (p : path) (data : bytes) (fs : filesystem) : filesystem :=
  <[p := created data]> fs.

(** ** zlib and gzip

    The gzip member [gzip.GzipFile] writes: a ten-byte header holding the
    time of compression, the deflate stream, CRC-32 and length. The deflate
    stream is written here with stored blocks; the compressor's choice of
    blocks changes those bytes and nothing else. *)

Module zlib.

Fixpoint crc_bits (n : nat) (c : Z) : Z :=
  match n with
  | O => c
  | S n' =>
      crc_bits n' (if Z.odd c then Z.lxor (Z.shiftr c 1) 0xedb88320
                   else Z.shiftr c 1)
  end.

Definition crc32 (data : list ascii) : Z :=
  Z.lxor (fold_left (fun c b => crc_bits 8 (Z.lxor c (byte_val b))) data 0xffffffff)
         0xffffffff.

(** Little-endian encoding of [x] on [n] bytes. *)
Fixpoint le_bytes (n : nat) (x : Z) : list ascii :=
  match n with
  | O => []
  | S n' => byte_chr x :: le_bytes n' (Z.shiftr x 8)
  end.

Fixpoint stored (fuel : nat) (data : list ascii) : list ascii :=
  match fuel with
  | O => []
  | S fuel' =>
      let chunk := firstn (Z.to_nat 65535) data in
      let rest := skipn (Z.to_nat 65535) data in
      let n := Z.of_nat (length chunk) in
      match rest with
      | [] => byte_chr 1 :: le_bytes 2 n ++ le_bytes 2 (65535 - n) ++ chunk
      | _ => byte_chr 0 :: le_bytes 2 n ++ le_bytes 2 (65535 - n) ++ chunk
               ++ stored fuel' rest
      end
  end.

Definition deflate (data : list ascii) : list ascii :=
  stored (S (length data)) data.

End zlib.

Module gzip.

(** [GzipFile(fileobj=buf, mode="wb", compresslevel=9)] written at time
    [mtime], then closed: no file name, MTIME on 32 bits, XFL 2, OS 255. *)
Definition compress (mtime : Z) (data : list ascii) : list ascii :=
  [byte_chr 0x1f; byte_chr 0x8b; byte_chr 8; byte_chr 0]
  ++ zlib.le_bytes 4 mtime ++ [byte_chr 2; byte_chr 255]
  ++ zlib.deflate data
  ++ zlib.le_bytes 4 (zlib.crc32 data)
  ++ zlib.le_bytes 4 (Z.of_nat (length data)).

End gzip.

(** ** tarfile *)

Module tarfile.

Definition NUL : ascii := byte_chr 0.

(** [l] cut or filled with NUL to [n] bytes. *)
Definition field (n : nat) (l : list ascii) : list ascii :=
  firstn n l ++ repeat NUL (n - length l).

Fixpoint oct_digits (n : nat) (x : Z) : list ascii :=
  match n with
  | O => []
  | S n' => oct_digits n' (x / 8) ++ [byte_chr (48 + x mod 8)]
  end.

(** A numeric field of [n] bytes: octal digits and a NUL. *)
Definition oct (n : nat) (x : Z) : list ascii :=
  oct_digits (n - 1) x ++ [NUL].

Definition header_with (chksum : list ascii) (arcname : string)
    (st : stat_result) (size : Z) : list ascii :=
  field 100 (to_list arcname)
  ++ oct 8 (Z.land (st_mode st) 4095) ++ oct 8 (st_uid st) ++ oct 8 (st_gid st)
  ++ oct 12 size ++ oct 12 (st_mtime st)
  ++ chksum
  ++ ["0"%char] ++ field 100 []
  ++ to_list "ustar" ++ [NUL] ++ to_list "00"
  ++ field 32 [] ++ field 32 []
  ++ oct 8 0 ++ oct 8 0
  ++ field 155 [] ++ field 12 [].

(** The 512-byte ustar header of a regular file. Owner names and pax
    records are left out. *)
Definition header (arcname : string) (st : stat_result) (size : Z) : list ascii :=
  let blank := header_with (repeat " "%char 8) arcname st size in
  let sum := fold_left (fun a c => a + byte_val c) blank 0 in
  header_with (oct_digits 6 sum ++ [NUL; " "%char]) arcname st size.

(** [l] filled with NUL to a multiple of [n] bytes. *)
Definition fill (n : nat) (l : list ascii) : list ascii :=
  l ++ repeat NUL ((n - length l mod n) mod n).

(** The bytes of an archive with the one member [arcname]: header, data
    in 512-byte blocks, two empty blocks, filled to a 10240-byte record. *)
Definition single (arcname : string) (st : stat_result) (data : bytes)
    : list ascii :=
  fill (20 * 512) (header arcname st (len data) ++ fill 512 (to_list data)
              ++ repeat NUL 1024).

(** [with tarfile.open(fileobj=buf, mode="w:gz") as t: t.add(file, arcname)]
    run at time [now]; the result is [buf.getvalue()]. *)
Definition open_w_gz_add (now : Z) (arcname : string) (st : stat_result)
    (data : bytes) : bytes :=
  of_list (gzip.compress now (single arcname st data)).

(** *** An opened archive: the list of its members *)

Inductive content :=
  | REGTYPE (data : bytes)
  | DIRTYPE.

Record TarInfo := {
  name : string;
  type : content;
}.

Definition of_node (name : string) (n : node) : TarInfo :=
  match n with
  | File _ data => {| name := name; type := REGTYPE data |}
  | Dir => {| name := name; type := DIRTYPE |}
  end.

(** [os.path.join(arcname, rel)] *)
Definition arc_join (arcname : string) (rel : path) : string :=
  if String.eqb arcname "" then str rel else arcname +:+ "/" +:+ str rel.

(** [tar.add(src, arcname=arcname)]: the members appended. A directory is
    followed by its content, each level in the order of [sorted(os.listdir)],
    which lists the paths below [src] in the order of [path_le]. *)
Definition add (fs : filesystem) (src : path) (arcname : string)
    : result (list TarInfo) :=
  match fs !! src with
  | None => Raise FileNotFoundError
  | Some (File st data) => Ok [of_node arcname (File st data)]
  | Some Dir =>
      Ok (of_node arcname Dir
          :: omap (fun p => of_node (arc_join arcname (drop (length src) p))
                              <$> fs !! p)
                  (sorted (rglob fs src)))
  end.

(** [{m.name: m for m in tar.getmembers()}.get(n)]: the last member
    named [n]. *)
Definition members_get (n : string) (members : list TarInfo) : option TarInfo :=
  List.find (fun m => String.eqb (name m) n) (rev members).

(** [tar.extractfile(m)]: [None] unless [m] is a regular file. *)
Definition extractfile (m : TarInfo) : option bytes :=
  match type m with
  | REGTYPE data => Some data
  | DIRTYPE => None
  end.

(** Where the operating system finds [parts] from [cur]. *)
Fixpoint resolve_from (cur : path) (parts : list string) : path :=
  match parts with
  | [] => cur
  | c :: rest =>
      if bool_decide (c = "" ∨ c = ".") then resolve_from cur rest
      else if bool_decide (c = "..") then resolve_from (removelast cur) rest
      else resolve_from (cur ++ [c]) rest
  end.

(** [os.path.join(dest, name)], resolved. *)
Definition targetpath (dest : path) (name : string) : path :=
  if startswith "/" name then resolve_from [] (str_split "/" name)
  else resolve_from dest (str_split "/" name).

(** [tar.extract(m, dest)] with every member trusted: missing parent
    directories are made, a regular file replaces a file of that path, a
    directory is made unless it is there. The file system afterwards and
    the outcome. *)
Definition extract (dest : path) (fs : filesystem) (m : TarInfo)
    : filesystem * result unit :=
  let target := targetpath dest (name m) in
  match makedirs (parent target) fs with
  | Raise e => (fs, Raise e)
  | Ok fs =>
      match type m, fs !! target with
      | REGTYPE _, Some Dir => (fs, Raise IsADirectoryError)
      | REGTYPE data, _ => (write_bytes target data fs, Ok tt)
      | DIRTYPE, Some (File _ _) => (fs, Raise FileExistsError)
      | DIRTYPE, _ => (<[target := Dir]> fs, Ok tt)
      end
  end.

(** [tar.extractall(path=dest)] called without [filter]: the members are
    extracted in order; the first error stops it, what was written stays. *)
Fixpoint extractall (members : list TarInfo) (dest : path) (fs : filesystem)
    : filesystem * result unit :=
  match members with
  | [] => (fs, Ok tt)
  | m :: rest =>
      match extract dest fs m with
      | (fs', Ok _) => extractall rest dest fs'
      | (fs', Raise e) => (fs', Raise e)
      end
  end.

End tarfile.

(** ** core.py *)

Definition _MANIFEST_FILENAME : string := "manifest.json".
Definition _CONFIG_FILENAME : string := "config.json".
Definition _LAYERS_DIR : string := "blobs/sha256".

(** [_sha256_bytes(data)] *)
Definition _sha256_bytes (data : bytes) : string :=
  "sha256:" +:+ hashlib.hexdigest data.

(** [tempfile.TemporaryDirectory()]: a work area of its own; its paths are
    relative to it. *)
Definition TemporaryDirectory : filesystem := {[ [] := Dir ]}.

(** [ModelPackager._create_layer_blob(file_path, blobs_dir, base_dir)], run
    at time [now]. The file is read from [fs], the blob is written into
    [tmp]; [base_dir = None] is the empty string of the source. *)
Definition _create_layer_blob (now : Z) (fs : filesystem) (file_path : path)
    (tmp : filesystem) (blobs_dir : path) (base_dir : option path)
    : result (ModelLayer * filesystem) :=
  match fs !! file_path with
  | Some (File st data) =>
      let arcname :=
        match base_dir with
        | Some b => relpath_str file_path b
        | None => Path_name file_path
        end in
      let blob_bytes := tarfile.open_w_gz_add now arcname st data in
      let digest := _sha256_bytes blob_bytes in
      hex_digest ← or_raise IndexError (str_split ":" digest !! 1%nat);
      let blob_path := blobs_dir // hex_digest in
      let tmp := write_bytes blob_path blob_bytes tmp in
      let rel_path :=
        match base_dir with
        | Some b => relpath_str file_path b
        | None => Path_name file_path
        end in
      Ok ({| digest := digest;
             size := len blob_bytes;
             media_type := ModelLayer_media_type_default;
             annotations := [("org.opencontainers.image.title", rel_path)] |},
          tmp)
  | _ => Raise FileNotFoundError
  end.

(** [ModelPackager.create_manifest(config, layers)] *)
Definition create_manifest (config : OCIConfig) (layers : list ModelLayer)
    : OCIManifest :=
  let config_bytes := OCIConfig_model_dump_json None config in
  let config_digest := _sha256_bytes config_bytes in
  let config_descriptor :=
    [ ("mediaType", json.Str "application/vnd.oci.image.config.v1+json");
      ("digest", json.Str config_digest);
      ("size", json.Num (len config_bytes)) ] in
  let layer_descriptors :=
    map (fun layer =>
           [ ("mediaType", json.Str (media_type layer));
             ("digest", json.Str (digest layer));
             ("size", json.Num (size layer));
             ("annotations",
              json.Obj (map (fun kv => (fst kv, json.Str (snd kv)))
                            (annotations layer))) ])
        layers in
  OCIManifest_new config_descriptor layer_descriptors.

(** The loop of [package] over the sorted listing: one layer per regular
    file. [clock t] is the time at the [t]-th blob made in this run. *)
Fixpoint package_layers (clock : nat -> Z) (tick : nat) (fs : filesystem)
    (files : list path) (blobs_dir model_path : path)
    (layers : list ModelLayer) (tmp : filesystem)
    : result (list ModelLayer * filesystem) :=
  match files with
  | [] => Ok (layers, tmp)
  | file_path :: rest =>
      if is_file fs file_path then
        r ← _create_layer_blob (clock tick) fs file_path tmp blobs_dir
              (Some model_path);
        package_layers clock (S tick) fs rest blobs_dir model_path
          (layers ++ [r.1]) r.2
      else
        package_layers clock tick fs rest blobs_dir model_path layers tmp
  end.

(** [ModelPackager.package(model_dir, config)]: the path of the archive and
    the archive written there. *)
Definition package (clock : nat -> Z) (fs : filesystem) (model_dir : path)
    (config : OCIConfig) : result (path * list tarfile.TarInfo) :=
  let model_path := model_dir in
  if negb (is_dir fs model_path) then Raise NotADirectoryError
  else
    let output_archive :=
      parent model_path // (model_name config +:+ "-" +:+ version config +:+ ".tar") in
    let tmp := TemporaryDirectory in
    let blobs_dir := [] // _LAYERS_DIR in
    tmp ← makedirs blobs_dir tmp;
    (* Walk model_dir and create one layer per file *)
    r ← package_layers clock 0 fs (sorted (rglob fs model_path)) blobs_dir
          model_path [] tmp;
    let layers := r.1 in
    let tmp := r.2 in
    (* Write config *)
    let config_bytes := OCIConfig_model_dump_json (Some 2%nat) config in
    let config_digest := _sha256_bytes config_bytes in
    hex ← or_raise IndexError (str_split ":" config_digest !! 1%nat);
    let config_blob_path := blobs_dir // hex in
    let tmp := write_bytes config_blob_path config_bytes tmp in
    (* Build manifest *)
    let manifest := create_manifest config layers in
    let manifest_json := OCIManifest_model_dump_json (Some 2%nat) manifest in
    let tmp := write_bytes ([] // _MANIFEST_FILENAME) manifest_json tmp in
    (* Write human-readable config.json at root for convenience *)
    let tmp := write_bytes ([] // _CONFIG_FILENAME) config_bytes tmp in
    (* Bundle everything into the output tar *)
    members ← tarfile.add tmp [] "";
    Ok (output_archive, members).

(** [ModelPackager.add_layer(archive_path, file_path)], run at time [now] on
    the archive [archive]: the descriptor and the archive afterwards. *)
Definition add_layer (now : Z) (fs : filesystem) (archive : list tarfile.TarInfo)
    (file_path : path) : result (ModelLayer * list tarfile.TarInfo) :=
  if negb (is_file fs file_path) then Raise FileNotFoundError
  else
    let tmp := TemporaryDirectory in
    let blobs_dir := [] // _LAYERS_DIR in
    tmp ← makedirs blobs_dir tmp;
    (* Create a layer blob for the new file *)
    r ← _create_layer_blob now fs file_path tmp blobs_dir None;
    let layer := r.1 in
    let tmp := r.2 in
    (* Append blob to the archive *)
    blob_name ← or_raise IndexError (str_split ":" (digest layer) !! 1%nat);
    added ← tarfile.add tmp (blobs_dir // blob_name)
              (_LAYERS_DIR +:+ "/" +:+ blob_name);
    Ok (layer, archive ++ added).

(** [ModelUnpackager.unpack(archive_path, output_dir)] on the archive
    [archive]: the file system afterwards and the result. *)
Definition unpack (archive : list tarfile.TarInfo) (fs : filesystem)
    (output_dir : path) : filesystem * result OCIConfig :=
  let output := output_dir in
  match makedirs output fs with
  | Raise e => (fs, Raise e)
  | Ok fs =>
      match tarfile.extractall archive output fs with
      | (fs, Raise e) => (fs, Raise e)
      | (fs, Ok _) =>
          let config_file := output // _CONFIG_FILENAME in
          (fs,
           if negb (exists_ fs config_file) then Raise FileNotFoundError
           else
             match fs !! config_file with
             | Some (File _ text) =>
                 obj ← json.loads text;
                 pydantic.OCIConfig_validate obj
             | _ => Raise IsADirectoryError
             end)
      end
  end.

(** The loop of [verify_layers] over the layer descriptors. *)
Fixpoint verify_loop (members : list tarfile.TarInfo)
    (descs : list (list (string * json.value)))
    (results : list (string * bool)) : result (list (string * bool)) :=
  match descs with
  | [] => Ok results
  | layer_desc :: rest =>
      d ← or_raise KeyError (json.dict_get "digest" layer_desc);
      digest ← match d with
               | json.Str s => Ok s
               | _ => Raise TypeError
               end;
      hex_digest ← or_raise IndexError (str_split ":" digest !! 1%nat);
      let blob_name := _LAYERS_DIR +:+ "/" +:+ hex_digest in
      match tarfile.members_get blob_name members with
      | None => verify_loop members rest (results ++ [(digest, false)])
      | Some blob_member =>
          match tarfile.extractfile blob_member with
          | None => verify_loop members rest (results ++ [(digest, false)])
          | Some data =>
              let actual_digest := _sha256_bytes data in
              verify_loop members rest
                (results ++ [(digest, String.eqb actual_digest digest)])
          end
      end
  end.

(** [ModelUnpackager.verify_layers(archive_path)] on the archive [archive]. *)
Definition verify_layers (archive : list tarfile.TarInfo)
    : result (list (string * bool)) :=
  let members := archive in
  (* Read manifest to know which digests to expect *)
  match tarfile.members_get _MANIFEST_FILENAME members with
  | None => Raise FileNotFoundError
  | Some manifest_member =>
      match tarfile.extractfile manifest_member with
      | None => Raise RuntimeError
      | Some text =>
          obj ← json.loads text;
          manifest ← pydantic.OCIManifest_validate obj;
          verify_loop members (layers manifest) []
      end
  end.

(** ** Measures and predicates used to state the properties *)

(** Nesting size of a value: enough fuel for the parser to read it back. *)
Fixpoint json_size (v : json.value) : nat :=
  match v with
  | json.Arr items => S (fold_right (fun x n => json_size x + n)%nat 0%nat items)
  | json.Obj members =>
      S (fold_right (fun kv n => json_size (snd kv) + n)%nat 0%nat members)
  | _ => 1%nat
  end.

(** What may follow a number: not a digit, not the start of a fraction or
    of an exponent. *)
Definition ok_after (rest : list ascii) : bool :=
  match rest with
  | [] => true
  | c :: _ =>
      match json.digit_val c with
      | Some _ => false
      | None => negb (json.starts_float rest)
      end
  end.

(** The first character of a number. *)
Definition num_head (c : ascii) : bool :=
  Ascii.eqb c "-"%char || match json.digit_val c with Some _ => true | None => false end.

(** The metadata of a config is a Python dict of JSON values: the keys of
    every object in it are pairwise distinct. *)
Definition config_wf (c : OCIConfig) : Prop := json.wf (json.Obj (metadata c)).

(** A lower-case hexadecimal digit. *)
Definition is_hex (c : ascii) : Prop := In c (to_list "0123456789abcdef").

(** ** What [package] builds, step by step *)

(** The regular files below [root], in the order [package] visits them. *)
Definition regular_files (fs : filesystem) (root : path) : list path :=
  filter (fun p => is_file fs p) (sorted (rglob fs root)).

(** The descriptor of a layer whose blob is [blob_bytes]. *)
Definition mk_layer (blob_bytes : bytes) (title : string) : ModelLayer :=
  {| digest := _sha256_bytes blob_bytes;
     size := len blob_bytes;
     media_type := ModelLayer_media_type_default;
     annotations := [("org.opencontainers.image.title", title)] |}.

(** The blob made at time [now] of the file at [file_path]. *)
Definition layer_blob (now : Z) (fs : filesystem) (base : path) (file_path : path)
    : bytes :=
  match fs !! file_path with
  | Some (File st data) =>
      tarfile.open_w_gz_add now (relpath_str file_path base) st data
  | _ => ""
  end.

(** The blobs of [files], the first one made at [clock tick]. *)
Fixpoint layer_blobs (clock : nat -> Z) (tick : nat) (fs : filesystem)
    (base : path) (files : list path) : list bytes :=
  match files with
  | [] => []
  | p :: rest =>
      layer_blob (clock tick) fs base p :: layer_blobs clock (S tick) fs base rest
  end.

(** Where a blob is kept: under the hex digest of its bytes. *)
Definition blob_path (blob : bytes) : path :=
  ["blobs"; "sha256"; hashlib.hexdigest blob].

Definition store_blobs (blobs : list bytes) (tmp : filesystem) : filesystem :=
  fold_left (fun t b => write_bytes (blob_path b) b t) blobs tmp.

(** The work area once [blobs/sha256] is made. *)
Definition work_area0 : filesystem :=
  <[ ["blobs"; "sha256"] := Dir ]> (<[ ["blobs"] := Dir ]> TemporaryDirectory).

(** The blobs and the descriptors of the layers of a run of [package]. *)
Definition package_blobs (clock : nat -> Z) (fs : filesystem) (dir : path)
    : list bytes :=
  layer_blobs clock 0 fs dir (regular_files fs dir).

Definition package_layer_list (clock : nat -> Z) (fs : filesystem) (dir : path)
    : list ModelLayer :=
  zip_with mk_layer (package_blobs clock fs dir)
    ((fun p => relpath_str p dir) <$> regular_files fs dir).

(** The work area when [package] bundles it. *)
Definition work_area (clock : nat -> Z) (fs : filesystem) (dir : path)
    (cfg : OCIConfig) : filesystem :=
  let config_bytes := OCIConfig_model_dump_json (Some 2%nat) cfg in
  let manifest_json :=
    OCIManifest_model_dump_json (Some 2%nat)
      (create_manifest cfg (package_layer_list clock fs dir)) in
  write_bytes ["config.json"] config_bytes
    (write_bytes ["manifest.json"] manifest_json
       (write_bytes (blob_path config_bytes) config_bytes
          (store_blobs (package_blobs clock fs dir) work_area0))).

(** The members [tar.add(tmp, arcname="")] writes for the work area [tmp]. *)
Definition archive_of (tmp : filesystem) : list tarfile.TarInfo :=
  tarfile.of_node "" Dir
  :: omap (fun p => tarfile.of_node (str p) <$> tmp !! p) (sorted (rglob tmp [])).

(** ** Reading an archive *)

(** The bytes of the member [n], when it is a regular file. *)
Definition member_bytes (n : string) (archive : list tarfile.TarInfo)
    : option bytes :=
  tarfile.members_get n archive ≫= tarfile.extractfile.

(** The manifest an archive carries: its [manifest.json], parsed and
    validated the way [verify_layers] does. *)
Definition archive_manifest (archive : list tarfile.TarInfo) : result OCIManifest :=
  text ← or_raise FileNotFoundError (member_bytes _MANIFEST_FILENAME archive);
  obj ← json.loads text;
  pydantic.OCIManifest_validate obj.

(** Fields of a descriptor of the manifest. *)
Definition desc_digest (desc : list (string * json.value)) : option string :=
  pydantic.get_str "digest" desc.

Definition desc_size (desc : list (string * json.value)) : option Z :=
  match json.dict_get "size" desc with
  | Some (json.Num n) => Some n
  | _ => None
  end.

Definition desc_title (desc : list (string * json.value)) : option string :=
  a ← json.dict_get "annotations" desc;
  d ← pydantic.as_dict a;
  pydantic.get_str "org.opencontainers.image.title" d.

(** A component of a path inside an archive: not empty, not "." or "..",
    without "/". *)
Definition clean (c : string) : Prop :=
  c <> "" /\ c <> "." /\ c <> ".." /\ Forall (fun x => x <> "/"%char) (to_list c).

(** Every path of a work area is made of clean components. *)
Definition clean_fs (tmp : filesystem) : Prop :=
  forall p, is_Some (tmp !! p) -> Forall clean p.

(** ** What [verify_layers] is to return, in the words of its contract *)

(** The name of the blob entry of a digest: [blobs/sha256/<hex>], the hex
    part being what follows the first colon. *)
Definition blob_entry (digest : string) : option string :=
  (fun hex => _LAYERS_DIR +:+ "/" +:+ hex) <$> str_split ":" digest !! 1%nat.

(** A descriptor [verify_layers] can read: its digest is a string with an
    algorithm prefix. *)
Definition readable (desc : list (string * json.value)) : Prop :=
  exists d n, desc_digest desc = Some d /\ blob_entry d = Some n.

(** [false] when the entry is absent or is not a regular file, otherwise
    whether the digest of its bytes is the expected one. *)
Definition layer_verdict (archive : list tarfile.TarInfo) (digest : string) : bool :=
  match blob_entry digest ≫= (fun n => member_bytes n archive) with
  | Some data => String.eqb (_sha256_bytes data) digest
  | None => false
  end.

Definition verdicts (archive : list tarfile.TarInfo)
    (descs : list (list (string * json.value))) : list (string * bool) :=
  (fun desc => let d := default "" (desc_digest desc) in
               (d, layer_verdict archive d)) <$> descs.

(** ** Example inputs *)

Definition st0 : stat_result :=
  {| st_mode := 420; st_uid := 1000; st_gid := 1000; st_mtime := 1700000000 |}.

(** A directory [/m] holding [a.bin] (4 bytes). *)
Definition fs1 : filesystem :=
  list_to_map [ (["m"], Dir); (["m"; "a.bin"], File st0 "abcd") ].

(** An empty directory [/m]. *)
Definition fs_empty : filesystem := {[ ["m"] := Dir ]}.

Definition cfg0 : OCIConfig :=
  {| model_name := "m"; version := "1.0"; framework := "x"; architecture := "y";
     metadata := [] |}.

(** A manifest of three layers and an archive that carries it: the blob of
    the first layer is stored as named, the blob of the second is missing,
    and the entry named by the third holds other bytes. *)
Definition manifest_ex : OCIManifest :=
  OCIManifest_new []
    [ [("digest", json.Str (_sha256_bytes "x"))];
      [("digest", json.Str "sha256:00")];
      [("digest", json.Str (_sha256_bytes "y"))] ].

Definition archive_ex : list tarfile.TarInfo :=
  [ {| tarfile.name := "manifest.json";
       tarfile.type := tarfile.REGTYPE (OCIManifest_model_dump_json (Some 2%nat) manifest_ex) |};
    {| tarfile.name := "blobs/sha256/" +:+ hashlib.hexdigest "x";
       tarfile.type := tarfile.REGTYPE "x" |};
    {| tarfile.name := "blobs/sha256/" +:+ hashlib.hexdigest "y";
       tarfile.type := tarfile.REGTYPE "z" |} ].

(** The archive that carries nothing but a manifest of the layers [descs]. *)
Definition archive_with_layers (descs : list (list (string * json.value)))
    : list tarfile.TarInfo :=
  [ {| tarfile.name := "manifest.json";
       tarfile.type :=
         tarfile.REGTYPE
           (OCIManifest_model_dump_json (Some 2%nat) (OCIManifest_new [] descs)) |} ].

(** ** Extraction of a work area: the notions of the proof *)

(** What extraction writes for a node of the work area. *)
Definition node_copy (n : node) : node :=
  match n with
  | File _ data => created data
  | Dir => Dir
  end.

(** A work area is a tree: its root is a directory, its paths are clean, and
    every path above one of its paths is a directory of it. *)
Definition tree (tmp : filesystem) : Prop :=
  tmp !! [] = Some Dir
  /\ clean_fs tmp
  /\ forall p q, is_Some (tmp !! p) -> q `prefix_of` p -> q <> p -> tmp !! q = Some Dir.

(** While the archive of [tmp] is extracted into [out] over [fs0]: the paths
    down to [out] are directories, what is below [out] is a copy of [tmp]
    as far as it is there, and the rest is as in [fs0]. *)
Definition extracting (tmp : filesystem) (out : path) (fs0 fs : filesystem) : Prop :=
  (forall q, q `prefix_of` out -> fs !! q = Some Dir)
  /\ (forall p n, fs !! (out ++ p) = Some n -> node_copy <$> tmp !! p = Some n)
  /\ (forall q, ~ out `prefix_of` q -> fs !! q = fs0 !! q).


(** ** [_sha256_file] and the hash object it feeds *)

(** A [hashlib.sha256()] object: the chaining value after the 64-byte blocks
    absorbed so far, the bytes not yet absorbed (fewer than 64), and the
    number of bytes fed. *)
Module sha256_object.

Record t := {
  chain : list Z;
  pending : list Z;
  fed : nat;
}.

(** [hashlib.sha256()] *)
Definition new : t := {| chain := hashlib.H0; pending := []; fed := 0 |}.

(** [h.update(chunk)]: the full blocks are absorbed, the rest waits. *)
Definition update (h : t) (chunk : bytes) : t :=
  let bs := pending h ++ map byte_val (to_list chunk) in
  let n := (length bs / 64)%nat in
  {| chain := hashlib.blocks n (chain h) bs;
     pending := skipn (64 * n) bs;
     fed := fed h + String.length chunk |}.

(** [h.hexdigest()]: the pending bytes are padded with the length of all
    that was fed, and absorbed. *)
Definition hexdigest (h : t) : string :=
  let l := Z.of_nat (fed h) in
  let last := pending h ++ [0x80] ++ repeat 0 (Z.to_nat ((55 - l) mod 64))
                ++ hashlib.be_bytes 8 (8 * l) in
  of_list (concat (map hashlib.hex_word
                       (hashlib.blocks (length last / 64) (chain h) last))).

End sha256_object.

(** [fh.read(n)] on what is left of the file: the bytes read, and what is
    left after. *)
Fixpoint read (n : nat) (fh : bytes) : bytes * bytes :=
  match n, fh with
  | S n', String c rest => let r := read n' rest in (String c r.1, r.2)
  | _, _ => ("", fh)
  end.

(** [for chunk in iter(lambda: fh.read(n), b""): h.update(chunk)]. Every
    turn but the last reads at least one byte; [fuel] bounds the turns. *)
Fixpoint update_chunks (n fuel : nat) (h : sha256_object.t) (fh : bytes)
    : sha256_object.t :=
  match fuel with
  | O => h
  | S fuel' =>
      let r := read n fh in
      if String.eqb r.1 "" then h
      else update_chunks n fuel' (sha256_object.update h r.1) r.2
  end.

(** [_sha256_file(path)] *)
Definition _sha256_file (fs : filesystem) (p : path) : result string :=
  match fs !! p with
  | None => Raise FileNotFoundError
  | Some Dir => Raise IsADirectoryError
  | Some (File _ data) =>
      let h := sha256_object.new in
      let h := update_chunks (Z.to_nat 65536) (S (String.length data)) h data in
      Ok ("sha256:" +:+ sha256_object.hexdigest h)
  end.
(** * Facts about the library models *)

(** ** Strings *)

Lemma to_of_list (l : list ascii) : to_list (of_list l) = l.
Proof. apply list_ascii_of_string_of_list_ascii. Qed.

Lemma of_to_list (s : string) : of_list (to_list s) = s.
Proof. apply string_of_list_ascii_of_string. Qed.

Lemma length_to_list (s : string) : length (to_list s) = String.length s.
Proof. induction s; simpl; congruence. Qed.

Ltac ascii_cases c := destruct c as [[] [] [] [] [] [] [] []].

(** ** json *)

Lemma value_ind' (P : json.value -> Prop) :
  P json.Null ->
  (forall b, P (json.Bool b)) ->
  (forall n, P (json.Num n)) ->
  (forall s, P (json.Str s)) ->
  (forall items, Forall P items -> P (json.Arr items)) ->
  (forall ms, Forall (fun kv => P kv.2) ms -> P (json.Obj ms)) ->
  forall v, P v.
Proof.
  intros HN HB HNum HS HA HO. fix IH 1. intros [ | b | n | s | items | ms].
  - exact HN.
  - apply HB.
  - apply HNum.
  - apply HS.
  - apply HA. induction items as [|x items IHi]; constructor; [apply IH | exact IHi].
  - apply HO. induction ms as [|[k x] ms IHm]; constructor; [apply IH | exact IHm].
Qed.

(** *** Strings literals *)

Lemma parse_chars_escape (c : ascii) (t : list ascii) :
  json.parse_chars (json.escape_char c ++ t)
  = match json.parse_chars t with
    | Some (u, r) => Some (c :: u, r)
    | None => None
    end.
Proof. ascii_cases c; reflexivity. Qed.

Lemma parse_chars_write (l rest : list ascii) :
  json.parse_chars (flat_map json.escape_char l ++ json.dquote :: rest)
  = Some (l, rest).
Proof.
  induction l as [|c l IH]; [reflexivity|].
  simpl. rewrite <- app_assoc, parse_chars_escape, IH. reflexivity.
Qed.

Lemma parse_string_write (s : string) (rest : list ascii) :
  json.parse_string (json.write_string s ++ rest) = Some (s, rest).
Proof.
  unfold json.write_string, json.parse_string. simpl.
  rewrite <- app_assoc. simpl. rewrite parse_chars_write, of_to_list. reflexivity.
Qed.

(** *** Numbers *)

Lemma digit_val_chr (d : Z) :
  0 <= d <= 9 -> json.digit_val (json.digit_chr d) = Some d.
Proof.
  intros H.
  assert (d = 0 \/ d = 1 \/ d = 2 \/ d = 3 \/ d = 4 \/ d = 5 \/ d = 6 \/ d = 7
          \/ d = 8 \/ d = 9) as Hd by lia.
  repeat (destruct Hd as [-> | Hd]; [reflexivity|]). subst d. reflexivity.
Qed.

Lemma num_head_digit (d : Z) : 0 <= d <= 9 -> num_head (json.digit_chr d) = true.
Proof.
  intros H. unfold num_head. rewrite (digit_val_chr d H). apply orb_true_r.
Qed.

Lemma digit_chr_not_minus (d : Z) :
  0 <= d <= 9 -> Ascii.eqb (json.digit_chr d) "-"%char = false.
Proof.
  intros H.
  assert (d = 0 \/ d = 1 \/ d = 2 \/ d = 3 \/ d = 4 \/ d = 5 \/ d = 6 \/ d = 7
          \/ d = 8 \/ d = 9) as Hd by lia.
  repeat (destruct Hd as [-> | Hd]; [reflexivity|]). subst d. reflexivity.
Qed.

Lemma write_nat_app (fuel : nat) : forall n acc,
  json.write_nat fuel n acc = json.write_nat fuel n [] ++ acc.
Proof.
  induction fuel as [|fuel IH]; intros n acc; simpl; [reflexivity|].
  destruct (n <? 10); [reflexivity|].
  rewrite IH, (IH _ [_]), <- app_assoc. reflexivity.
Qed.

Lemma digits_val_snoc (ds : list Z) (d : Z) :
  json.digits_val (ds ++ [d]) = 10 * json.digits_val ds + d.
Proof. unfold json.digits_val. rewrite fold_left_app. reflexivity. Qed.

Lemma write_nat_digits (fuel : nat) : forall n,
  0 <= n < 10 * 2 ^ Z.of_nat fuel ->
  exists d ds,
    json.write_nat fuel n [] = map json.digit_chr (d :: ds)
    /\ Forall (fun x => 0 <= x <= 9) (d :: ds)
    /\ json.digits_val (d :: ds) = n
    /\ (d = 0 -> ds = []).
Proof.
  induction fuel as [|fuel IH]; intros n Hn.
  - exists n, []. simpl in *. rewrite Z.mod_small by lia.
    split; [reflexivity|]. split; [repeat constructor; lia|].
    split; [unfold json.digits_val; simpl; lia | reflexivity].
  - simpl. destruct (Z.ltb_spec n 10) as [Hlt|Hge].
    + exists n, []. split; [reflexivity|]. split; [repeat constructor; lia|].
      split; [unfold json.digits_val; simpl; lia | reflexivity].
    + destruct (IH (n / 10)) as (d & ds & Hw & Hd & Hv & Hz).
      { split; [apply Z.div_pos; lia|].
        apply Z.div_lt_upper_bound; [lia|].
        rewrite Nat2Z.inj_succ, Z.pow_succ_r in Hn by lia. lia. }
      exists d, (ds ++ [n mod 10]).
      rewrite write_nat_app, Hw. simpl. rewrite map_app. simpl.
      split; [reflexivity|]. split.
      { rewrite app_comm_cons. apply Forall_app. split; [exact Hd|].
        repeat constructor; pose proof (Z.mod_pos_bound n 10); lia. }
      split.
      { rewrite app_comm_cons, digits_val_snoc, Hv.
        pose proof (Z.div_mod n 10). lia. }
      intros ->. specialize (Hz eq_refl). subst ds.
      unfold json.digits_val in Hv. simpl in Hv.
      assert (1 <= n / 10) by (apply Z.div_le_lower_bound; lia). lia.
Qed.

Lemma read_digits_map (ds : list Z) (rest : list ascii) :
  Forall (fun x => 0 <= x <= 9) ds ->
  match rest with [] => True | c :: _ => json.digit_val c = None end ->
  json.read_digits (map json.digit_chr ds ++ rest) = (ds, rest).
Proof.
  intros Hd Hr. induction Hd as [|d ds Hd _ IH]; simpl.
  - destruct rest as [|c rest]; [reflexivity|]. simpl. rewrite Hr. reflexivity.
  - rewrite (digit_val_chr d Hd), IH. reflexivity.
Qed.

Lemma ok_after_digit (rest : list ascii) :
  ok_after rest = true ->
  match rest with [] => True | c :: _ => json.digit_val c = None end.
Proof.
  destruct rest as [|c rest]; [easy|]. unfold ok_after.
  destruct (json.digit_val c); [discriminate | reflexivity].
Qed.

Lemma ok_after_float (rest : list ascii) :
  ok_after rest = true -> json.starts_float rest = false.
Proof.
  destruct rest as [|c rest]; [reflexivity|]. unfold ok_after.
  destruct (json.digit_val c); [discriminate|]. apply negb_true_iff.
Qed.

Lemma log2_bound (n : Z) : 0 <= n -> n < 10 * 2 ^ Z.of_nat (Z.to_nat (Z.log2 n)).
Proof.
  intros H. rewrite Z2Nat.id by apply Z.log2_nonneg.
  destruct (Z.eq_dec n 0) as [->|Hne]; [reflexivity|].
  pose proof (Z.log2_spec n ltac:(lia)) as [_ Hlt].
  rewrite Z.pow_succ_r in Hlt by apply Z.log2_nonneg.
  pose proof (Z.pow_pos_nonneg 2 (Z.log2 n) ltac:(lia) (Z.log2_nonneg n)). lia.
Qed.

Lemma leading_zero_ok (d : Z) (ds : list Z) :
  (d = 0 -> ds = []) ->
  (d =? 0) && negb (match ds with [] => true | _ => false end) = false.
Proof.
  intros H. destruct (Z.eqb_spec d 0) as [Hd|Hd]; [|reflexivity].
  rewrite (H Hd). reflexivity.
Qed.

Lemma parse_int_write (n : Z) (rest : list ascii) :
  ok_after rest = true ->
  json.parse_int (json.write_int n ++ rest) = Some (n, rest).
Proof.
  intros Hok. unfold json.write_int.
  destruct (Z.ltb_spec n 0) as [Hneg|Hpos].
  - assert (0 <= - n) as Hn' by lia.
    destruct (write_nat_digits _ (- n) (conj Hn' (log2_bound (- n) Hn')))
      as (d & ds & Hw & Hd & Hv & Hz).
    rewrite Hw. unfold json.parse_int.
    change ((("-"%char :: map json.digit_chr (d :: ds)) ++ rest))
      with ("-"%char :: (map json.digit_chr (d :: ds) ++ rest)).
    cbv iota beta. rewrite Ascii.eqb_refl. cbv iota beta.
    rewrite (read_digits_map _ _ Hd (ok_after_digit _ Hok)).
    rewrite (ok_after_float _ Hok).
    rewrite (leading_zero_ok d ds Hz), Hv. f_equal. f_equal. lia.
  - destruct (write_nat_digits _ n (conj Hpos (log2_bound n Hpos)))
      as (d & ds & Hw & Hd & Hv & Hz).
    rewrite Hw. unfold json.parse_int.
    change (map json.digit_chr (d :: ds) ++ rest)
      with (json.digit_chr d :: (map json.digit_chr ds ++ rest)).
    cbv iota beta. rewrite (digit_chr_not_minus d) by (inversion Hd; assumption).
    cbv iota beta.
    change (json.digit_chr d :: (map json.digit_chr ds ++ rest))
      with (map json.digit_chr (d :: ds) ++ rest).
    rewrite (read_digits_map _ _ Hd (ok_after_digit _ Hok)).
    rewrite (ok_after_float _ Hok).
    rewrite (leading_zero_ok d ds Hz), Hv. reflexivity.
Qed.

Lemma write_int_head (n : Z) :
  exists c w, json.write_int n = c :: w /\ num_head c = true.
Proof.
  unfold json.write_int. destruct (Z.ltb_spec n 0) as [Hneg|Hpos].
  - eexists _, _. split; reflexivity.
  - destruct (write_nat_digits _ n (conj Hpos (log2_bound n Hpos)))
      as (d & ds & Hw & Hd & _).
    rewrite Hw. eexists _, _. split; [reflexivity|].
    apply num_head_digit. inversion Hd; assumption.
Qed.

(** *** Values *)

Lemma skip_ws_app (pre s : list ascii) :
  Forall (fun c => json.is_ws c = true) pre ->
  json.skip_ws (pre ++ s) = json.skip_ws s.
Proof. induction 1 as [|c pre Hc _ IH]; simpl; [reflexivity|]. rewrite Hc. exact IH. Qed.

Lemma skip_ws_head (c : ascii) (s : list ascii) :
  json.is_ws c = false -> json.skip_ws (c :: s) = c :: s.
Proof. intros H. simpl. rewrite H. reflexivity. Qed.

Lemma parse_value_ws (fuel : nat) (pre s : list ascii) :
  Forall (fun c => json.is_ws c = true) pre ->
  json.parse_value fuel (pre ++ s) = json.parse_value fuel s.
Proof. intros H. destruct fuel; simpl; [reflexivity|]. rewrite skip_ws_app by exact H. reflexivity. Qed.

Lemma nl_ws (indent : option nat) (d : nat) :
  Forall (fun c => json.is_ws c = true) (json.nl indent d).
Proof.
  destruct indent as [k|]; simpl; [|constructor].
  constructor; [reflexivity|]. induction (k * d)%nat; simpl; constructor; auto.
Qed.

Lemma ok_after_nl (indent : option nat) (d : nat) (c : ascii) (rest : list ascii) :
  c = "]"%char \/ c = "}"%char ->
  ok_after (json.nl indent d ++ c :: rest) = true.
Proof. intros [-> | ->]; destruct indent; reflexivity. Qed.

Lemma skip_ws_nl (indent : option nat) (d : nat) (c : ascii) (rest : list ascii) :
  json.is_ws c = false ->
  json.skip_ws (json.nl indent d ++ c :: rest) = c :: rest.
Proof. intros H. rewrite skip_ws_app by apply nl_ws. apply skip_ws_head, H. Qed.

Lemma num_head_facts (c : ascii) :
  num_head c = true ->
  json.is_ws c = false /\ Ascii.eqb c "]"%char = false /\ Ascii.eqb c "}"%char = false.
Proof.
  intros H. ascii_cases c; try (vm_compute in H; discriminate H);
    repeat split; reflexivity.
Qed.

Lemma parse_value_num (f : nat) (c : ascii) (r : list ascii) :
  num_head c = true ->
  json.parse_value (S f) (c :: r)
  = match json.parse_int (c :: r) with
    | Some (n, r') => Some (json.Num n, r')
    | None => None
    end.
Proof.
  intros H. ascii_cases c; try (vm_compute in H; discriminate H); reflexivity.
Qed.

Lemma write_arr_cons indent depth x xs :
  json.write indent depth (json.Arr (x :: xs))
  = "["%char :: json.write_seq indent depth
                  (map (json.write indent (S depth)) (x :: xs))
    ++ json.nl indent depth ++ ["]"%char].
Proof. reflexivity. Qed.

Lemma write_obj_cons indent depth kv ms :
  json.write indent depth (json.Obj (kv :: ms))
  = "{"%char :: json.write_seq indent depth
                  (map (fun kv => json.write_string (fst kv) ++ json.colon indent
                                  ++ json.write indent (S depth) (snd kv)) (kv :: ms))
    ++ json.nl indent depth ++ ["}"%char].
Proof. reflexivity. Qed.

Lemma write_seq_cons indent depth p ps :
  json.write_seq indent depth (p :: ps)
  = json.nl indent (S depth) ++ p
    ++ match ps with
       | [] => []
       | _ => ","%char :: json.write_seq indent depth ps
       end.
Proof. destruct ps; simpl; [rewrite app_nil_r|]; reflexivity. Qed.

Lemma write_head indent depth v :
  exists c w, json.write indent depth v = c :: w
    /\ json.is_ws c = false
    /\ Ascii.eqb c "]"%char = false /\ Ascii.eqb c "}"%char = false.
Proof.
  destruct v as [ | [] | n | s | [|x xs] | [|kv ms]];
    try (eexists _, _; split; [reflexivity | repeat split; reflexivity]).
  destruct (write_int_head n) as (c & w & Hw & Hc).
  exists c, w. split; [exact Hw | apply num_head_facts, Hc].
Qed.

Lemma parse_value_arr (f : nat) (r : list ascii) (c' : ascii) (r' : list ascii) :
  json.skip_ws r = c' :: r' -> Ascii.eqb c' "]"%char = false ->
  json.parse_value (S f) ("["%char :: r)
  = match json.parse_items (json.parse_value f) f r with
    | Some (vs, rest) => Some (json.Arr vs, rest)
    | None => None
    end.
Proof. intros H1 H2. simpl. rewrite H1, H2. reflexivity. Qed.

Lemma parse_value_obj (f : nat) (r : list ascii) (c' : ascii) (r' : list ascii) :
  json.skip_ws r = c' :: r' -> Ascii.eqb c' "}"%char = false ->
  json.parse_value (S f) ("{"%char :: r)
  = match json.parse_members (json.parse_value f) f r with
    | Some (kvs, rest) => Some (json.Obj (json.dict_of_pairs kvs), rest)
    | None => None
    end.
Proof. intros H1 H2. simpl. rewrite H1, H2. reflexivity. Qed.

Lemma json_size_pos (v : json.value) : (1 <= json_size v)%nat.
Proof. destruct v; simpl; lia. Qed.

Lemma write_seq_single indent depth p :
  json.write_seq indent depth [p] = json.nl indent (S depth) ++ p.
Proof. reflexivity. Qed.

Lemma write_seq_cons2 indent depth p q qs :
  json.write_seq indent depth (p :: q :: qs)
  = json.nl indent (S depth) ++ p ++ ","%char :: json.write_seq indent depth (q :: qs).
Proof. reflexivity. Qed.

Lemma parse_items_write (f : nat) indent depth : forall items n rest,
  items <> [] -> (length items <= n)%nat ->
  Forall (fun x => forall rest', ok_after rest' = true ->
            json.parse_value f (json.write indent (S depth) x ++ rest')
            = Some (x, rest')) items ->
  json.parse_items (json.parse_value f) n
    (json.write_seq indent depth (map (json.write indent (S depth)) items)
     ++ json.nl indent depth ++ "]"%char :: rest)
  = Some (items, rest).
Proof.
  induction items as [|x xs IH]; intros n rest Hne Hn HF; [congruence|].
  destruct n as [|n]; [simpl in Hn; lia|].
  inversion HF as [|? ? Hx Hxs]; subst.
  destruct xs as [|y ys].
  - cbn [map]. rewrite write_seq_single. cbn [json.parse_items].
    rewrite <- !app_assoc, parse_value_ws by apply nl_ws.
    rewrite Hx by (apply ok_after_nl; auto).
    rewrite skip_ws_nl by reflexivity. reflexivity.
  - rewrite (map_cons _ x (y :: ys)), (map_cons _ y ys), write_seq_cons2.
    rewrite <- (map_cons _ y ys). cbn [json.parse_items].
    rewrite <- !app_assoc, parse_value_ws by apply nl_ws.
    rewrite <- app_comm_cons.
    rewrite Hx by reflexivity.
    rewrite skip_ws_head by reflexivity.
    rewrite Ascii.eqb_refl.
    rewrite IH; [reflexivity | discriminate | simpl in Hn; simpl; lia | exact Hxs].
Qed.

Lemma skip_ws_write_string (k : string) (t : list ascii) :
  json.skip_ws (json.write_string k ++ t) = json.write_string k ++ t.
Proof. reflexivity. Qed.

Lemma colon_split (indent : option nat) (t : list ascii) :
  exists pre, json.colon indent ++ t = ":"%char :: pre ++ t
    /\ Forall (fun c => json.is_ws c = true) pre.
Proof.
  destruct indent; simpl.
  - exists [" "%char]. split; [reflexivity | repeat constructor].
  - exists []. split; [reflexivity | constructor].
Qed.

Lemma parse_member_head (f : nat) indent depth k x (t : list ascii) n :
  json.parse_members (json.parse_value f) (S n)
    (json.nl indent (S depth)
     ++ (json.write_string k ++ json.colon indent ++ json.write indent (S depth) x) ++ t)
  = match json.parse_value f (json.write indent (S depth) x ++ t) with
    | Some (v, r) =>
        match json.skip_ws r with
        | c :: r' =>
            if Ascii.eqb c ","%char then
              match json.parse_members (json.parse_value f) n r' with
              | Some (kvs, rest) => Some ((k, v) :: kvs, rest)
              | None => None
              end
            else if Ascii.eqb c "}"%char then Some ([(k, v)], r')
            else None
        | [] => None
        end
    | None => None
    end.
Proof.
  cbn [json.parse_members].
  rewrite skip_ws_app by apply nl_ws.
  rewrite <- !app_assoc. rewrite skip_ws_write_string, parse_string_write.
  destruct (colon_split indent (json.write indent (S depth) x ++ t)) as (pre & Hpre & Hws).
  rewrite Hpre, skip_ws_head by reflexivity.
  rewrite Ascii.eqb_refl, parse_value_ws by exact Hws. reflexivity.
Qed.

Lemma parse_members_write (f : nat) indent depth : forall ms n rest,
  ms <> [] -> (length ms <= n)%nat ->
  Forall (fun kv => forall rest', ok_after rest' = true ->
            json.parse_value f (json.write indent (S depth) (snd kv) ++ rest')
            = Some (snd kv, rest')) ms ->
  json.parse_members (json.parse_value f) n
    (json.write_seq indent depth
       (map (fun kv => json.write_string (fst kv) ++ json.colon indent
                       ++ json.write indent (S depth) (snd kv)) ms)
     ++ json.nl indent depth ++ "}"%char :: rest)
  = Some (ms, rest).
Proof.
  induction ms as [|[k x] xs IH]; intros n rest Hne Hn HF; [congruence|].
  destruct n as [|n]; [simpl in Hn; lia|].
  inversion HF as [|? ? Hx Hxs]; subst. simpl in Hx.
  destruct xs as [|y ys].
  - cbn [map]. rewrite write_seq_single. cbn [fst snd].
    rewrite <- (app_assoc (json.nl indent (S depth))), parse_member_head.
    rewrite Hx by (apply ok_after_nl; auto).
    rewrite skip_ws_nl by reflexivity. reflexivity.
  - remember (fun kv : string * json.value =>
                json.write_string kv.1 ++ json.colon indent
                ++ json.write indent (S depth) kv.2) as F eqn:EF.
    rewrite (map_cons F (k, x) (y :: ys)), (map_cons F y ys), write_seq_cons2.
    rewrite <- (map_cons F y ys).
    replace (F (k, x)) with (json.write_string k ++ json.colon indent
                             ++ json.write indent (S depth) x)
      by (subst F; reflexivity).
    rewrite <- (app_assoc (json.nl indent (S depth))).
    rewrite <- (app_assoc _ (_ :: _)), parse_member_head.
    rewrite <- app_comm_cons.
    rewrite Hx by reflexivity.
    rewrite skip_ws_head by reflexivity.
    rewrite Ascii.eqb_refl.
    rewrite IH; [reflexivity | discriminate | simpl in Hn; simpl; lia | exact Hxs].
Qed.

Lemma dict_set_fresh (k : string) (v : json.value) (d : list (string * json.value)) :
  k ∉ map fst d -> json.dict_set k v d = d ++ [(k, v)].
Proof.
  induction d as [|[k' v'] d IH]; simpl; intros H; [reflexivity|].
  destruct (String.eqb_spec k k') as [->|Hne].
  - exfalso. apply H. left.
  - rewrite IH; [reflexivity|]. intros Hin. apply H. right. exact Hin.
Qed.

Lemma dict_of_pairs_acc : forall pairs acc,
  NoDup (map fst (acc ++ pairs)) ->
  fold_left (fun d kv => json.dict_set (fst kv) (snd kv) d) pairs acc = acc ++ pairs.
Proof.
  induction pairs as [|[k v] ps IH]; intros acc H; simpl.
  - rewrite app_nil_r. reflexivity.
  - rewrite dict_set_fresh.
    + rewrite IH; rewrite <- app_assoc; [reflexivity | exact H].
    + rewrite map_app in H. apply NoDup_app in H as (_ & H & _).
      intros Hin. apply (H k Hin). left.
Qed.

Lemma dict_of_pairs_nodup (pairs : list (string * json.value)) :
  NoDup (map fst pairs) -> json.dict_of_pairs pairs = pairs.
Proof. intros H. apply (dict_of_pairs_acc pairs []). exact H. Qed.

Lemma skip_ws_write_seq indent depth x xs tl :
  exists c r',
    json.skip_ws (json.write_seq indent depth
                    (map (json.write indent (S depth)) (x :: xs)) ++ tl) = c :: r'
    /\ Ascii.eqb c "]"%char = false.
Proof.
  rewrite map_cons, write_seq_cons, <- !app_assoc, skip_ws_app by apply nl_ws.
  destruct (write_head indent (S depth) x) as (c & w & Hw & Hws & H1 & _).
  rewrite Hw, <- app_comm_cons, skip_ws_head by exact Hws.
  eexists _, _. split; [reflexivity | exact H1].
Qed.

Lemma skip_ws_write_members indent depth (kv : string * json.value) ms tl :
  exists c r',
    json.skip_ws (json.write_seq indent depth
       (map (fun kv => json.write_string (fst kv) ++ json.colon indent
                       ++ json.write indent (S depth) (snd kv)) (kv :: ms)) ++ tl)
    = c :: r'
    /\ Ascii.eqb c "}"%char = false.
Proof.
  rewrite map_cons, write_seq_cons, <- !app_assoc, skip_ws_app by apply nl_ws.
  eexists _, _. split; reflexivity.
Qed.

Lemma parse_value_str (f : nat) (s : string) (rest : list ascii) :
  json.parse_value (S f) (json.write_string s ++ rest) = Some (json.Str s, rest).
Proof.
  transitivity (match json.parse_string (json.write_string s ++ rest) with
                | Some (t, r') => Some (json.Str t, r')
                | None => None
                end); [reflexivity|].
  rewrite parse_string_write. reflexivity.
Qed.

Lemma size_sum_items (items : list json.value) :
  (length items <= fold_right (fun x n => json_size x + n) 0 items)%nat
  /\ Forall (fun x => json_size x
                      <= fold_right (fun x n => json_size x + n) 0 items)%nat items.
Proof.
  induction items as [|x xs [IH1 IH2]]; simpl; [split; [lia | constructor]|].
  pose proof (json_size_pos x). split; [lia|].
  constructor; [lia|]. eapply Forall_impl; [exact IH2|]. simpl. intros; lia.
Qed.

Lemma size_sum_members (ms : list (string * json.value)) :
  (length ms <= fold_right (fun kv n => json_size (snd kv) + n) 0 ms)%nat
  /\ Forall (fun kv => json_size (snd kv)
                       <= fold_right (fun kv n => json_size (snd kv) + n) 0 ms)%nat ms.
Proof.
  induction ms as [|x xs [IH1 IH2]]; simpl; [split; [lia | constructor]|].
  pose proof (json_size_pos (snd x)). split; [lia|].
  constructor; [lia|]. eapply Forall_impl; [exact IH2|]. simpl. intros; lia.
Qed.

Lemma wf_items (items : list json.value) :
  fold_right (fun x P => json.wf x /\ P) True items -> Forall json.wf items.
Proof. induction items; simpl; intros H; constructor; tauto. Qed.

Lemma wf_members (ms : list (string * json.value)) :
  fold_right (fun kv P => json.wf (snd kv) /\ P) True ms
  -> Forall (fun kv => json.wf (snd kv)) ms.
Proof. induction ms; simpl; intros H; constructor; tauto. Qed.

(** The parser reads back what the writer wrote, in compact and in indented
    form, whatever follows the value. *)
Lemma parse_write : forall v indent depth fuel rest,
  json.wf v -> (json_size v <= fuel)%nat -> ok_after rest = true ->
  json.parse_value fuel (json.write indent depth v ++ rest) = Some (v, rest).
Proof.
  induction v as [ | b | n | s | items IH | ms IH ] using value_ind';
    intros indent depth fuel rest Hwf Hsz Hok;
    (destruct fuel as [|f];
     [match type of Hsz with (json_size ?x <= _)%nat =>
        pose proof (json_size_pos x) end; lia|]).
  - reflexivity.
  - destruct b; reflexivity.
  - destruct (write_int_head n) as (c & w & Hw & Hc).
    change (json.write indent depth (json.Num n)) with (json.write_int n).
    rewrite Hw, <- app_comm_cons, parse_value_num by exact Hc.
    rewrite app_comm_cons, <- Hw, parse_int_write by exact Hok. reflexivity.
  - apply parse_value_str.
  - destruct items as [|x xs]; [reflexivity|].
    rewrite write_arr_cons. cbn [app]. rewrite <- !app_assoc. cbn [app].
    destruct (skip_ws_write_seq indent depth x xs
                (json.nl indent depth ++ "]"%char :: rest)) as (c & r' & Hs & Hc).
    rewrite (parse_value_arr f _ c r' Hs Hc).
    change (S (fold_right (fun x n => json_size x + n)%nat 0%nat (x :: xs)) <= S f)%nat
      in Hsz.
    apply le_S_n in Hsz.
    destruct (size_sum_items (x :: xs)) as [Hlen Hall].
    rewrite parse_items_write; [reflexivity | discriminate | lia |].
    apply wf_items in Hwf.
    apply Forall_forall. intros y Hy rest' Hok'.
    rewrite Forall_forall in IH, Hwf, Hall.
    apply IH; [exact Hy | apply Hwf, Hy | | exact Hok'].
    specialize (Hall y Hy). cbv beta in Hall. lia.
  - destruct ms as [|kv xs]; [reflexivity|].
    rewrite write_obj_cons. cbn [app]. rewrite <- !app_assoc. cbn [app].
    destruct (skip_ws_write_members indent depth kv xs
                (json.nl indent depth ++ "}"%char :: rest)) as (c & r' & Hs & Hc).
    rewrite (parse_value_obj f _ c r' Hs Hc).
    change (S (fold_right (fun kv n => json_size (snd kv) + n)%nat 0%nat (kv :: xs))
            <= S f)%nat in Hsz.
    apply le_S_n in Hsz.
    destruct (size_sum_members (kv :: xs)) as [Hlen Hall].
    destruct Hwf as [Hnd Hwf].
    rewrite parse_members_write;
      [rewrite dict_of_pairs_nodup by exact Hnd; reflexivity | discriminate | lia |].
    apply wf_members in Hwf.
    apply Forall_forall. intros y Hy rest' Hok'.
    rewrite Forall_forall in IH, Hwf, Hall.
    apply IH; [exact Hy | apply Hwf, Hy | | exact Hok'].
    specialize (Hall y Hy). cbv beta in Hall. lia.
Qed.

Lemma length_write_seq indent depth (parts : list (list ascii)) :
  (fold_right (fun p n => length p + n) 0 parts
   <= length (json.write_seq indent depth parts))%nat.
Proof.
  induction parts as [|p ps IH]; [simpl; lia|].
  rewrite write_seq_cons, !length_app. cbn [fold_right].
  destruct ps as [|q qs]; [simpl; lia|].
  cbn [length]. lia.
Qed.

Lemma size_le_length : forall v indent depth,
  (json_size v <= length (json.write indent depth v))%nat.
Proof.
  induction v as [ | b | n | s | items IH | ms IH ] using value_ind';
    intros indent depth.
  - simpl; lia.
  - destruct b; simpl; lia.
  - destruct (write_int_head n) as (c & w & Hw & _).
    change (json.write indent depth (json.Num n)) with (json.write_int n).
    rewrite Hw. simpl. lia.
  - simpl. lia.
  - destruct items as [|x xs]; [simpl; lia|].
    rewrite write_arr_cons. cbn [length json_size]. rewrite length_app.
    pose proof (length_write_seq indent depth
                  (map (json.write indent (S depth)) (x :: xs))) as Hl.
    assert (fold_right (fun x n => json_size x + n) 0 (x :: xs)
            <= fold_right (fun p n => length p + n) 0
                 (map (json.write indent (S depth)) (x :: xs)))%nat as Hs.
    { clear Hl. induction IH as [|y ys Hy _ IHys]; [simpl; lia|].
      cbn [map fold_right]. specialize (Hy indent (S depth)). lia. }
    lia.
  - destruct ms as [|kv xs]; [simpl; lia|].
    rewrite write_obj_cons. cbn [length json_size]. rewrite length_app.
    pose proof (length_write_seq indent depth
       (map (fun kv => json.write_string (fst kv) ++ json.colon indent
                       ++ json.write indent (S depth) (snd kv)) (kv :: xs))) as Hl.
    assert (fold_right (fun kv n => json_size (snd kv) + n) 0 (kv :: xs)
            <= fold_right (fun p n => length p + n) 0
                 (map (fun kv => json.write_string (fst kv) ++ json.colon indent
                       ++ json.write indent (S depth) (snd kv)) (kv :: xs)))%nat as Hs.
    { clear Hl. induction IH as [|y ys Hy _ IHys]; [simpl; lia|].
      cbn [map fold_right]. specialize (Hy indent (S depth)).
      rewrite !length_app. lia. }
    lia.
Qed.

(** [json.loads] reads back what [json.dumps] wrote. *)
Lemma loads_dumps (indent : option nat) (v : json.value) :
  json.wf v -> json.loads (json.dumps indent v) = Ok v.
Proof.
  intros Hwf. unfold json.loads, json.dumps. rewrite to_of_list.
  pose proof (parse_write v indent 0 (S (length (json.write indent 0 v))) []
                Hwf (le_S _ _ (size_le_length v indent 0)) eq_refl) as H.
  rewrite app_nil_r in H. rewrite H. reflexivity.
Qed.

(** ** pydantic *)

Lemma OCIConfig_validate_dump (c : OCIConfig) :
  pydantic.OCIConfig_validate (pydantic.OCIConfig_dump c) = Ok c.
Proof. destruct c. reflexivity. Qed.

Lemma mapM_as_dict (ls : list (list (string * json.value))) :
  mapM pydantic.as_dict (map json.Obj ls) = Some ls.
Proof.
  apply mapM_Some_2. induction ls as [|l ls IH]; constructor; [reflexivity | exact IH].
Qed.

Lemma OCIManifest_validate_dump (m : OCIManifest) :
  pydantic.OCIManifest_validate (pydantic.OCIManifest_dump m) = Ok m.
Proof.
  destruct m as [sv mt c ls]. unfold pydantic.OCIManifest_validate, pydantic.OCIManifest_dump.
  cbn -[mapM]. rewrite mapM_as_dict. reflexivity.
Qed.

Lemma OCIConfig_dump_wf (c : OCIConfig) :
  config_wf c -> json.wf (pydantic.OCIConfig_dump c).
Proof.
  intros H. unfold pydantic.OCIConfig_dump. cbn [json.wf map fst snd fold_right].
  split; [|unfold config_wf in H; cbn [json.wf] in H; tauto].
  apply (bool_decide_unpack _). vm_compute. exact I.
Qed.

(** Reading a config back from its JSON text. *)
Lemma OCIConfig_roundtrip (indent : option nat) (c : OCIConfig) :
  config_wf c ->
  (json.loads (OCIConfig_model_dump_json indent c)
     ≫= pydantic.OCIConfig_validate) = Ok c.
Proof.
  intros H. unfold OCIConfig_model_dump_json.
  rewrite loads_dumps by (apply OCIConfig_dump_wf, H).
  apply OCIConfig_validate_dump.
Qed.

(** ** Strings: split and join *)

Lemma append_cons (c : ascii) (a b : string) :
  String c a +:+ b = String c (a +:+ b).
Proof. reflexivity. Qed.

Lemma append_nil_r (s : string) : s +:+ "" = s.
Proof. induction s as [|c s IH]; [reflexivity|]. rewrite append_cons, IH. reflexivity. Qed.

Lemma append_assoc (a b c : string) : (a +:+ b) +:+ c = a +:+ (b +:+ c).
Proof.
  induction a as [|x a IH]; [reflexivity|]. rewrite !append_cons, IH. reflexivity.
Qed.

Lemma to_list_append (a b : string) : to_list (a +:+ b) = to_list a ++ to_list b.
Proof.
  induction a as [|x a IH]; [reflexivity|].
  rewrite append_cons. cbn [to_list list_ascii_of_string app].
  f_equal. exact IH.
Qed.

Lemma str_split_nosep (sep : ascii) (s : string) :
  Forall (fun c => c <> sep) (to_list s) -> str_split sep s = [s].
Proof.
  induction s as [|c s IH]; intros H; [reflexivity|].
  inversion H as [|? ? Hc Hs]; subst. cbn [str_split].
  destruct (Ascii.eqb_spec c sep) as [->|_]; [congruence|].
  rewrite (IH Hs). reflexivity.
Qed.

Lemma str_split_sep (sep : ascii) (a b : string) :
  Forall (fun c => c <> sep) (to_list a) ->
  str_split sep (a +:+ String sep b) = a :: str_split sep b.
Proof.
  induction a as [|c a IH]; intros H.
  - change ("" +:+ String sep b) with (String sep b).
    cbn [str_split]. rewrite Ascii.eqb_refl. reflexivity.
  - inversion H as [|? ? Hc Ha]; subst.
    rewrite append_cons.
    cbn [str_split]. destruct (Ascii.eqb_spec c sep) as [->|_]; [congruence|].
    rewrite (IH Ha). reflexivity.
Qed.

(** ** hashlib *)

Lemma round_length (st : list Z) (kw : Z * Z) :
  length (hashlib.round st kw) = length st.
Proof.
  unfold hashlib.round.
  do 9 (destruct st as [|? st]; [reflexivity|]). reflexivity.
Qed.

Lemma compress_length (h block : list Z) :
  length (hashlib.compress h block) = length h.
Proof.
  unfold hashlib.compress. rewrite length_map, length_combine.
  assert (forall l st, length (fold_left hashlib.round l st) = length st) as Hf.
  { induction l as [|kw l IH]; intros st; simpl; [reflexivity|].
    rewrite IH. apply round_length. }
  rewrite Hf. lia.
Qed.

Lemma blocks_length (n : nat) : forall h bs,
  length (hashlib.blocks n h bs) = length h.
Proof.
  induction n as [|n IH]; intros h bs; simpl; [reflexivity|].
  rewrite IH. apply compress_length.
Qed.

Lemma sha256_length (data : string) : length (hashlib.sha256 data) = 8%nat.
Proof. unfold hashlib.sha256. rewrite blocks_length. reflexivity. Qed.

Lemma hex_digit_is_hex (x : Z) : is_hex (hashlib.hex_digit x).
Proof.
  unfold hashlib.hex_digit, is_hex.
  destruct (nth_in_or_default (Z.to_nat (Z.land x 15)) (to_list "0123456789abcdef")
              "0"%char) as [H | ->]; [exact H | left; reflexivity].
Qed.

Lemma hexdigest_hex (data : string) :
  Forall is_hex (to_list (hashlib.hexdigest data)).
Proof.
  unfold hashlib.hexdigest. rewrite to_of_list.
  apply Forall_concat, Forall_forall. intros w Hw.
  apply list_elem_of_In, in_map_iff in Hw as (x & <- & _).
  unfold hashlib.hex_word. apply Forall_forall. intros c Hc.
  apply list_elem_of_In, in_map_iff in Hc as (i & <- & _). apply hex_digit_is_hex.
Qed.

Lemma hexdigest_length (data : string) :
  length (to_list (hashlib.hexdigest data)) = 64%nat.
Proof.
  unfold hashlib.hexdigest. rewrite to_of_list.
  pose proof (sha256_length data) as H.
  destruct (hashlib.sha256 data) as [|a [|b [|c [|d [|e [|f [|g [|h [|]]]]]]]]];
    try discriminate H.
  reflexivity.
Qed.

Lemma is_hex_neq (c x : ascii) :
  ~ is_hex x -> is_hex c -> c <> x.
Proof. intros Hx Hc ->. exact (Hx Hc). Qed.

Lemma hexdigest_no (x : ascii) (data : string) :
  ~ is_hex x -> Forall (fun c => c <> x) (to_list (hashlib.hexdigest data)).
Proof.
  intros Hx. eapply Forall_impl; [apply hexdigest_hex|].
  intros c Hc. apply (is_hex_neq c x Hx Hc).
Qed.

Lemma not_hex_colon : ~ is_hex ":"%char.
Proof. unfold is_hex. simpl. intuition discriminate. Qed.

Lemma not_hex_slash : ~ is_hex "/"%char.
Proof. unfold is_hex. simpl. intuition discriminate. Qed.

Lemma not_hex_dot : ~ is_hex "."%char.
Proof. unfold is_hex. simpl. intuition discriminate. Qed.

Lemma hexdigest_nonempty (data : string) : hashlib.hexdigest data <> "".
Proof.
  intros H. pose proof (hexdigest_length data) as Hl. rewrite H in Hl. discriminate Hl.
Qed.

Lemma hexdigest_not_dot (data : string) : hashlib.hexdigest data <> ".".
Proof.
  intros H. pose proof (hexdigest_length data) as Hl. rewrite H in Hl. discriminate Hl.
Qed.

(** [digest.split(":")[1]] of a digest made by [_sha256_bytes] is its hex
    part. *)
Lemma sha256_bytes_split (data : string) :
  str_split ":" (_sha256_bytes data) !! 1%nat = Some (hashlib.hexdigest data).
Proof.
  unfold _sha256_bytes.
  change ("sha256:" +:+ hashlib.hexdigest data)
    with ("sha256" +:+ String ":" (hashlib.hexdigest data)).
  rewrite str_split_sep.
  - rewrite str_split_nosep by (apply hexdigest_no, not_hex_colon). reflexivity.
  - repeat constructor; discriminate.
Qed.

(** [blobs_dir / hex_digest] adds one component. *)
Lemma Path_hexdigest (data : string) :
  Path (hashlib.hexdigest data) = [hashlib.hexdigest data].
Proof.
  unfold Path. rewrite str_split_nosep by (apply hexdigest_no, not_hex_slash).
  rewrite filter_cons_True; [reflexivity|].
  split; [apply hexdigest_nonempty | apply hexdigest_not_dot].
Qed.

(** The digest of the FIPS 180-4 example message. *)
Lemma hexdigest_abc :
  hashlib.hexdigest "abc"
  = "ba7816bf8f01cfea414140de5dae2223b00361a396177a9cb410ff61f20015ad".
Proof. vm_compute. reflexivity. Qed.

(** ** The order of paths *)

Lemma compare_refl (s : string) : String.compare s s = Eq.
Proof.
  pose proof (String.compare_antisym s s) as H.
  destruct (String.compare s s); simpl in H; congruence.
Qed.

Lemma compare_lt_iff (x y : string) :
  String.compare x y = Lt <-> String.le x y /\ x <> y.
Proof.
  unfold String.le, String.leb. split.
  - intros H. rewrite H. split; [exact I|].
    intros ->. rewrite compare_refl in H. discriminate.
  - intros [H Hne]. destruct (String.compare x y) eqn:E; [|reflexivity|elim H].
    apply String.compare_eq_iff in E. contradiction.
Qed.

Lemma compare_lt_trans (x y z : string) :
  String.compare x y = Lt -> String.compare y z = Lt -> String.compare x z = Lt.
Proof.
  rewrite !compare_lt_iff. intros [H1 N1] [H2 N2]. split.
  - etrans; eassumption.
  - intros ->. apply N1. apply (anti_symm String.le); assumption.
Qed.

Lemma path_le_total (p q : list string) : path_le p q \/ path_le q p.
Proof.
  unfold path_le. revert q. induction p as [|x p IH]; intros [|y q]; simpl; auto.
  rewrite (String.compare_antisym y x).
  destruct (String.compare x y) eqn:E; simpl; auto.
Qed.

Lemma path_le_trans (p q r : list string) :
  path_le p q -> path_le q r -> path_le p r.
Proof.
  unfold path_le. revert q r.
  induction p as [|x p IH]; intros [|y q] [|z r]; simpl; try congruence.
  destruct (String.compare x y) eqn:Exy; try congruence;
    destruct (String.compare y z) eqn:Eyz; try congruence; intros H1 H2.
  - apply String.compare_eq_iff in Exy, Eyz. subst. rewrite compare_refl. eauto.
  - apply String.compare_eq_iff in Exy. subst. rewrite Eyz. reflexivity.
  - apply String.compare_eq_iff in Eyz. subst. rewrite Exy. reflexivity.
  - rewrite (compare_lt_trans x y z Exy Eyz). reflexivity.
Qed.

Lemma path_le_antisym (p q : list string) :
  path_le p q -> path_le q p -> p = q.
Proof.
  unfold path_le. revert q.
  induction p as [|x p IH]; intros [|y q]; simpl; try congruence.
  rewrite (String.compare_antisym y x).
  destruct (String.compare x y) eqn:E; simpl; try congruence.
  intros H1 H2. apply String.compare_eq_iff in E. subst. f_equal. auto.
Qed.

Global Instance path_le_Total : Total path_le.
Proof. intros p q. apply path_le_total. Qed.

Global Instance path_le_Transitive : Transitive path_le.
Proof. intros p q r. apply path_le_trans. Qed.

Global Instance path_le_AntiSymm : AntiSymm (=) path_le.
Proof. intros p q. apply path_le_antisym. Qed.

Lemma sorted_perm (ps : list (list string)) : sorted ps ≡ₚ ps.
Proof. apply merge_sort_Permutation. Qed.

Lemma sorted_sorted (ps : list (list string)) : StronglySorted path_le (sorted ps).
Proof. apply StronglySorted_merge_sort; apply _. Qed.

Lemma StronglySorted_filter {A} (R : relation A) (P : A -> Prop)
    `{forall x, Decision (P x)} (l : list A) :
  StronglySorted R l -> StronglySorted R (filter P l).
Proof.
  induction 1 as [|x l Hl IH Hx]; [constructor|].
  rewrite filter_cons. destruct (decide (P x)); [|exact IH].
  constructor; [exact IH|].
  apply Forall_forall. intros y Hy. apply list_elem_of_filter in Hy as [_ Hy].
  rewrite Forall_forall in Hx. auto.
Qed.


(** ** Paths below a directory *)




Lemma elem_of_rglob (fs : gmap (list string) node) (root p : list string) :
  p ∈ rglob fs root <-> below root p /\ is_Some (fs !! p).
Proof.
  unfold rglob. rewrite list_elem_of_filter, list_elem_of_fmap. split.
  - intros [Hb ([q n] & -> & Hin)]. split; [exact Hb|].
    apply elem_of_map_to_list in Hin. eauto.
  - intros [Hb [n Hn]]. split; [exact Hb|].
    exists (p, n). split; [reflexivity | apply elem_of_map_to_list, Hn].
Qed.

Lemma NoDup_rglob (fs : gmap (list string) node) (root : list string) :
  NoDup (rglob fs root).
Proof. apply NoDup_filter, NoDup_fst_map_to_list. Qed.

Lemma elem_of_regular_files (fs : gmap (list string) node) (root p : list string) :
  p ∈ regular_files fs root <-> below root p /\ is_file fs p = true.
Proof.
  unfold regular_files. rewrite list_elem_of_filter, sorted_perm, elem_of_rglob.
  rewrite Is_true_true. split; [tauto|].
  intros [Hb Hf]. split; [exact Hf|]. split; [exact Hb|].
  unfold is_file in Hf. destruct (fs !! p); [eauto | discriminate].
Qed.

Lemma NoDup_regular_files (fs : gmap (list string) node) (root : list string) :
  NoDup (regular_files fs root).
Proof.
  unfold regular_files. apply NoDup_filter. rewrite sorted_perm. apply NoDup_rglob.
Qed.

Lemma regular_files_sorted (fs : gmap (list string) node) (root : list string) :
  StronglySorted path_le (regular_files fs root).
Proof. apply StronglySorted_filter, sorted_sorted. Qed.

(** The regular files below [root] are counted whatever the order of the
    listing. *)
Lemma regular_files_length (fs : gmap (list string) node) (root : list string) :
  length (regular_files fs root)
  = length (filter (fun p => is_file fs p) (rglob fs root)).
Proof. unfold regular_files. rewrite sorted_perm. reflexivity. Qed.

(** * The packager *)

Lemma is_file_lookup (fs : gmap (list string) node) (p : list string) :
  is_file fs p = true -> exists st data, fs !! p = Some (File st data).
Proof.
  unfold is_file. destruct (fs !! p) as [[st data|]|]; try discriminate. eauto.
Qed.

Lemma joinpath_hex (data : string) :
  ["blobs"; "sha256"] // hashlib.hexdigest data = blob_path data.
Proof. unfold joinpath. rewrite Path_hexdigest. reflexivity. Qed.

Lemma create_layer_blob_eq (now : Z) (fs : gmap (list string) node)
    (p : list string) (tmp : gmap (list string) node) (base : list string) :
  is_file fs p = true ->
  _create_layer_blob now fs p tmp ["blobs"; "sha256"] (Some base)
  = Ok (mk_layer (layer_blob now fs base p) (relpath_str p base),
        write_bytes (blob_path (layer_blob now fs base p))
          (layer_blob now fs base p) tmp).
Proof.
  intros Hf. destruct (is_file_lookup fs p Hf) as (st & data & Hp).
  unfold _create_layer_blob, layer_blob. rewrite Hp.
  rewrite sha256_bytes_split. cbn [or_raise mbind result_bind].
  rewrite joinpath_hex. reflexivity.
Qed.

Lemma package_layers_eq (clock : nat -> Z) (fs : gmap (list string) node)
    (base : list string) : forall files tick layers tmp,
  package_layers clock tick fs files ["blobs"; "sha256"] base layers tmp
  = Ok (layers
        ++ zip_with mk_layer
             (layer_blobs clock tick fs base (filter (fun p => is_file fs p) files))
             ((fun p => relpath_str p base) <$> filter (fun p => is_file fs p) files),
        store_blobs
          (layer_blobs clock tick fs base (filter (fun p => is_file fs p) files)) tmp).
Proof.
  induction files as [|p files IH]; intros tick layers tmp.
  - cbn. rewrite app_nil_r. reflexivity.
  - cbn [package_layers]. rewrite filter_cons.
    destruct (is_file fs p) eqn:Hf.
    + rewrite decide_True by exact I.
      rewrite create_layer_blob_eq by exact Hf.
      cbn [mbind result_bind fst snd]. rewrite IH.
      cbn [layer_blobs fmap list_fmap zip_with store_blobs fold_left].
      rewrite <- app_assoc. reflexivity.
    + rewrite decide_False by (intros []). apply IH.
Qed.

Lemma store_blobs_lookup_ne (blobs : list string) (tmp : gmap (list string) node)
    (p : list string) :
  (forall b, b ∈ blobs -> blob_path b <> p) ->
  store_blobs blobs tmp !! p = tmp !! p.
Proof.
  revert tmp. induction blobs as [|b blobs IH]; intros tmp H; [reflexivity|].
  cbn [store_blobs fold_left]. fold (store_blobs blobs (write_bytes (blob_path b) b tmp)).
  rewrite IH by (intros b' Hb'; apply H; right; exact Hb').
  unfold write_bytes. apply lookup_insert_ne. apply H. left.
Qed.

Lemma work_area_root clock fs dir cfg :
  work_area clock fs dir cfg !! [] = Some Dir.
Proof.
  unfold work_area, write_bytes.
  rewrite !lookup_insert_ne by discriminate.
  rewrite store_blobs_lookup_ne by discriminate. reflexivity.
Qed.

(** [package] returns for every directory, and writes the archive of the
    work area. *)
Lemma package_eq (clock : nat -> Z) (fs : gmap (list string) node)
    (dir : list string) (cfg : OCIConfig) :
  is_dir fs dir = true ->
  package clock fs dir cfg
  = Ok (parent dir // (model_name cfg +:+ "-" +:+ version cfg +:+ ".tar"),
        archive_of (work_area clock fs dir cfg)).
Proof.
  intros Hd. unfold package. rewrite Hd. cbn [negb].
  change (makedirs ([] // _LAYERS_DIR) TemporaryDirectory) with (Ok work_area0).
  cbn [mbind result_bind].
  change ([] // _LAYERS_DIR) with ["blobs"; "sha256"].
  rewrite package_layers_eq. cbn [mbind result_bind fst snd].
  rewrite sha256_bytes_split. cbn [or_raise mbind result_bind].
  rewrite joinpath_hex.
  change ([] // _MANIFEST_FILENAME) with ["manifest.json"].
  change ([] // _CONFIG_FILENAME) with ["config.json"].
  fold (regular_files fs dir). fold (package_blobs clock fs dir).
  fold (package_layer_list clock fs dir). rewrite app_nil_l.
  fold (work_area clock fs dir cfg).
  unfold tarfile.add. rewrite work_area_root. reflexivity.
Qed.

(** * Archives *)

(** ** Member names *)

Lemma clean_no_slash (c : string) :
  clean c -> Forall (fun x => x <> "/"%char) (to_list c).
Proof. intros (_ & _ & _ & H). exact H. Qed.

Lemma str_cons2 (a b : string) (p : list string) :
  str (a :: b :: p) = a +:+ String "/" (str (b :: p)).
Proof. reflexivity. Qed.

Lemma split_str (p : list string) :
  Forall clean p -> p <> [] -> str_split "/" (str p) = p.
Proof.
  induction p as [|a p IH]; intros Hc Hne; [congruence|].
  inversion Hc as [|? ? Ha Hp]; subst.
  destruct p as [|b p].
  - apply str_split_nosep, clean_no_slash, Ha.
  - rewrite str_cons2, str_split_sep by apply clean_no_slash, Ha.
    rewrite IH by (auto; discriminate). reflexivity.
Qed.

Lemma str_nil_inv (p : list string) : Forall clean p -> str p = "" -> p = [].
Proof.
  intros Hc Hs. destruct p as [|a p]; [reflexivity|]. exfalso.
  pose proof (split_str (a :: p) Hc ltac:(discriminate)) as H.
  rewrite Hs in H. cbn in H. injection H as <- <-.
  inversion Hc as [|? ? (Ha & _) _]. congruence.
Qed.

Lemma str_inj (p q : list string) :
  Forall clean p -> Forall clean q -> str p = str q -> p = q.
Proof.
  intros Hp Hq H. destruct p as [|a p].
  - symmetry. apply str_nil_inv; [exact Hq | symmetry; exact H].
  - destruct q as [|b q].
    + apply str_nil_inv; [exact Hp | exact H].
    + rewrite <- (split_str (a :: p) Hp), <- (split_str (b :: q) Hq) by discriminate.
      rewrite H. reflexivity.
Qed.

(** ** Looking a member up *)

Lemma members_get_Some (n : string) (ms : list tarfile.TarInfo) (m : tarfile.TarInfo) :
  tarfile.members_get n ms = Some m -> m ∈ ms /\ tarfile.name m = n.
Proof.
  unfold tarfile.members_get. intros H. apply find_some in H as [Hin Hn].
  split.
  - apply list_elem_of_In. apply in_rev. exact Hin.
  - apply String.eqb_eq, Hn.
Qed.

Lemma members_get_None (n : string) (ms : list tarfile.TarInfo) :
  (forall m, m ∈ ms -> tarfile.name m <> n) -> tarfile.members_get n ms = None.
Proof.
  intros H. destruct (tarfile.members_get n ms) as [m|] eqn:E; [|reflexivity].
  apply members_get_Some in E as [Hin Hn]. elim (H m Hin Hn).
Qed.

Lemma members_get_unique (n : string) (ms : list tarfile.TarInfo) (m : tarfile.TarInfo) :
  m ∈ ms -> tarfile.name m = n ->
  (forall m', m' ∈ ms -> tarfile.name m' = n -> m' = m) ->
  tarfile.members_get n ms = Some m.
Proof.
  intros Hin Hn Hu. destruct (tarfile.members_get n ms) as [m'|] eqn:E.
  - apply members_get_Some in E as [Hin' Hn']. f_equal. auto.
  - exfalso. unfold tarfile.members_get in E.
    assert (In m (rev ms)) as Hr by (apply in_rev; rewrite rev_involutive;
                                     apply list_elem_of_In, Hin).
    pose proof (find_none _ _ E m Hr) as Hf. cbv beta in Hf.
    apply String.eqb_neq in Hf. contradiction.
Qed.

(** Appending members named otherwise does not change a lookup. *)
Lemma members_get_app_ne (n : string) (ms extra : list tarfile.TarInfo) :
  (forall m, m ∈ extra -> tarfile.name m <> n) ->
  tarfile.members_get n (ms ++ extra) = tarfile.members_get n ms.
Proof.
  intros H. unfold tarfile.members_get. rewrite rev_app_distr.
  induction extra as [|x extra IH] using rev_ind; [reflexivity|].
  rewrite rev_app_distr. cbn [rev app find].
  destruct (String.eqb_spec (tarfile.name x) n) as [E|_].
  - elim (H x); [apply list_elem_of_In, in_or_app; right; left; reflexivity | exact E].
  - apply IH. intros m Hm. apply H. apply list_elem_of_In, in_or_app. left.
    apply list_elem_of_In, Hm.
Qed.

(** ** The archive of a work area *)

Lemma name_of_node (s : string) (n : node) : tarfile.name (tarfile.of_node s n) = s.
Proof. destruct n; reflexivity. Qed.

Lemma below_nil (p : list string) : below [] p <-> p <> [].
Proof.
  unfold below. split; [tauto|]. intros H. split; [apply prefix_nil | exact H].
Qed.

Lemma elem_of_archive_of (tmp : gmap (list string) node) (m : tarfile.TarInfo) :
  m ∈ archive_of tmp <->
  m = tarfile.of_node "" Dir
  \/ exists p n, p <> [] /\ tmp !! p = Some n /\ m = tarfile.of_node (str p) n.
Proof.
  unfold archive_of. rewrite elem_of_cons, list_elem_of_omap.
  split; (intros [H|H]; [left; exact H | right]).
  - destruct H as (p & Hp & Hm). rewrite sorted_perm, elem_of_rglob, below_nil in Hp.
    destruct Hp as [Hne [n Hn]]. rewrite Hn in Hm. injection Hm as <-. eauto.
  - destruct H as (p & n & Hne & Hn & ->). exists p. split.
    + rewrite sorted_perm, elem_of_rglob, below_nil. eauto.
    + rewrite Hn. reflexivity.
Qed.

Lemma archive_get (tmp : gmap (list string) node) (p : list string) (n : node) :
  clean_fs tmp -> p <> [] -> tmp !! p = Some n ->
  tarfile.members_get (str p) (archive_of tmp) = Some (tarfile.of_node (str p) n).
Proof.
  intros Hc Hne Hn. apply members_get_unique.
  - apply elem_of_archive_of. right. eauto.
  - apply name_of_node.
  - intros m' Hin Hname. apply elem_of_archive_of in Hin as [-> | (q & n' & Hq & Hn' & ->)].
    + cbn in Hname. symmetry in Hname.
      apply str_nil_inv in Hname; [contradiction | apply Hc; eauto].
    + rewrite name_of_node in Hname.
      apply str_inj in Hname; [| apply Hc; eauto | apply Hc; eauto].
      subst q. congruence.
Qed.

Lemma archive_get_None (tmp : gmap (list string) node) (s : string) :
  s <> "" -> (forall p, is_Some (tmp !! p) -> str p <> s) ->
  tarfile.members_get s (archive_of tmp) = None.
Proof.
  intros Hs H. apply members_get_None. intros m Hin.
  apply elem_of_archive_of in Hin as [-> | (q & n' & Hq & Hn' & ->)].
  - cbn. congruence.
  - rewrite name_of_node. apply H. eauto.
Qed.

(** * The work area of [package] *)

Lemma store_blobs_cons (b : string) (blobs : list string)
    (tmp : gmap (list string) node) :
  store_blobs (b :: blobs) tmp = store_blobs blobs (write_bytes (blob_path b) b tmp).
Proof. reflexivity. Qed.

Lemma store_blobs_lookup (blobs : list string) : forall tmp p n,
  store_blobs blobs tmp !! p = Some n ->
  tmp !! p = Some n \/ exists b, b ∈ blobs /\ p = blob_path b /\ n = created b.
Proof.
  induction blobs as [|b blobs IH]; intros tmp p n H; [left; exact H|].
  rewrite store_blobs_cons in H. apply IH in H as [H | (b' & Hb' & -> & ->)].
  - unfold write_bytes in H. destruct (decide (blob_path b = p)) as [<-|Hne].
    + rewrite lookup_insert_eq in H. injection H as <-.
      right. exists b. split; [left | split; reflexivity].
    + rewrite lookup_insert_ne in H by exact Hne. left. exact H.
  - right. exists b'. split; [right; exact Hb' | split; reflexivity].
Qed.

Lemma store_blobs_present (blobs : list string) : forall tmp p,
  is_Some (tmp !! p) -> is_Some (store_blobs blobs tmp !! p).
Proof.
  induction blobs as [|b blobs IH]; intros tmp p H; [exact H|].
  rewrite store_blobs_cons. apply IH. unfold write_bytes.
  destruct (decide (blob_path b = p)) as [<-|Hne].
  - rewrite lookup_insert_eq. eauto.
  - rewrite lookup_insert_ne by exact Hne. exact H.
Qed.

Lemma store_blobs_stored (blobs : list string) : forall tmp b,
  b ∈ blobs -> is_Some (store_blobs blobs tmp !! blob_path b).
Proof.
  induction blobs as [|b' blobs IH]; intros tmp b Hb; [inversion Hb|].
  rewrite store_blobs_cons. apply elem_of_cons in Hb as [->|Hb].
  - apply store_blobs_present. unfold write_bytes. rewrite lookup_insert_eq. eauto.
  - apply IH, Hb.
Qed.

Lemma work_area0_lookup (p : list string) (n : node) :
  work_area0 !! p = Some n ->
  n = Dir /\ (p = [] \/ p = ["blobs"] \/ p = ["blobs"; "sha256"]).
Proof.
  unfold work_area0, TemporaryDirectory. intros H.
  destruct (decide (["blobs"; "sha256"] = p)) as [<-|N1].
  { rewrite lookup_insert_eq in H. injection H as <-. auto. }
  rewrite lookup_insert_ne in H by exact N1.
  destruct (decide (["blobs"] = p)) as [<-|N2].
  { rewrite lookup_insert_eq in H. injection H as <-. auto. }
  rewrite lookup_insert_ne in H by exact N2.
  apply lookup_singleton_Some in H as [<- <-]. auto.
Qed.

(** What the work area holds when it is bundled: three directories, the
    two JSON files, and blobs under their digests. *)
Lemma work_area_lookup clock fs dir cfg (p : list string) (n : node) :
  work_area clock fs dir cfg !! p = Some n ->
  (n = Dir /\ (p = [] \/ p = ["blobs"] \/ p = ["blobs"; "sha256"]))
  \/ (p = ["config.json"]
      /\ n = created (OCIConfig_model_dump_json (Some 2%nat) cfg))
  \/ (p = ["manifest.json"]
      /\ n = created (OCIManifest_model_dump_json (Some 2%nat)
                        (create_manifest cfg (package_layer_list clock fs dir))))
  \/ (exists b, b ∈ package_blobs clock fs dir
                      ++ [OCIConfig_model_dump_json (Some 2%nat) cfg]
                /\ p = blob_path b /\ n = created b).
Proof.
  unfold work_area, write_bytes. intros H.
  destruct (decide (["config.json"] = p)) as [<-|N1].
  { rewrite lookup_insert_eq in H. injection H as <-. auto. }
  rewrite lookup_insert_ne in H by exact N1.
  destruct (decide (["manifest.json"] = p)) as [<-|N2].
  { rewrite lookup_insert_eq in H. injection H as <-. auto. }
  rewrite lookup_insert_ne in H by exact N2.
  destruct (decide (blob_path (OCIConfig_model_dump_json (Some 2%nat) cfg) = p))
    as [<-|N3].
  { rewrite lookup_insert_eq in H. injection H as <-.
    right. right. right. eexists. split; [|split; reflexivity].
    apply elem_of_app. right. left. }
  rewrite lookup_insert_ne in H by exact N3.
  apply store_blobs_lookup in H as [H | (b & Hb & -> & ->)].
  - left. apply work_area0_lookup, H.
  - right. right. right. exists b. split; [|split; reflexivity].
    apply elem_of_app. left. exact Hb.
Qed.

Lemma work_area_config clock fs dir cfg :
  work_area clock fs dir cfg !! ["config.json"]
  = Some (created (OCIConfig_model_dump_json (Some 2%nat) cfg)).
Proof. unfold work_area, write_bytes. apply lookup_insert_eq. Qed.

Lemma work_area_manifest clock fs dir cfg :
  work_area clock fs dir cfg !! ["manifest.json"]
  = Some (created (OCIManifest_model_dump_json (Some 2%nat)
                     (create_manifest cfg (package_layer_list clock fs dir)))).
Proof.
  unfold work_area, write_bytes.
  rewrite lookup_insert_ne by discriminate. apply lookup_insert_eq.
Qed.

Lemma work_area_dirs clock fs dir cfg (p : list string) :
  p = [] \/ p = ["blobs"] \/ p = ["blobs"; "sha256"] ->
  work_area clock fs dir cfg !! p = Some Dir.
Proof.
  intros H. unfold work_area, write_bytes.
  rewrite !lookup_insert_ne by (destruct H as [->|[->| ->]]; discriminate).
  rewrite store_blobs_lookup_ne by (destruct H as [->|[->| ->]]; discriminate).
  destruct H as [->|[->| ->]]; reflexivity.
Qed.

Lemma work_area_blob_present clock fs dir cfg (b : string) :
  b ∈ package_blobs clock fs dir ++ [OCIConfig_model_dump_json (Some 2%nat) cfg] ->
  is_Some (work_area clock fs dir cfg !! blob_path b).
Proof.
  intros Hb. unfold work_area, write_bytes.
  rewrite !lookup_insert_ne by discriminate.
  apply elem_of_app in Hb as [Hb|Hb].
  - destruct (decide (blob_path (OCIConfig_model_dump_json (Some 2%nat) cfg)
                      = blob_path b)) as [E|N].
    + rewrite E, lookup_insert_eq. eauto.
    + rewrite lookup_insert_ne by exact N. apply store_blobs_stored, Hb.
  - apply list_elem_of_singleton in Hb as ->. rewrite lookup_insert_eq. eauto.
Qed.

(** A blob of the work area hashes to the name it is kept under. *)
Lemma work_area_blob_content clock fs dir cfg (b : string) (n : node) :
  work_area clock fs dir cfg !! blob_path b = Some n ->
  exists data, n = created data /\ hashlib.hexdigest data = hashlib.hexdigest b.
Proof.
  intros H. apply work_area_lookup in H
    as [[_ [H|[H|H]]] | [[H _] | [[H _] | (b' & _ & H & ->)]]];
    try discriminate H.
  injection H as H. eauto.
Qed.

Lemma clean_hexdigest (data : string) : clean (hashlib.hexdigest data).
Proof.
  split; [apply hexdigest_nonempty|]. split; [apply hexdigest_not_dot|].
  split; [|apply hexdigest_no, not_hex_slash].
  intros H. pose proof (hexdigest_length data) as Hl. rewrite H in Hl. discriminate Hl.
Qed.

Lemma clean_literal (c : string) :
  c = "blobs" \/ c = "sha256" \/ c = "config.json" \/ c = "manifest.json" -> clean c.
Proof.
  intros [->|[->|[->| ->]]];
    (split; [discriminate|]; split; [discriminate|]; split; [discriminate|];
     cbn; repeat (constructor; [discriminate|]); constructor).
Qed.

Ltac clean_path :=
  repeat (apply List.Forall_cons;
          [first [apply clean_hexdigest | apply clean_literal; tauto]|]);
  apply List.Forall_nil.

Lemma clean_blob_path (b : string) : Forall clean (blob_path b).
Proof. unfold blob_path. clean_path. Qed.

Lemma work_area_clean clock fs dir cfg : clean_fs (work_area clock fs dir cfg).
Proof.
  intros p [n H]. apply work_area_lookup in H
    as [[_ [->|[->| ->]]] | [[-> _] | [[-> _] | (b' & _ & -> & _)]]].
  all: first [apply clean_blob_path | clean_path].
Qed.

(** ** The members of a packaged archive *)

Lemma cons_neq_nil {A} (x : A) (l : list A) : x :: l <> [].
Proof. discriminate. Qed.

Lemma blob_name_str (hex : string) :
  _LAYERS_DIR +:+ "/" +:+ hex = str ["blobs"; "sha256"; hex].
Proof. reflexivity. Qed.

Lemma packaged_config_json clock fs dir cfg :
  member_bytes _CONFIG_FILENAME (archive_of (work_area clock fs dir cfg))
  = Some (OCIConfig_model_dump_json (Some 2%nat) cfg).
Proof.
  unfold member_bytes.
  change _CONFIG_FILENAME with (str ["config.json"]).
  rewrite (archive_get _ ["config.json"] _ (work_area_clean clock fs dir cfg)
             (@cons_neq_nil _ _ _) (work_area_config clock fs dir cfg)).
  reflexivity.
Qed.

Lemma packaged_manifest_json clock fs dir cfg :
  member_bytes _MANIFEST_FILENAME (archive_of (work_area clock fs dir cfg))
  = Some (OCIManifest_model_dump_json (Some 2%nat)
            (create_manifest cfg (package_layer_list clock fs dir))).
Proof.
  unfold member_bytes.
  change _MANIFEST_FILENAME with (str ["manifest.json"]).
  rewrite (archive_get _ ["manifest.json"] _ (work_area_clean clock fs dir cfg)
             (@cons_neq_nil _ _ _) (work_area_manifest clock fs dir cfg)).
  reflexivity.
Qed.


(** ** The manifest of a packaged archive *)

Lemma bind_Ok {A B} (a : A) (f : A -> result B) : (Ok a ≫= f) = f a.
Proof. reflexivity. Qed.

Lemma bind_Raise {A B} (e : exn) (f : A -> result B) : (Raise e ≫= f) = Raise e.
Proof. reflexivity. Qed.

Lemma or_raise_Some {A} (e : exn) (a : A) : or_raise e (Some a) = Ok a.
Proof. reflexivity. Qed.

Lemma create_manifest_wf (cfg : OCIConfig) (ls : list ModelLayer) :
  Forall (fun l => NoDup (map fst (annotations l))) ls ->
  json.wf (pydantic.OCIManifest_dump (create_manifest cfg ls)).
Proof.
  intros H. unfold pydantic.OCIManifest_dump, create_manifest, OCIManifest_new.
  cbn [schema_version manifest_media_type config layers].
  cbn [json.wf map fst snd fold_right].
  split; [apply (bool_decide_unpack _); vm_compute; exact I|].
  split; [exact I|]. split; [exact I|]. split.
  { split; [apply (bool_decide_unpack _); vm_compute; exact I | tauto]. }
  split; [|exact I].
  induction H as [|l ls Hl _ IH]; [exact I|].
  cbn [map fold_right json.wf fst snd]. split; [|exact IH].
  split; [apply (bool_decide_unpack _); vm_compute; exact I|].
  split; [exact I|]. split; [exact I|]. split; [exact I|]. split; [|exact I].
  split.
  - rewrite map_map. cbn [fst]. exact Hl.
  - clear. induction (annotations l) as [|kv a IHa]; cbn; auto.
Qed.

Lemma package_layer_list_annotations clock fs dir :
  Forall (fun l => NoDup (map fst (annotations l))) (package_layer_list clock fs dir).
Proof.
  unfold package_layer_list. apply Forall_forall. intros l Hl.
  apply elem_of_lookup_zip_with in Hl as (i & b & t & -> & _ & _).
  cbn [mk_layer annotations map fst]. apply NoDup_singleton.
Qed.

(** The [manifest.json] of a packaged archive reads back as the manifest
    [create_manifest] made. *)
Lemma packaged_manifest clock fs dir cfg :
  archive_manifest (archive_of (work_area clock fs dir cfg))
  = Ok (create_manifest cfg (package_layer_list clock fs dir)).
Proof.
  unfold archive_manifest. rewrite packaged_manifest_json.
  rewrite or_raise_Some, bind_Ok. unfold OCIManifest_model_dump_json.
  rewrite loads_dumps
    by (apply create_manifest_wf, package_layer_list_annotations).
  rewrite bind_Ok. apply OCIManifest_validate_dump.
Qed.

(** * Verification of layers *)

Lemma obind_Some {A B} (a : A) (f : A -> option B) : (Some a ≫= f) = f a.
Proof. reflexivity. Qed.

Lemma obind_None {A B} (f : A -> option B) : (None ≫= f) = None.
Proof. reflexivity. Qed.

Lemma verify_loop_step (ms : list tarfile.TarInfo) (desc : list (string * json.value))
    (rest : list (list (string * json.value))) (results : list (string * bool))
    (d n : string) :
  desc_digest desc = Some d -> blob_entry d = Some n ->
  verify_loop ms (desc :: rest) results
  = verify_loop ms rest (results ++ [(d, layer_verdict ms d)]).
Proof.
  intros Hd Hn. unfold desc_digest, pydantic.get_str in Hd.
  unfold layer_verdict. rewrite Hn. unfold blob_entry in Hn.
  cbn [verify_loop].
  destruct (json.dict_get "digest" desc) as [[ | | | s | | ]|]; try discriminate Hd.
  injection Hd as ->. rewrite or_raise_Some, !bind_Ok.
  destruct (str_split ":" d !! 1%nat) as [hex|]; [|discriminate Hn].
  injection Hn as <-. rewrite or_raise_Some, bind_Ok.
  unfold member_bytes. rewrite obind_Some.
  destruct (tarfile.members_get (_LAYERS_DIR +:+ "/" +:+ hex) ms) as [m|];
    [|reflexivity].
  rewrite obind_Some. destruct (tarfile.extractfile m); reflexivity.
Qed.

Lemma verify_loop_spec (ms : list tarfile.TarInfo) :
  forall descs results,
  Forall readable descs ->
  verify_loop ms descs results = Ok (results ++ verdicts ms descs).
Proof.
  induction descs as [|desc descs IH]; intros results H.
  - cbn. rewrite app_nil_r. reflexivity.
  - inversion H as [|? ? (d & n & Hd & Hn) Hr]; subst.
    rewrite (verify_loop_step ms desc descs results d n Hd Hn), IH by exact Hr.
    unfold verdicts. rewrite fmap_cons, Hd. cbn [default from_option id].
    rewrite <- app_assoc. reflexivity.
Qed.

Lemma verify_layers_eq (ar : list tarfile.TarInfo) (m : OCIManifest) :
  archive_manifest ar = Ok m ->
  verify_layers ar = verify_loop ar (layers m) [].
Proof.
  unfold archive_manifest, verify_layers, member_bytes. intros H.
  destruct (tarfile.members_get _MANIFEST_FILENAME ar) as [mm|];
    [|discriminate H].
  rewrite obind_Some in H.
  destruct (tarfile.extractfile mm) as [text|]; [|discriminate H].
  rewrite or_raise_Some, bind_Ok in H.
  destruct (json.loads text) as [obj|e]; [|discriminate H].
  rewrite bind_Ok in H. rewrite bind_Ok.
  destruct (pydantic.OCIManifest_validate obj) as [m'|e]; [|discriminate H].
  injection H as ->. rewrite bind_Ok. reflexivity.
Qed.



(** * Properties of a packaged archive *)

Lemma layer_blobs_length clock fs base : forall files tick,
  length (layer_blobs clock tick fs base files) = length files.
Proof. induction files as [|p files IH]; intros tick; cbn; [reflexivity|]. rewrite IH. reflexivity. Qed.

Lemma package_blobs_length clock fs dir :
  length (package_blobs clock fs dir) = length (regular_files fs dir).
Proof. apply layer_blobs_length. Qed.

Lemma package_layer_list_length clock fs dir :
  length (package_layer_list clock fs dir) = length (regular_files fs dir).
Proof.
  unfold package_layer_list.
  rewrite length_zip_with, package_blobs_length, length_fmap. lia.
Qed.

Lemma create_manifest_layers_length cfg ls :
  length (layers (create_manifest cfg ls)) = length ls.
Proof. cbn. apply length_map. Qed.

(** The descriptor [create_manifest] makes of a layer of [package]. *)
Lemma create_manifest_layer_lookup cfg clock fs dir (i : nat)
    (desc : list (string * json.value)) :
  layers (create_manifest cfg (package_layer_list clock fs dir)) !! i = Some desc ->
  exists b p,
    package_blobs clock fs dir !! i = Some b
    /\ regular_files fs dir !! i = Some p
    /\ desc_digest desc = Some (_sha256_bytes b)
    /\ desc_size desc = Some (len b)
    /\ desc_title desc = Some (relpath_str p dir).
Proof.
  cbn [create_manifest OCIManifest_new layers]. intros H.
  apply list_lookup_fmap_Some in H as (l & -> & Hl).
  unfold package_layer_list in Hl.
  apply lookup_zip_with_Some in Hl as (b & t & -> & Hb & Ht).
  apply list_lookup_fmap_Some in Ht as (p & -> & Hp).
  exists b, p. repeat split; assumption.
Qed.

Lemma package_layer_titles cfg clock fs dir :
  desc_title <$> layers (create_manifest cfg (package_layer_list clock fs dir))
  = (fun p => Some (relpath_str p dir)) <$> regular_files fs dir.
Proof.
  apply list_eq. intros i. rewrite !list_lookup_fmap.
  destruct (layers (create_manifest cfg (package_layer_list clock fs dir)) !! i)
    as [desc|] eqn:E.
  - destruct (create_manifest_layer_lookup _ _ _ _ _ _ E) as (b & p & _ & Hp & _ & _ & Ht).
    rewrite Hp. cbn. rewrite Ht. reflexivity.
  - apply lookup_ge_None in E.
    rewrite create_manifest_layers_length, package_layer_list_length in E.
    apply lookup_ge_None in E. rewrite E. reflexivity.
Qed.

Lemma blob_entry_sha256 (b : string) :
  blob_entry (_sha256_bytes b) = Some (_LAYERS_DIR +:+ "/" +:+ hashlib.hexdigest b).
Proof. unfold blob_entry. rewrite sha256_bytes_split. reflexivity. Qed.




(** ** Entries of the blob storage *)

Lemma NoDup_fmap_inj_on {A B} (f : A -> B) (l : list A) (x y : A) :
  NoDup (f <$> l) -> x ∈ l -> y ∈ l -> f x = f y -> x = y.
Proof.
  induction l as [|a l IH]; intros Hnd Hx Hy E; [inversion Hx|].
  rewrite fmap_cons in Hnd. apply NoDup_cons in Hnd as [Hna Hnd].
  apply elem_of_cons in Hx as [->|Hx]; apply elem_of_cons in Hy as [->|Hy];
    try reflexivity; try (apply IH; assumption).
  - exfalso. apply Hna. rewrite E. apply list_elem_of_fmap. eauto.
  - exfalso. apply Hna. rewrite <- E. apply list_elem_of_fmap. eauto.
Qed.

Lemma count_archive_of (tmp : gmap (list string) node) (Q : string -> bool) :
  Q "" = false ->
  length (filter (fun m => Q (tarfile.name m)) (archive_of tmp))
  = length (filter (fun p => Q (str p)) (rglob tmp [])).
Proof.
  intros HQ. unfold archive_of.
  rewrite filter_cons_False by (cbn; rewrite HQ; intros []).
  transitivity (length (filter (fun p => Q (str p)) (sorted (rglob tmp [])))).
  2: { rewrite sorted_perm. reflexivity. }
  assert (forall p, p ∈ sorted (rglob tmp []) -> is_Some (tmp !! p)) as Hin.
  { intros p Hp. rewrite sorted_perm in Hp. apply elem_of_rglob in Hp as [_ Hp]. exact Hp. }
  induction (sorted (rglob tmp [])) as [|p l IH]; [reflexivity|].
  destruct (Hin p ltac:(left)) as [n Hn].
  cbn [omap list_omap]. rewrite Hn. cbn [fmap option_fmap option_map].
  rewrite !filter_cons, name_of_node.
  destruct (decide (Q (str p))); cbn [length]; rewrite IH;
    try reflexivity; intros q Hq; apply Hin; right; exact Hq.
Qed.

Lemma prefix_append (p s : string) : String.prefix p (p +:+ s) = true.
Proof.
  induction p as [|a p IH]; [destruct s; reflexivity|].
  rewrite append_cons. cbn [String.prefix].
  destruct (ascii_dec a a); [exact IH | congruence].
Qed.

Lemma blob_path_prefix (b : string) :
  startswith "blobs/sha256/" (str (blob_path b)) = true.
Proof.
  change (str (blob_path b)) with ("blobs/sha256/" +:+ hashlib.hexdigest b).
  apply prefix_append.
Qed.

Lemma work_area_blob_keys clock fs dir cfg :
  NoDup (hashlib.hexdigest <$> package_blobs clock fs dir
           ++ [OCIConfig_model_dump_json (Some 2%nat) cfg]) ->
  filter (fun p => startswith "blobs/sha256/" (str p))
    (rglob (work_area clock fs dir cfg) [])
  ≡ₚ blob_path <$> package_blobs clock fs dir
       ++ [OCIConfig_model_dump_json (Some 2%nat) cfg].
Proof.
  intros Hnd. apply NoDup_Permutation.
  - apply NoDup_filter, NoDup_rglob.
  - apply NoDup_fmap_2_strong; [|eapply NoDup_fmap_1, Hnd].
    intros x y Hx Hy E. apply (NoDup_fmap_inj_on _ _ x y Hnd Hx Hy).
    unfold blob_path in E. congruence.
  - intros p. rewrite list_elem_of_filter, elem_of_rglob, below_nil, list_elem_of_fmap.
    split.
    + intros (HQ & _ & [n Hn]). apply work_area_lookup in Hn
        as [[_ [->|[->| ->]]] | [[-> _] | [[-> _] | (b & Hb & -> & _)]]];
        try (exfalso; exact HQ).
      eauto.
    + intros (b & -> & Hb). split; [rewrite blob_path_prefix; exact I|].
      split; [discriminate|]. apply work_area_blob_present, Hb.
Qed.

Lemma work_area_blob_exact clock fs dir cfg (b : string) :
  NoDup (hashlib.hexdigest <$> package_blobs clock fs dir
           ++ [OCIConfig_model_dump_json (Some 2%nat) cfg]) ->
  b ∈ package_blobs clock fs dir ++ [OCIConfig_model_dump_json (Some 2%nat) cfg] ->
  work_area clock fs dir cfg !! blob_path b = Some (created b).
Proof.
  intros Hnd Hb. destruct (work_area_blob_present clock fs dir cfg b Hb) as [n Hn].
  rewrite Hn. apply work_area_lookup in Hn
    as [[_ [H|[H|H]]] | [[H _] | [[H _] | (b' & Hb' & H & ->)]]];
    try discriminate H.
  injection H as H.
  rewrite (NoDup_fmap_inj_on _ _ b b' Hnd Hb Hb' H). reflexivity.
Qed.

Lemma member_bytes_blob_exact clock fs dir cfg (b : string) :
  work_area clock fs dir cfg !! blob_path b = Some (created b) ->
  member_bytes (_LAYERS_DIR +:+ "/" +:+ hashlib.hexdigest b)
    (archive_of (work_area clock fs dir cfg)) = Some b.
Proof.
  intros H. unfold member_bytes. rewrite blob_name_str.
  change ["blobs"; "sha256"; hashlib.hexdigest b] with (blob_path b).
  rewrite (archive_get _ (blob_path b) _ (work_area_clean clock fs dir cfg)
             (@cons_neq_nil _ _ _) H).
  reflexivity.
Qed.

Lemma work_area_config_blob clock fs dir cfg :
  work_area clock fs dir cfg
    !! blob_path (OCIConfig_model_dump_json (Some 2%nat) cfg)
  = Some (created (OCIConfig_model_dump_json (Some 2%nat) cfg)).
Proof.
  unfold work_area, write_bytes.
  rewrite !lookup_insert_ne by discriminate. apply lookup_insert_eq.
Qed.

(** C10. For every directory of N regular files and every config, when the
    digests of the N layer blobs and of the config are pairwise distinct,
    the archive [package] writes holds [config.json] and [manifest.json] at
    its root and N+1 entries under [blobs/sha256/]: each layer blob under
    the hex digest of its bytes, and one more blob holding the serialized
    config bytes under the hex digest of those bytes. *)
Theorem C10_blob_entries (clock : nat -> Z)
    (fs : gmap (list string) node) (dir : list string) (cfg : OCIConfig) :
  is_dir fs dir = true ->
  NoDup (hashlib.hexdigest <$> package_blobs clock fs dir
           ++ [OCIConfig_model_dump_json (Some 2%nat) cfg]) ->
  exists out ar config_bytes,
    package clock fs dir cfg = Ok (out, ar)
    /\ member_bytes "config.json" ar = Some config_bytes
    /\ is_Some (member_bytes "manifest.json" ar)
    /\ length (filter (fun m => startswith "blobs/sha256/" (tarfile.name m)) ar)
       = S (length (filter (fun p => is_file fs p) (rglob fs dir)))
    /\ member_bytes ("blobs/sha256/" +:+ hashlib.hexdigest config_bytes) ar
       = Some config_bytes
    /\ length (package_blobs clock fs dir)
       = length (filter (fun p => is_file fs p) (rglob fs dir))
    /\ Forall (fun b => member_bytes ("blobs/sha256/" +:+ hashlib.hexdigest b) ar
                        = Some b) (package_blobs clock fs dir).
Proof.
  intros Hd Hnd. eexists _, _, _.
  split; [apply (package_eq clock fs dir cfg Hd)|].
  split; [apply packaged_config_json|].
  split; [rewrite packaged_manifest_json; eauto|].
  split.
  { rewrite (count_archive_of _ (startswith "blobs/sha256/")) by reflexivity.
    rewrite (work_area_blob_keys clock fs dir cfg Hnd).
    rewrite length_fmap, length_app, package_blobs_length, regular_files_length.
    cbn [length]. lia. }
  split; [apply member_bytes_blob_exact, work_area_config_blob|].
  split; [rewrite package_blobs_length; apply regular_files_length|].
  apply Forall_forall. intros b Hb.
  apply member_bytes_blob_exact, (work_area_blob_exact clock fs dir cfg b Hnd).
  apply elem_of_app. left. exact Hb.
Qed.

(** ** The keys of [manifest.json] *)

(** C5 (what the code does). The [manifest.json] of every packaged archive
    parses as a JSON object with the keys [schema_version], [media_type],
    [config] and [layers], in that order: the schema version 2 and the
    media type are there under the names of the model's fields, and the
    object has no key [schemaVersion] and no key [mediaType]. *)
Theorem C5_manifest_json_keys (clock : nat -> Z)
    (fs : gmap (list string) node) (dir : list string) (cfg : OCIConfig) :
  is_dir fs dir = true ->
  exists out ar text members,
    package clock fs dir cfg = Ok (out, ar)
    /\ member_bytes "manifest.json" ar = Some text
    /\ json.loads text = Ok (json.Obj members)
    /\ map fst members = ["schema_version"; "media_type"; "config"; "layers"]
    /\ json.dict_get "schema_version" members = Some (json.Num 2)
    /\ json.dict_get "media_type" members
       = Some (json.Str "application/vnd.oci.image.manifest.v1+json")
    /\ json.dict_get "schemaVersion" members = None
    /\ json.dict_get "mediaType" members = None.
Proof.
  intros Hd. eexists _, _, _, _.
  split; [apply (package_eq clock fs dir cfg Hd)|].
  split; [apply packaged_manifest_json|].
  split.
  { unfold OCIManifest_model_dump_json. rewrite loads_dumps
      by (apply create_manifest_wf, package_layer_list_annotations).
    reflexivity. }
  repeat split; reflexivity.
Qed.

(** ** The config descriptor *)

(** What [package] records of the config: the descriptor of the manifest is
    computed by [create_manifest] over the compact serialization, while
    [config.json] and the config blob hold the indented one. *)
Lemma packaged_config_descriptor (clock : nat -> Z)
    (fs : gmap (list string) node) (dir : list string) (cfg : OCIConfig) :
  is_dir fs dir = true ->
  exists out ar m,
    package clock fs dir cfg = Ok (out, ar)
    /\ archive_manifest ar = Ok m
    /\ member_bytes "config.json" ar = Some (OCIConfig_model_dump_json (Some 2%nat) cfg)
    /\ desc_digest (config m) = Some (_sha256_bytes (OCIConfig_model_dump_json None cfg))
    /\ desc_size (config m) = Some (len (OCIConfig_model_dump_json None cfg)).
Proof.
  intros Hd. eexists _, _, _.
  split; [apply (package_eq clock fs dir cfg Hd)|].
  split; [apply packaged_manifest|].
  split; [apply packaged_config_json|].
  split; reflexivity.
Qed.

Lemma is_dir_fs_empty : is_dir fs_empty ["m"] = true.
Proof. vm_compute. reflexivity. Qed.

Lemma is_dir_fs1 : is_dir fs1 ["m"] = true.
Proof. vm_compute. reflexivity. Qed.

(** C1 (what the code does, at an empty directory and the config
    m / 1.0 / x / y). The archive holds a [config.json] of 104 bytes, the
    indented serialization; the config descriptor of its manifest gives the
    size 83 and a digest that is not the hash of those 104 bytes: both are
    those of the compact serialization, which the archive does not hold. *)
Theorem C1_config_descriptor_mismatch :
  exists out ar m config_json,
    package (fun _ => 0) fs_empty ["m"] cfg0 = Ok (out, ar)
    /\ archive_manifest ar = Ok m
    /\ member_bytes "config.json" ar = Some config_json
    /\ len config_json = 104
    /\ desc_size (config m) = Some 83
    /\ desc_digest (config m) <> Some (_sha256_bytes config_json).
Proof.
  destruct (packaged_config_descriptor (fun _ => 0) fs_empty ["m"] cfg0 is_dir_fs_empty)
    as (out & ar & m & Hp & Hm & Hc & Hdg & Hsz).
  exists out, ar, m, (OCIConfig_model_dump_json (Some 2%nat) cfg0).
  split; [exact Hp|]. split; [exact Hm|]. split; [exact Hc|].
  split; [vm_compute; reflexivity|].
  split; [rewrite Hsz; vm_compute; reflexivity|].
  assert (hashlib.hexdigest (OCIConfig_model_dump_json None cfg0)
          <> hashlib.hexdigest (OCIConfig_model_dump_json (Some 2%nat) cfg0)) as Hne
    by (vm_compute; discriminate).
  rewrite Hdg. unfold _sha256_bytes. intros H. apply Hne.
  apply (inj (String.app "sha256:")). congruence.
Qed.

(** ** Determinism *)

Lemma layer_blobs_ext (c1 c2 : nat -> Z) fs base : forall files tick,
  (forall i, (tick <= i < tick + length files)%nat -> c1 i = c2 i) ->
  layer_blobs c1 tick fs base files = layer_blobs c2 tick fs base files.
Proof.
  induction files as [|p files IH]; intros tick H; [reflexivity|].
  cbn [layer_blobs]. rewrite (H tick) by (cbn; lia). f_equal.
  apply IH. intros i Hi. apply H. cbn. lia.
Qed.

(** C2 (amended). Packaging the same directory and config twice returns the
    same archive path and manifests with the same number of layers, the
    same titles in the same order and the same config descriptor. When the
    clock read as each blob is made is the same in both runs, the digests,
    the manifests and the archives are the same. *)
Theorem C2_determinism_up_to_clock (clock1 clock2 : nat -> Z)
    (fs : gmap (list string) node) (dir : list string) (cfg : OCIConfig) :
  is_dir fs dir = true ->
  exists out ar1 ar2 m1 m2,
    package clock1 fs dir cfg = Ok (out, ar1)
    /\ package clock2 fs dir cfg = Ok (out, ar2)
    /\ archive_manifest ar1 = Ok m1
    /\ archive_manifest ar2 = Ok m2
    /\ length (layers m1) = length (layers m2)
    /\ desc_title <$> layers m1 = desc_title <$> layers m2
    /\ config m1 = config m2
    /\ ((forall i, (i < length (layers m1))%nat -> clock1 i = clock2 i) ->
        ar1 = ar2 /\ m1 = m2).
Proof.
  intros Hd. eexists _, _, _, _, _.
  split; [apply (package_eq clock1 fs dir cfg Hd)|].
  split; [apply (package_eq clock2 fs dir cfg Hd)|].
  split; [apply packaged_manifest|].
  split; [apply packaged_manifest|].
  split; [rewrite !create_manifest_layers_length, !package_layer_list_length;
          reflexivity|].
  split; [rewrite !package_layer_titles; reflexivity|].
  split; [reflexivity|].
  rewrite create_manifest_layers_length, package_layer_list_length.
  intros Hc.
  assert (package_blobs clock1 fs dir = package_blobs clock2 fs dir) as Hb.
  { apply layer_blobs_ext. intros i Hi. apply Hc. lia. }
  assert (package_layer_list clock1 fs dir = package_layer_list clock2 fs dir) as Hl.
  { unfold package_layer_list. rewrite Hb. reflexivity. }
  unfold work_area. rewrite Hb, Hl. split; reflexivity.
Qed.

Lemma regular_files_fs1 : regular_files fs1 ["m"] = [["m"; "a.bin"]].
Proof. vm_compute. reflexivity. Qed.

(** C2 (counterexample). The directory [/m] with the one file [a.bin],
    packaged with the same config at the clock readings 0 and 1: the two
    manifests give different digests for the layer of [a.bin]. *)
Lemma C2_digests_depend_on_clock :
  exists m1 m2,
    (package (fun _ => 0) fs1 ["m"] cfg0 ≫= fun r => archive_manifest r.2) = Ok m1
    /\ (package (fun _ => 1) fs1 ["m"] cfg0 ≫= fun r => archive_manifest r.2) = Ok m2
    /\ desc_digest <$> layers m1 <> desc_digest <$> layers m2.
Proof.
  exists (create_manifest cfg0 (package_layer_list (fun _ => 0) fs1 ["m"])),
         (create_manifest cfg0 (package_layer_list (fun _ => 1) fs1 ["m"])).
  split; [rewrite (package_eq (fun _ => 0) fs1 ["m"] cfg0 is_dir_fs1), bind_Ok;
          cbn [snd]; exact (packaged_manifest (fun _ => 0) fs1 ["m"] cfg0)|].
  split; [rewrite (package_eq (fun _ => 1) fs1 ["m"] cfg0 is_dir_fs1), bind_Ok;
          cbn [snd]; exact (packaged_manifest (fun _ => 1) fs1 ["m"] cfg0)|].
  assert (hashlib.hexdigest (layer_blob 0 fs1 ["m"] ["m"; "a.bin"])
          <> hashlib.hexdigest (layer_blob 1 fs1 ["m"] ["m"; "a.bin"])) as Hne
    by (vm_compute; discriminate).
  cbn [create_manifest OCIManifest_new layers].
  unfold package_layer_list, package_blobs. rewrite regular_files_fs1.
  cbn [layer_blobs fmap list_fmap zip_with map mk_layer digest].
  unfold desc_digest, pydantic.get_str. cbn [json.dict_get String.eqb Ascii.eqb Bool.eqb].
  unfold _sha256_bytes. intros H. apply Hne.
  apply (inj (String.app "sha256:")). congruence.
Qed.

(** ** add_layer *)

Lemma create_layer_blob_None (now : Z) (fs : gmap (list string) node)
    (p : list string) (tmp : gmap (list string) node) (st : stat_result)
    (data : string) :
  fs !! p = Some (File st data) ->
  _create_layer_blob now fs p tmp ["blobs"; "sha256"] None
  = Ok (mk_layer (tarfile.open_w_gz_add now (Path_name p) st data) (Path_name p),
        write_bytes (blob_path (tarfile.open_w_gz_add now (Path_name p) st data))
          (tarfile.open_w_gz_add now (Path_name p) st data) tmp).
Proof.
  intros Hp. unfold _create_layer_blob. rewrite Hp.
  rewrite sha256_bytes_split. cbn [or_raise mbind result_bind].
  rewrite joinpath_hex. reflexivity.
Qed.

(** C9. For every archive and every regular file, [add_layer] appends one
    member to the archive, a blob stored under the hex digest of its own
    bytes, and returns the descriptor of that blob; the members already in
    the archive stay as they are, [manifest.json] among them, so the
    manifest read from the archive is the same as before. *)
Theorem C9_add_layer_leaves_manifest (now : Z) (fs : gmap (list string) node)
    (ar : list tarfile.TarInfo) (file_path : list string) :
  is_file fs file_path = true ->
  exists layer blob ar',
    add_layer now fs ar file_path = Ok (layer, ar')
    /\ ar' = ar ++ [ {| tarfile.name := "blobs/sha256/" +:+ hashlib.hexdigest blob;
                        tarfile.type := tarfile.REGTYPE blob |} ]
    /\ digest layer = _sha256_bytes blob
    /\ size layer = len blob
    /\ member_bytes "manifest.json" ar' = member_bytes "manifest.json" ar
    /\ archive_manifest ar' = archive_manifest ar.
Proof.
  intros Hf. destruct (is_file_lookup fs file_path Hf) as (st & data & Hp).
  set (blob := tarfile.open_w_gz_add now (Path_name file_path) st data).
  assert (add_layer now fs ar file_path
          = Ok (mk_layer blob (Path_name file_path),
                ar ++ [ {| tarfile.name := "blobs/sha256/" +:+ hashlib.hexdigest blob;
                           tarfile.type := tarfile.REGTYPE blob |} ])) as Hadd.
  { unfold add_layer. rewrite Hf. cbn [negb].
    change (makedirs ([] // _LAYERS_DIR) TemporaryDirectory) with (Ok work_area0).
    rewrite bind_Ok. change ([] // _LAYERS_DIR) with ["blobs"; "sha256"].
    rewrite (create_layer_blob_None now fs file_path _ st data Hp). fold blob.
    rewrite bind_Ok. cbn [fst snd mk_layer digest].
    rewrite sha256_bytes_split, or_raise_Some, bind_Ok, joinpath_hex.
    unfold tarfile.add, write_bytes. rewrite lookup_insert_eq. reflexivity. }
  assert (forall m, m ∈ [ {| tarfile.name := "blobs/sha256/" +:+ hashlib.hexdigest blob;
                             tarfile.type := tarfile.REGTYPE blob |} ]
                    -> tarfile.name m <> "manifest.json") as Hne.
  { intros m Hm. apply list_elem_of_singleton in Hm as ->. discriminate. }
  assert (member_bytes "manifest.json"
            (ar ++ [ {| tarfile.name := "blobs/sha256/" +:+ hashlib.hexdigest blob;
                        tarfile.type := tarfile.REGTYPE blob |} ])
          = member_bytes "manifest.json" ar) as Hmb.
  { unfold member_bytes. rewrite members_get_app_ne by exact Hne. reflexivity. }
  eexists _, blob, _. split; [exact Hadd|]. split; [reflexivity|].
  split; [reflexivity|]. split; [reflexivity|]. split; [exact Hmb|].
  unfold archive_manifest.
  change _MANIFEST_FILENAME with "manifest.json". rewrite Hmb. reflexivity.
Qed.

(** * Extraction *)

(** ** Making directories *)

Lemma makedirs_from_ok : forall rest base (fs : gmap (list string) node),
  (forall k st d, (k <= length rest)%nat ->
     fs !! (base ++ take k rest) <> Some (File st d)) ->
  exists fs',
    makedirs_from base rest fs = Ok fs'
    /\ (forall x n, fs !! x = Some n -> fs' !! x = Some n)
    /\ (forall x, fs !! x = None ->
          fs' !! x = None
          \/ (fs' !! x = Some Dir
              /\ exists k, (k <= length rest)%nat /\ x = base ++ take k rest))
    /\ (forall k, (k <= length rest)%nat -> fs' !! (base ++ take k rest) = Some Dir).
Proof.
  induction rest as [|c rest IH]; intros base fs Hnf.
  - pose proof (Hnf 0%nat) as H0. cbn [take] in H0. rewrite app_nil_r in H0.
    cbn [makedirs_from].
    destruct (fs !! base) as [[st d|]|] eqn:E.
    + elim (H0 st d (Nat.le_0_l _) eq_refl).
    + exists fs. split; [reflexivity|]. split; [auto|]. split; [auto|].
      intros k Hk. cbn in Hk. assert (k = 0%nat) as -> by lia.
      cbn [take]. rewrite app_nil_r. exact E.
    + exists (<[base := Dir]> fs). split; [reflexivity|]. split.
      { intros x n Hx. rewrite lookup_insert_ne; [exact Hx | congruence]. }
      split.
      { intros x Hx. destruct (decide (base = x)) as [<-|Hne].
        - right. rewrite lookup_insert_eq. split; [reflexivity|].
          exists 0%nat. cbn [take]. rewrite app_nil_r. split; [lia | reflexivity].
        - left. rewrite lookup_insert_ne by exact Hne. exact Hx. }
      intros k Hk. cbn in Hk. assert (k = 0%nat) as -> by lia.
      cbn [take]. rewrite app_nil_r. apply lookup_insert_eq.
  - assert (forall k, base ++ take (S k) (c :: rest) = (base ++ [c]) ++ take k rest) as Etk.
    { intros k. cbn [take]. rewrite <- app_assoc. reflexivity. }
    assert (forall k, (base ++ [c]) ++ take k rest <> base) as Hlen.
    { intros k E. apply (f_equal length) in E. rewrite !length_app in E. cbn in E. lia. }
    pose proof (Hnf 0%nat) as H0. cbn [take] in H0. rewrite app_nil_r in H0.
    cbn [makedirs_from].
    destruct (fs !! base) as [[st d|]|] eqn:E.
    + elim (H0 st d (Nat.le_0_l _) eq_refl).
    + destruct (IH (base ++ [c]) fs) as (fs' & Hm & Hi & Hii & Hiii).
      { intros k st d Hk. rewrite <- Etk. apply Hnf. cbn. lia. }
      exists fs'. split; [exact Hm|]. split; [exact Hi|]. split.
      { intros x Hx. destruct (Hii x Hx) as [Hn | [Hd (k & Hk & ->)]]; [left; exact Hn|].
        right. split; [exact Hd|]. exists (S k). rewrite Etk. split; [cbn; lia | reflexivity]. }
      intros [|k] Hk.
      * cbn [take]. rewrite app_nil_r. apply Hi, E.
      * rewrite Etk. apply Hiii. cbn in Hk. lia.
    + destruct (IH (base ++ [c]) (<[base := Dir]> fs)) as (fs' & Hm & Hi & Hii & Hiii).
      { intros k st d Hk. rewrite lookup_insert_ne by (intros Eq; exact (Hlen k (eq_sym Eq))).
        rewrite <- Etk. apply Hnf. cbn. lia. }
      exists fs'. split; [exact Hm|]. split.
      { intros x n Hx. apply Hi. rewrite lookup_insert_ne; [exact Hx | congruence]. }
      split.
      { intros x Hx. destruct (decide (base = x)) as [<-|Hne].
        - right. split; [apply Hi, lookup_insert_eq|].
          exists 0%nat. cbn [take]. rewrite app_nil_r. split; [lia | reflexivity].
        - destruct (Hii x) as [Hn | [Hd (k & Hk & ->)]].
          + rewrite lookup_insert_ne by exact Hne. exact Hx.
          + left. exact Hn.
          + right. split; [exact Hd|]. exists (S k). rewrite Etk.
            split; [cbn; lia | reflexivity]. }
      intros [|k] Hk.
      * cbn [take]. rewrite app_nil_r. apply Hi, lookup_insert_eq.
      * rewrite Etk. apply Hiii. cbn in Hk. lia.
Qed.

(** [makedirs] only adds directories, whether it returns or raises. *)
Lemma makedirs_from_mono : forall rest base (fs fs' : gmap (list string) node),
  makedirs_from base rest fs = Ok fs' ->
  forall x, fs' !! x = fs !! x \/ (fs !! x = None /\ fs' !! x = Some Dir).
Proof.
  induction rest as [|c rest IH]; intros base fs fs' H x; cbn [makedirs_from] in H.
  - destruct (fs !! base) as [[st d|]|] eqn:E; try discriminate H; injection H as <-.
    + left. reflexivity.
    + destruct (decide (base = x)) as [<-|Hne].
      * right. rewrite lookup_insert_eq. auto.
      * left. apply lookup_insert_ne, Hne.
  - destruct (fs !! base) as [[st d|]|] eqn:E; try discriminate H.
    + apply (IH _ _ _ H).
    + destruct (IH _ _ _ H x) as [Hx | [Hx1 Hx2]].
      * destruct (decide (base = x)) as [<-|Hne].
        -- right. rewrite Hx, lookup_insert_eq. auto.
        -- left. rewrite Hx. apply lookup_insert_ne, Hne.
      * destruct (decide (base = x)) as [<-|Hne].
        -- rewrite lookup_insert_eq in Hx1. discriminate.
        -- rewrite lookup_insert_ne in Hx1 by exact Hne. right. auto.
Qed.

(** ** Where an entry is written *)

Lemma prefix_nil_l (s : string) : String.prefix "" s = true.
Proof. destruct s; reflexivity. Qed.

Lemma startswith_slash_str (p : list string) :
  Forall clean p -> startswith "/" (str p) = false.
Proof.
  intros H. destruct p as [|a p]; [reflexivity|].
  inversion H as [|? ? (Ha & _ & _ & Hs) _]; subst.
  destruct a as [|c a]; [congruence|].
  inversion Hs as [|? ? Hc _]; subst.
  assert (exists t, str (String c a :: p) = String c t) as [t ->].
  { destruct p; [eexists; reflexivity|]. rewrite str_cons2, append_cons. eauto. }
  unfold startswith. cbn [String.prefix].
  destruct (ascii_dec "/" c); [congruence | reflexivity].
Qed.

Lemma resolve_from_clean (p : list string) : forall cur,
  Forall clean p -> tarfile.resolve_from cur p = cur ++ p.
Proof.
  induction p as [|c p IH]; intros cur H; cbn [tarfile.resolve_from].
  - rewrite app_nil_r. reflexivity.
  - inversion H as [|? ? (H1 & H2 & H3 & _) Hp]; subst.
    rewrite bool_decide_eq_false_2 by tauto.
    rewrite bool_decide_eq_false_2 by exact H3.
    rewrite IH by exact Hp. rewrite <- app_assoc. reflexivity.
Qed.

Lemma targetpath_clean (out p : list string) :
  Forall clean p -> tarfile.targetpath out (str p) = out ++ p.
Proof.
  intros H. unfold tarfile.targetpath. rewrite startswith_slash_str by exact H.
  destruct p as [|a p].
  - cbn. rewrite app_nil_r. reflexivity.
  - rewrite split_str by (auto; discriminate). apply resolve_from_clean, H.
Qed.

(** ** Extraction writes where the entries lead *)

Lemma extract_outside (out : list string) (fs fs' : gmap (list string) node)
    (m : tarfile.TarInfo) (r : result unit) :
  out `prefix_of` tarfile.targetpath out (tarfile.name m) ->
  tarfile.extract out fs m = (fs', r) ->
  forall x, ~ out `prefix_of` x ->
    fs' !! x = fs !! x \/ (fs !! x = None /\ fs' !! x = Some Dir).
Proof.
  intros Hsafe He x Hx. unfold tarfile.extract in He.
  destruct (makedirs (parent (tarfile.targetpath out (tarfile.name m))) fs)
    as [fs1|e] eqn:Em.
  2: { injection He as <- _. left. reflexivity. }
  pose proof (makedirs_from_mono _ _ _ _ Em x) as Hm.
  assert (tarfile.targetpath out (tarfile.name m) <> x) as Hne
    by (intros <-; exact (Hx Hsafe)).
  destruct (tarfile.type m) as [data|];
    destruct (fs1 !! tarfile.targetpath out (tarfile.name m)) as [[st d|]|];
    injection He as <- _; unfold write_bytes;
    rewrite ?lookup_insert_ne by exact Hne; exact Hm.
Qed.

Lemma outside_trans (fs fs1 fs2 : gmap (list string) node) (x : list string) :
  fs1 !! x = fs !! x \/ (fs !! x = None /\ fs1 !! x = Some Dir) ->
  fs2 !! x = fs1 !! x \/ (fs1 !! x = None /\ fs2 !! x = Some Dir) ->
  fs2 !! x = fs !! x \/ (fs !! x = None /\ fs2 !! x = Some Dir).
Proof.
  intros [H1|[H1 H1']] [H2|[H2 H2']].
  - left. congruence.
  - right. split; congruence.
  - right. split; congruence.
  - congruence.
Qed.

Lemma extractall_outside (out : list string) : forall ms (fs fs' : gmap (list string) node)
    (r : result unit),
  Forall (fun m => out `prefix_of` tarfile.targetpath out (tarfile.name m)) ms ->
  tarfile.extractall ms out fs = (fs', r) ->
  forall x, ~ out `prefix_of` x ->
    fs' !! x = fs !! x \/ (fs !! x = None /\ fs' !! x = Some Dir).
Proof.
  induction ms as [|m ms IH]; intros fs fs' r Hs He x Hx.
  - injection He as <- _. left. reflexivity.
  - inversion Hs as [|? ? Hm Hms]; subst. cbn [tarfile.extractall] in He.
    destruct (tarfile.extract out fs m) as [fs1 [[]|e]] eqn:E1.
    + apply (outside_trans fs fs1 fs' x).
      * apply (extract_outside out fs fs1 m _ Hm E1 x Hx).
      * apply (IH fs1 fs' r Hms He x Hx).
    + injection He as <- _. apply (extract_outside out fs fs1 m _ Hm E1 x Hx).
Qed.

Lemma unpack_outside (ar : list tarfile.TarInfo) (fs : gmap (list string) node)
    (out : list string) :
  Forall (fun m => out `prefix_of` tarfile.targetpath out (tarfile.name m)) ar ->
  forall x, ~ out `prefix_of` x ->
    (unpack ar fs out).1 !! x = fs !! x
    \/ (fs !! x = None /\ (unpack ar fs out).1 !! x = Some Dir).
Proof.
  intros Hs x Hx. unfold unpack.
  destruct (makedirs out fs) as [fs0|e] eqn:Em; [|left; reflexivity].
  pose proof (makedirs_from_mono _ _ _ _ Em x) as H0.
  destruct (tarfile.extractall ar out fs0) as [fs1 [[]|e]] eqn:Ee;
    cbn [fst]; apply (outside_trans fs fs0 fs1 x H0);
    apply (extractall_outside out ar fs0 fs1 _ Hs Ee x Hx).
Qed.



(** ** Extracting the archive of a tree *)

Lemma prefix_app_cases {A} (out p X : list A) :
  X `prefix_of` out ++ p ->
  X `prefix_of` out \/ exists q, q <> [] /\ X = out ++ q /\ q `prefix_of` p.
Proof.
  revert X. induction out as [|a out IH]; intros X H.
  - destruct X as [|x X]; [left; reflexivity|].
    right. exists (x :: X). split; [discriminate|]. split; [reflexivity | exact H].
  - destruct X as [|x X]; [left; apply prefix_nil|].
    cbn [app] in H. destruct H as [k Hk]. injection Hk as <- Hk.
    destruct (IH X) as [Hp | (q & Hq & -> & Hqp)]; [exists k; exact Hk | |].
    + left. apply prefix_cons, Hp.
    + right. exists q. split; [exact Hq|]. split; [reflexivity | exact Hqp].
Qed.

Lemma take_parent_cases (out p : list string) (k : nat) :
  take k (parent (out ++ p)) `prefix_of` out
  \/ exists q, take k (parent (out ++ p)) = out ++ q /\ q `prefix_of` p /\ q <> p.
Proof.
  assert (take k (parent (out ++ p)) `prefix_of` out ++ p) as Hpre.
  { unfold parent. rewrite removelast_firstn_len.
    etrans; [apply prefix_take|]. apply prefix_take. }
  destruct (prefix_app_cases out p _ Hpre) as [H | (q & Hq & E & Hqp)]; [left; exact H|].
  right. exists q. split; [exact E|]. split; [exact Hqp|].
  intros ->. apply (f_equal length) in E.
  rewrite length_take in E. unfold parent in E.
  rewrite removelast_firstn_len, length_take in E.
  assert (length (out ++ p) <> 0)%nat
    by (rewrite length_app; destruct p; [congruence | cbn; lia]).
  lia.
Qed.

Lemma node_copy_file_inv (n : node) (st : stat_result) (d : string) :
  node_copy n = File st d -> exists st', n = File st' d.
Proof. destruct n as [st' d'|]; cbn; [|discriminate]. intros H. injection H as _ <-. eauto. Qed.

Lemma extract_step (tmp : gmap (list string) node) (out : list string)
    (fs0 fs : gmap (list string) node) (p : list string) (n : node) :
  tree tmp -> extracting tmp out fs0 fs -> tmp !! p = Some n ->
  exists fs',
    tarfile.extract out fs (tarfile.of_node (str p) n) = (fs', Ok tt)
    /\ extracting tmp out fs0 fs'
    /\ is_Some (fs' !! (out ++ p))
    /\ (forall x, is_Some (fs !! x) -> is_Some (fs' !! x)).
Proof.
  intros (Hroot & Hclean & Htree) (Ha & Hb & Hc) Hn.
  assert (forall q, q `prefix_of` p -> q <> p -> tmp !! q = Some Dir) as Hup
    by (intros q; apply Htree; eauto).
  destruct (makedirs_from_ok (parent (out ++ p)) [] fs) as (fs1 & Hm & Hi & Hii & Hiii).
  { intros k st d _ Hf. cbn [app] in Hf.
    destruct (take_parent_cases out p k) as [Hp | (q & E & Hq & Hne)].
    - rewrite (Ha _ Hp) in Hf. discriminate.
    - rewrite E in Hf. apply Hb in Hf. rewrite (Hup q Hq Hne) in Hf. discriminate. }
  assert (extracting tmp out fs0 fs1) as (Ha1 & Hb1 & Hc1).
  { split; [|split].
    - intros q Hq. apply Hi, Ha, Hq.
    - intros p' n' Hf. destruct (fs !! (out ++ p')) as [n0|] eqn:E0.
      + rewrite (Hi _ _ E0) in Hf. injection Hf as <-. apply Hb, E0.
      + destruct (Hii _ E0) as [Hnone | [Hd (k & _ & Ek)]]; [congruence|].
        rewrite Hd in Hf. injection Hf as <-. cbn [app] in Ek.
        destruct (take_parent_cases out p k) as [Hp | (q & E & Hq & Hne)].
        * rewrite <- Ek in Hp. rewrite (Ha _ Hp) in E0. discriminate.
        * rewrite E in Ek. apply app_inv_head in Ek. subst q.
          rewrite (Hup p' Hq Hne). reflexivity.
    - intros q Hq. rewrite <- (Hc q Hq).
      destruct (fs !! q) as [n0|] eqn:E0; [apply Hi, E0|].
      destruct (Hii _ E0) as [Hnone | [Hd (k & _ & Ek)]]; [exact Hnone|].
      exfalso. cbn [app] in Ek.
      destruct (take_parent_cases out p k) as [Hp | (q' & E & _)].
      + rewrite <- Ek in Hp. rewrite (Ha _ Hp) in E0. discriminate.
      + apply Hq. rewrite Ek, E. apply prefix_app_r. reflexivity. }
  assert (tarfile.extract out fs (tarfile.of_node (str p) n)
          = (<[out ++ p := node_copy n]> fs1, Ok tt)) as Hex.
  { unfold tarfile.extract. rewrite name_of_node.
    rewrite targetpath_clean by (apply Hclean; eauto).
    unfold makedirs. rewrite Hm.
    destruct n as [st data|]; cbn [tarfile.of_node tarfile.type node_copy].
    - destruct (fs1 !! (out ++ p)) as [[st' d'|]|] eqn:E; try reflexivity.
      apply Hb1 in E. rewrite Hn in E. discriminate.
    - destruct (fs1 !! (out ++ p)) as [[st' d'|]|] eqn:E; try reflexivity.
      apply Hb1 in E. rewrite Hn in E. discriminate. }
  exists (<[out ++ p := node_copy n]> fs1). split; [exact Hex|].
  split; [split; [|split]|split].
  - intros q Hq. destruct (decide (out ++ p = q)) as [<-|Hne].
    + rewrite lookup_insert_eq.
      assert (p = []) as ->.
      { apply (f_equal length) in Hq as Hl || idtac.
        destruct Hq as [k Hk]. apply (f_equal length) in Hk.
        rewrite !length_app in Hk. destruct p; [reflexivity | cbn in Hk; lia]. }
      rewrite Hroot in Hn. injection Hn as <-. reflexivity.
    + rewrite lookup_insert_ne by exact Hne. apply Ha1, Hq.
  - intros p' n' Hf. destruct (decide (out ++ p = out ++ p')) as [E|Hne].
    + apply app_inv_head in E. subst p'. rewrite lookup_insert_eq in Hf.
      injection Hf as <-. rewrite Hn. reflexivity.
    + rewrite lookup_insert_ne in Hf by exact Hne. apply Hb1, Hf.
  - intros q Hq. rewrite lookup_insert_ne; [apply Hc1, Hq|].
    intros <-. apply Hq. apply prefix_app_r. reflexivity.
  - rewrite lookup_insert_eq. eauto.
  - intros x [nx Hx]. destruct (decide (out ++ p = x)) as [<-|Hne].
    + rewrite lookup_insert_eq. eauto.
    + rewrite lookup_insert_ne by exact Hne. rewrite (Hi _ _ Hx). eauto.
Qed.

Lemma extractall_tree (tmp : gmap (list string) node) (out : list string)
    (fs0 : gmap (list string) node) :
  tree tmp ->
  forall L fs,
  extracting tmp out fs0 fs ->
  (forall p, p ∈ L -> is_Some (tmp !! p)) ->
  exists fs',
    tarfile.extractall
      (omap (fun p => tarfile.of_node (str p) <$> tmp !! p) L) out fs
    = (fs', Ok tt)
    /\ extracting tmp out fs0 fs'
    /\ (forall p, p ∈ L -> is_Some (fs' !! (out ++ p)))
    /\ (forall x, is_Some (fs !! x) -> is_Some (fs' !! x)).
Proof.
  intros Ht. induction L as [|p L IH]; intros fs Hinv HL.
  - exists fs. split; [reflexivity|]. split; [exact Hinv|].
    split; [intros p Hp; inversion Hp | auto].
  - destruct (HL p ltac:(left)) as [n Hn].
    destruct (extract_step tmp out fs0 fs p n Ht Hinv Hn) as (fs1 & He & Hinv1 & Hp1 & Hmono1).
    destruct (IH fs1 Hinv1) as (fs' & Hall & Hinv' & HL' & Hmono').
    { intros q Hq. apply HL. right. exact Hq. }
    exists fs'. split.
    { cbn [omap list_omap]. rewrite Hn. cbn [fmap option_fmap option_map].
      cbn [tarfile.extractall]. rewrite He. exact Hall. }
    split; [exact Hinv'|]. split.
    + intros q Hq. apply elem_of_cons in Hq as [->|Hq]; [apply Hmono', Hp1 | apply HL', Hq].
    + intros x Hx. apply Hmono', Hmono1, Hx.
Qed.

(** Extracting the archive of a tree into a directory with nothing below it
    copies the tree there and touches nothing else. *)
Lemma extract_archive_of (tmp : gmap (list string) node) (out : list string)
    (fs0 : gmap (list string) node) :
  tree tmp -> extracting tmp out fs0 fs0 ->
  exists fs',
    tarfile.extractall (archive_of tmp) out fs0 = (fs', Ok tt)
    /\ (forall p, fs' !! (out ++ p) = node_copy <$> tmp !! p)
    /\ (forall q, ~ out `prefix_of` q -> fs' !! q = fs0 !! q).
Proof.
  intros Ht Hinv. pose proof Ht as (Hroot & _ & _).
  destruct (extract_step tmp out fs0 fs0 [] Dir Ht Hinv Hroot)
    as (fs1 & He & Hinv1 & Hp1 & Hmono1).
  destruct (extractall_tree tmp out fs0 Ht (sorted (rglob tmp [])) fs1 Hinv1)
    as (fs' & Hall & (Ha & Hb & Hc) & HL & Hmono).
  { intros p Hp. rewrite sorted_perm in Hp. apply elem_of_rglob in Hp as [_ Hp]. exact Hp. }
  exists fs'. split.
  { unfold archive_of. cbn [tarfile.extractall].
    change (tarfile.of_node "" Dir) with (tarfile.of_node (str []) Dir).
    rewrite He. exact Hall. }
  split; [|exact Hc].
  intros p. destruct (tmp !! p) as [n|] eqn:En.
  - assert (is_Some (fs' !! (out ++ p))) as [n' Hn'].
    { destruct p as [|c p].
      - apply Hmono, Hp1.
      - apply HL. rewrite sorted_perm. apply elem_of_rglob.
        split; [apply below_nil; discriminate | eauto]. }
    rewrite Hn'. apply Hb in Hn'. rewrite En in Hn'. symmetry. exact Hn'.
  - destruct (fs' !! (out ++ p)) as [n'|] eqn:En'; [|reflexivity].
    apply Hb in En'. rewrite En in En'. discriminate.
Qed.

(** ** Unpacking a packaged archive *)

Lemma prefix_of_3 {A} (a b c : A) (q : list A) :
  q `prefix_of` [a; b; c] -> q <> [a; b; c] -> q = [] \/ q = [a] \/ q = [a; b].
Proof.
  intros [k Hk] Hne.
  destruct q as [|x [|y [|z [|w q]]]]; auto.
  - injection Hk as <- _. auto.
  - injection Hk as <- <- _. auto.
  - injection Hk as <- <- <- Hk. tauto.
  - injection Hk as _ _ _ Hk. discriminate Hk.
Qed.

Lemma prefix_of_1 {A} (a : A) (q : list A) :
  q `prefix_of` [a] -> q <> [a] -> q = [].
Proof.
  intros [k Hk] Hne. destruct q as [|x [|y q]]; auto.
  - injection Hk as <- _. tauto.
  - injection Hk as _ Hk. discriminate Hk.
Qed.

Lemma work_area_tree clock fs dir cfg : tree (work_area clock fs dir cfg).
Proof.
  split; [apply work_area_root|]. split; [apply work_area_clean|].
  intros p q [n Hn] Hq Hne. apply work_area_dirs.
  apply work_area_lookup in Hn
    as [[_ [->|[->| ->]]] | [[-> _] | [[-> _] | (b & _ & -> & _)]]].
  - apply prefix_nil_inv in Hq. tauto.
  - left. apply (prefix_of_1 _ _ Hq Hne).
  - destruct Hq as [k Hk]. destruct q as [|x [|y [|z q]]]; auto.
    + injection Hk as <- _. auto.
    + injection Hk as <- <- Hk. destruct k; [tauto | discriminate Hk].
    + injection Hk as _ _ Hk. discriminate Hk.
  - left. apply (prefix_of_1 _ _ Hq Hne).
  - left. apply (prefix_of_1 _ _ Hq Hne).
  - apply (prefix_of_3 _ _ _ _ Hq Hne).
Qed.

(** Making an output directory that is new: nothing is below it yet, and no
    path down to it is a regular file. *)
Lemma makedirs_fresh (tmp : gmap (list string) node) (out : list string)
    (fs : gmap (list string) node) :
  tmp !! [] = Some Dir ->
  (forall k st d, fs !! take k out <> Some (File st d)) ->
  (forall p, p <> [] -> fs !! (out ++ p) = None) ->
  exists fs0, makedirs out fs = Ok fs0 /\ extracting tmp out fs0 fs0.
Proof.
  intros Hroot Hnf Hfresh.
  destruct (makedirs_from_ok out [] fs) as (fs0 & Hm & Hi & Hii & Hiii).
  { intros k st d _. apply Hnf. }
  exists fs0. split; [exact Hm|]. split; [|split].
  - intros q [k Hk]. specialize (Hiii (length q)). cbn [app] in Hiii.
    rewrite Hk, take_app_length in Hiii. apply Hiii.
    rewrite length_app. lia.
  - intros p n Hf. destruct p as [|c p].
    + rewrite app_nil_r in Hf. specialize (Hiii (length out) ltac:(lia)).
      cbn [app] in Hiii. rewrite firstn_all in Hiii.
      rewrite Hiii in Hf. injection Hf as <-. rewrite Hroot. reflexivity.
    + destruct (Hii (out ++ c :: p)) as [Hnone | [_ (k & _ & Ek)]].
      * apply Hfresh. discriminate.
      * congruence.
      * exfalso. cbn [app] in Ek. apply (f_equal length) in Ek.
        rewrite length_app, length_take in Ek. cbn [length] in Ek. lia.
  - reflexivity.
Qed.







(** ** The theorems at concrete inputs *)




(** C10 at the directory [/m] with the one file [a.bin]. *)
Lemma C10_blob_entries_witness :
  is_dir fs1 ["m"] = true
  /\ NoDup (hashlib.hexdigest <$> package_blobs (fun _ => 0) fs1 ["m"]
              ++ [OCIConfig_model_dump_json (Some 2%nat) cfg0])
  /\ exists out ar config_bytes,
       package (fun _ => 0) fs1 ["m"] cfg0 = Ok (out, ar)
       /\ member_bytes "config.json" ar = Some config_bytes
       /\ is_Some (member_bytes "manifest.json" ar)
       /\ length (filter (fun m => startswith "blobs/sha256/" (tarfile.name m)) ar)
          = S (length (filter (fun p => is_file fs1 p) (rglob fs1 ["m"])))
       /\ member_bytes ("blobs/sha256/" +:+ hashlib.hexdigest config_bytes) ar
          = Some config_bytes
       /\ length (package_blobs (fun _ => 0) fs1 ["m"])
          = length (filter (fun p => is_file fs1 p) (rglob fs1 ["m"]))
       /\ Forall (fun b => member_bytes ("blobs/sha256/" +:+ hashlib.hexdigest b) ar
                           = Some b) (package_blobs (fun _ => 0) fs1 ["m"]).
Proof.
  assert (NoDup (hashlib.hexdigest <$> package_blobs (fun _ => 0) fs1 ["m"]
                   ++ [OCIConfig_model_dump_json (Some 2%nat) cfg0])) as Hnd.
  { apply (bool_decide_unpack _). vm_compute. exact I. }
  split; [vm_compute; reflexivity|]. split; [exact Hnd|].
  apply (C10_blob_entries (fun _ => 0) fs1 ["m"] cfg0); [vm_compute; reflexivity | exact Hnd].
Defined.

(** C5 at the directory [/m] with the one file [a.bin]. *)
Lemma C5_manifest_json_keys_witness :
  is_dir fs1 ["m"] = true
  /\ exists out ar text members,
       package (fun _ => 0) fs1 ["m"] cfg0 = Ok (out, ar)
       /\ member_bytes "manifest.json" ar = Some text
       /\ json.loads text = Ok (json.Obj members)
       /\ map fst members = ["schema_version"; "media_type"; "config"; "layers"]
       /\ json.dict_get "schema_version" members = Some (json.Num 2)
       /\ json.dict_get "media_type" members
          = Some (json.Str "application/vnd.oci.image.manifest.v1+json")
       /\ json.dict_get "schemaVersion" members = None
       /\ json.dict_get "mediaType" members = None.
Proof.
  split; [vm_compute; reflexivity|].
  apply (C5_manifest_json_keys (fun _ => 0) fs1 ["m"] cfg0).
  vm_compute; reflexivity.
Defined.

(** C2 (amended) at the directory [/m] with the one file [a.bin], the clock
    reading 0 in one run and 1 in the other. *)
Lemma C2_determinism_witness :
  is_dir fs1 ["m"] = true
  /\ exists out ar1 ar2 m1 m2,
       package (fun _ => 0) fs1 ["m"] cfg0 = Ok (out, ar1)
       /\ package (fun _ => 1) fs1 ["m"] cfg0 = Ok (out, ar2)
       /\ archive_manifest ar1 = Ok m1
       /\ archive_manifest ar2 = Ok m2
       /\ length (layers m1) = length (layers m2)
       /\ desc_title <$> layers m1 = desc_title <$> layers m2
       /\ config m1 = config m2
       /\ ((forall i, (i < length (layers m1))%nat ->
              (fun _ : nat => 0) i = (fun _ : nat => 1) i) ->
           ar1 = ar2 /\ m1 = m2).
Proof.
  split; [vm_compute; reflexivity|].
  apply (C2_determinism_up_to_clock (fun _ => 0) (fun _ => 1) fs1 ["m"] cfg0).
  vm_compute; reflexivity.
Defined.

(** C9 at [archive_ex] and the file [/m/a.bin]. *)
Lemma C9_add_layer_witness :
  is_file fs1 ["m"; "a.bin"] = true
  /\ exists layer blob ar',
       add_layer 0 fs1 archive_ex ["m"; "a.bin"] = Ok (layer, ar')
       /\ ar' = archive_ex
                  ++ [ {| tarfile.name := "blobs/sha256/" +:+ hashlib.hexdigest blob;
                          tarfile.type := tarfile.REGTYPE blob |} ]
       /\ digest layer = _sha256_bytes blob
       /\ size layer = len blob
       /\ member_bytes "manifest.json" ar' = member_bytes "manifest.json" archive_ex
       /\ archive_manifest ar' = archive_manifest archive_ex.
Proof.
  split; [vm_compute; reflexivity|].
  apply (C9_add_layer_leaves_manifest 0 fs1 archive_ex ["m"; "a.bin"]).
  vm_compute; reflexivity.
Defined.



(** ** The hash object: feeding it in chunks *)

Lemma blocks_app_extra : forall n h (bs extra : list Z),
  (64 * n <= length bs)%nat ->
  hashlib.blocks n h (bs ++ extra) = hashlib.blocks n h bs.
Proof.
  induction n as [|n IH]; intros h bs extra Hn; [reflexivity|].
  cbn [hashlib.blocks].
  rewrite take_app_le by lia. rewrite drop_app_le by lia.
  apply IH. rewrite length_drop. lia.
Qed.

Lemma blocks_add : forall a b h (bs : list Z),
  hashlib.blocks (a + b) h bs
  = hashlib.blocks b (hashlib.blocks a h bs) (skipn (64 * a) bs).
Proof.
  induction a as [|a IH]; intros b h bs.
  - reflexivity.
  - cbn [Nat.add hashlib.blocks]. rewrite IH, drop_drop.
    replace (64 + 64 * a)%nat with (64 * S a)%nat by lia. reflexivity.
Qed.

(** Absorbing a message followed by more bytes: the full blocks of the
    message first, then what is left of it with the bytes that follow. *)
Lemma blocks_split (msg extra : list Z) :
  hashlib.blocks (length (msg ++ extra) / 64) hashlib.H0 (msg ++ extra)
  = hashlib.blocks (length (skipn (64 * (length msg / 64)) msg ++ extra) / 64)
      (hashlib.blocks (length msg / 64) hashlib.H0 msg)
      (skipn (64 * (length msg / 64)) msg ++ extra).
Proof.
  pose proof (Nat.div_mod_eq (length msg) 64) as Hq.
  assert (64 * (length msg / 64) <= length msg)%nat as Hle by lia.
  set (q := (length msg / 64)%nat) in *.
  assert (length (msg ++ extra) / 64
          = q + length (skipn (64 * q) msg ++ extra) / 64)%nat as ->.
  { rewrite !length_app, length_drop.
    replace (length msg + length extra)%nat
      with ((length msg - 64 * q + length extra) + q * 64)%nat by lia.
    rewrite Nat.div_add by lia. lia. }
  rewrite blocks_add. rewrite (drop_app_le msg) by exact Hle.
  rewrite (blocks_app_extra q) by exact Hle. reflexivity.
Qed.

(** What a hash object holds once it was fed the bytes [msg]. *)
Lemma update_fed (h : sha256_object.t) (msg : list Z) (chunk : string) :
  sha256_object.chain h = hashlib.blocks (length msg / 64) hashlib.H0 msg ->
  sha256_object.pending h = skipn (64 * (length msg / 64)) msg ->
  sha256_object.fed h = length msg ->
  let msg' := msg ++ map byte_val (to_list chunk) in
  sha256_object.chain (sha256_object.update h chunk)
  = hashlib.blocks (length msg' / 64) hashlib.H0 msg'
  /\ sha256_object.pending (sha256_object.update h chunk)
     = skipn (64 * (length msg' / 64)) msg'
  /\ sha256_object.fed (sha256_object.update h chunk) = length msg'.
Proof.
  intros Hc Hp Hf msg'. unfold sha256_object.update.
  cbn [sha256_object.chain sha256_object.pending sha256_object.fed].
  rewrite Hc, Hp, Hf. subst msg'.
  pose proof (Nat.div_mod_eq (length msg) 64) as Hq.
  set (c := map byte_val (to_list chunk)).
  split; [symmetry; apply blocks_split|]. split.
  - set (q := (length msg / 64)%nat) in *.
    assert (length (msg ++ c) / 64
            = q + length (skipn (64 * q) msg ++ c) / 64)%nat as ->.
    { rewrite !length_app, length_drop.
      replace (length msg + length c)%nat
        with ((length msg - 64 * q + length c) + q * 64)%nat by lia.
      rewrite Nat.div_add by lia. lia. }
    set (N := (length (skipn (64 * q) msg ++ c) / 64)%nat).
    replace (64 * (q + N))%nat with (64 * q + 64 * N)%nat by lia.
    rewrite <- drop_drop. rewrite (drop_app_le msg) by lia. reflexivity.
  - rewrite length_app. unfold c. rewrite length_map, length_to_list. reflexivity.
Qed.

Lemma hexdigest_fed (h : sha256_object.t) (data : string) :
  let msg := map byte_val (to_list data) in
  sha256_object.chain h = hashlib.blocks (length msg / 64) hashlib.H0 msg ->
  sha256_object.pending h = skipn (64 * (length msg / 64)) msg ->
  sha256_object.fed h = length msg ->
  sha256_object.hexdigest h = hashlib.hexdigest data.
Proof.
  intros msg Hc Hp Hf.
  unfold sha256_object.hexdigest, hashlib.hexdigest, hashlib.sha256, hashlib.pad.
  fold msg. cbv zeta. rewrite Hc, Hp, Hf. rewrite <- blocks_split. reflexivity.
Qed.

Lemma read_spec : forall n (fh : string),
  fh = (read n fh).1 +:+ (read n fh).2
  /\ ((0 < n)%nat -> (read n fh).1 = "" -> fh = "")
  /\ ((read n fh).1 <> "" ->
        (String.length (read n fh).2 < String.length fh)%nat).
Proof.
  induction n as [|n IH]; intros fh.
  - cbn [read fst snd]. split; [reflexivity|]. split; [lia | congruence].
  - destruct fh as [|c rest]; cbn [read fst snd].
    + split; [reflexivity|]. split; [reflexivity | congruence].
    + destruct (IH rest) as (E & _ & Hlt). split.
      { rewrite append_cons. f_equal. exact E. }
      split; [discriminate|]. intros _. cbn [String.length].
      destruct (decide ((read n rest).1 = "")) as [E1|N1].
      * pose proof E as E2. rewrite E1 in E2.
        change ("" +:+ (read n rest).2) with (read n rest).2 in E2.
        rewrite <- E2. lia.
      * specialize (Hlt N1). lia.
Qed.

Lemma update_chunks_fed (n : nat) : (0 < n)%nat ->
  forall fuel (h : sha256_object.t) (fh : string) (msg : list Z),
  (String.length fh < fuel)%nat ->
  sha256_object.chain h = hashlib.blocks (length msg / 64) hashlib.H0 msg ->
  sha256_object.pending h = skipn (64 * (length msg / 64)) msg ->
  sha256_object.fed h = length msg ->
  let msg' := msg ++ map byte_val (to_list fh) in
  let h' := update_chunks n fuel h fh in
  sha256_object.chain h' = hashlib.blocks (length msg' / 64) hashlib.H0 msg'
  /\ sha256_object.pending h' = skipn (64 * (length msg' / 64)) msg'
  /\ sha256_object.fed h' = length msg'.
Proof.
  intros Hn. induction fuel as [|fuel IH]; intros h fh msg Hfuel Hc Hp Hf; [lia|].
  cbv zeta. cbn [update_chunks].
  destruct (read_spec n fh) as (E & Hempty & Hlt).
  destruct (String.eqb (read n fh).1 "") eqn:Eq.
  - apply String.eqb_eq in Eq. rewrite (Hempty Hn Eq).
    cbn [to_list list_ascii_of_string map]. rewrite app_nil_r. auto.
  - apply String.eqb_neq in Eq.
    destruct (update_fed h msg (read n fh).1 Hc Hp Hf) as (Hc' & Hp' & Hf').
    specialize (IH (sha256_object.update h (read n fh).1) (read n fh).2
                  (msg ++ map byte_val (to_list (read n fh).1))
                  ltac:(specialize (Hlt Eq); lia) Hc' Hp' Hf').
    cbv zeta in IH. rewrite <- app_assoc, <- map_app, <- to_list_append, <- E in IH.
    exact IH.
Qed.

Lemma sha256_file_eq (fs : gmap (list string) node) (p : list string) :
  _sha256_file fs p
  = match fs !! p with
    | Some (File _ data) => Ok (_sha256_bytes data)
    | Some Dir => Raise IsADirectoryError
    | None => Raise FileNotFoundError
    end.
Proof.
  unfold _sha256_file. destruct (fs !! p) as [[st data|]|]; try reflexivity.
  cbv zeta. unfold _sha256_bytes. do 2 f_equal.
  destruct (update_chunks_fed (Z.to_nat 65536) ltac:(lia) (S (String.length data))
              sha256_object.new data [] ltac:(lia)
              eq_refl eq_refl eq_refl) as (Hc & Hp & Hf).
  cbv zeta in Hc, Hp, Hf. rewrite app_nil_l in Hc, Hp, Hf.
  apply hexdigest_fed; assumption.
Qed.

(** X1. [_sha256_file] reads the file in chunks of 65536 bytes and feeds
    them to one hash object; the digest it returns is the one
    [_sha256_bytes] gives for the whole content, whatever the size of the
    file. A missing path raises [FileNotFoundError], a directory
    [IsADirectoryError]. *)
Theorem sha256_file_agrees_with_bytes (fs : gmap (list string) node)
    (p : list string) :
  _sha256_file fs p
  = match fs !! p with
    | Some (File _ data) => Ok (_sha256_bytes data)
    | Some Dir => Raise IsADirectoryError
    | None => Raise FileNotFoundError
    end.
Proof. apply sha256_file_eq. Qed.

(** ** Digests *)

(** X2. The digest [_sha256_bytes] returns is [sha256:] followed by 64
    lower-case hexadecimal digits, for every input; split at the colon it
    has exactly two parts, the second being the hex digest. *)
Theorem sha256_bytes_format (data : string) :
  exists hex,
    _sha256_bytes data = "sha256:" +:+ hex
    /\ String.length hex = 64%nat
    /\ Forall is_hex (to_list hex)
    /\ str_split ":" (_sha256_bytes data) = ["sha256"; hex].
Proof.
  exists (hashlib.hexdigest data). split; [reflexivity|].
  split; [rewrite <- length_to_list; apply hexdigest_length|].
  split; [apply hexdigest_hex|].
  unfold _sha256_bytes.
  change ("sha256:" +:+ hashlib.hexdigest data)
    with ("sha256" +:+ String ":" (hashlib.hexdigest data)).
  rewrite str_split_sep.
  - f_equal. apply str_split_nosep, hexdigest_no, not_hex_colon.
  - repeat constructor; discriminate.
Qed.

(** ** The outcome of [package] *)


(** ** [add_layer] *)

Lemma members_get_app_last (n : string) (ms : list tarfile.TarInfo)
    (m : tarfile.TarInfo) :
  tarfile.name m = n -> tarfile.members_get n (ms ++ [m]) = Some m.
Proof.
  intros <-. unfold tarfile.members_get. rewrite rev_app_distr.
  cbn [rev app find]. rewrite String.eqb_refl. reflexivity.
Qed.

Lemma add_layer_eq (now : Z) (fs : gmap (list string) node)
    (ar : list tarfile.TarInfo) (p : list string) (st : stat_result)
    (data : string) :
  fs !! p = Some (File st data) ->
  add_layer now fs ar p
  = Ok (mk_layer (tarfile.open_w_gz_add now (Path_name p) st data) (Path_name p),
        ar ++ [ {| tarfile.name :=
                     "blobs/sha256/"
                     +:+ hashlib.hexdigest
                           (tarfile.open_w_gz_add now (Path_name p) st data);
                   tarfile.type :=
                     tarfile.REGTYPE
                       (tarfile.open_w_gz_add now (Path_name p) st data) |} ]).
Proof.
  intros Hp. unfold add_layer.
  assert (is_file fs p = true) as -> by (unfold is_file; rewrite Hp; reflexivity).
  cbn [negb].
  change (makedirs ([] // _LAYERS_DIR) TemporaryDirectory) with (Ok work_area0).
  rewrite bind_Ok. change ([] // _LAYERS_DIR) with ["blobs"; "sha256"].
  rewrite (create_layer_blob_None now fs p _ st data Hp).
  rewrite bind_Ok. cbn [fst snd mk_layer digest].
  rewrite sha256_bytes_split, or_raise_Some, bind_Ok, joinpath_hex.
  unfold tarfile.add, write_bytes. rewrite lookup_insert_eq. reflexivity.
Qed.

(** X7. [add_layer] raises nothing but [FileNotFoundError], and exactly when
    [file_path] is not a regular file. Otherwise the descriptor it returns
    has the digest and the size of the blob it appends, the default layer
    media type, and as title the last component of [file_path], not a
    relative path. *)
Theorem add_layer_outcome (now : Z) (fs : gmap (list string) node)
    (ar : list tarfile.TarInfo) (file_path : list string) :
  match add_layer now fs ar file_path with
  | Ok (layer, ar') =>
      is_file fs file_path = true
      /\ exists blob,
           ar' = ar ++ [ {| tarfile.name := "blobs/sha256/" +:+ hashlib.hexdigest blob;
                            tarfile.type := tarfile.REGTYPE blob |} ]
           /\ digest layer = _sha256_bytes blob
           /\ size layer = len blob
           /\ media_type layer = "application/vnd.oci.image.layer.v1.tar+gzip"
           /\ annotations layer
              = [("org.opencontainers.image.title", Path_name file_path)]
  | Raise e => is_file fs file_path = false /\ e = FileNotFoundError
  end.
Proof.
  destruct (fs !! file_path) as [[st data|]|] eqn:Hp.
  - rewrite (add_layer_eq now fs ar file_path st data Hp).
    split; [unfold is_file; rewrite Hp; reflexivity|].
    eexists. split; [reflexivity|]. repeat split.
  - unfold add_layer, is_file. rewrite Hp. split; reflexivity.
  - unfold add_layer, is_file. rewrite Hp. split; reflexivity.
Qed.

Lemma layer_verdict_add (ar : list tarfile.TarInfo) (blob d : string) :
  layer_verdict ar d = true ->
  layer_verdict
    (ar ++ [ {| tarfile.name := "blobs/sha256/" +:+ hashlib.hexdigest blob;
                tarfile.type := tarfile.REGTYPE blob |} ]) d = true.
Proof.
  unfold layer_verdict.
  destruct (blob_entry d) as [e|] eqn:Ee; [|discriminate].
  rewrite !obind_Some.
  destruct (member_bytes e ar) as [data|] eqn:Em; [|discriminate].
  intros H. apply String.eqb_eq in H. subst d.
  rewrite blob_entry_sha256 in Ee. injection Ee as <-.
  destruct (decide (hashlib.hexdigest blob = hashlib.hexdigest data)) as [E|N].
  - unfold member_bytes.
    rewrite members_get_app_last by (cbn [tarfile.name]; rewrite E; reflexivity).
    rewrite obind_Some. cbn [tarfile.extractfile tarfile.type].
    unfold _sha256_bytes. rewrite E. apply String.eqb_refl.
  - unfold member_bytes in *. rewrite members_get_app_ne.
    + rewrite Em. apply String.eqb_refl.
    + intros m Hm. apply list_elem_of_singleton in Hm as ->. cbn [tarfile.name].
      intros H. apply N. apply (inj (String.app "blobs/sha256/")). exact H.
Qed.

Lemma archive_manifest_add (ar : list tarfile.TarInfo) (blob : string) :
  archive_manifest
    (ar ++ [ {| tarfile.name := "blobs/sha256/" +:+ hashlib.hexdigest blob;
                tarfile.type := tarfile.REGTYPE blob |} ])
  = archive_manifest ar.
Proof.
  unfold archive_manifest, member_bytes. rewrite members_get_app_ne; [reflexivity|].
  intros m Hm. apply list_elem_of_singleton in Hm as ->. discriminate.
Qed.

(** X8. On an archive whose manifest reads, with algorithm-prefixed layer
    digests, [add_layer] followed by [verify_layers] reports the same
    digests in the same order as before, one per layer of the manifest:
    the appended blob is not reported. A layer that verified before still
    verifies, and the appended blob is valid under the digest of the
    returned descriptor. *)
Theorem add_layer_keeps_verification (now : Z) (fs : gmap (list string) node)
    (ar : list tarfile.TarInfo) (file_path : list string) (m : OCIManifest) :
  is_file fs file_path = true ->
  archive_manifest ar = Ok m ->
  Forall readable (layers m) ->
  exists layer ar' before after,
    add_layer now fs ar file_path = Ok (layer, ar')
    /\ verify_layers ar = Ok before
    /\ verify_layers ar' = Ok after
    /\ after.*1 = before.*1
    /\ length after = length (layers m)
    /\ (forall i d, before !! i = Some (d, true) -> after !! i = Some (d, true))
    /\ layer_verdict ar' (digest layer) = true.
Proof.
  intros Hf Hm Hr. destruct (is_file_lookup fs file_path Hf) as (st & data & Hp).
  set (blob := tarfile.open_w_gz_add now (Path_name file_path) st data).
  set (ar' := ar ++ [ {| tarfile.name := "blobs/sha256/" +:+ hashlib.hexdigest blob;
                         tarfile.type := tarfile.REGTYPE blob |} ]).
  exists (mk_layer blob (Path_name file_path)), ar',
    (verdicts ar (layers m)), (verdicts ar' (layers m)).
  split; [apply (add_layer_eq now fs ar file_path st data Hp)|].
  split; [rewrite (verify_layers_eq ar m Hm); apply (verify_loop_spec ar _ [] Hr)|].
  split.
  { rewrite (verify_layers_eq ar' m); [apply (verify_loop_spec ar' _ [] Hr)|].
    unfold ar'. rewrite archive_manifest_add. exact Hm. }
  split; [unfold verdicts; rewrite <- !list_fmap_compose; reflexivity|].
  split; [unfold verdicts; apply length_fmap|].
  split.
  - intros i d Hi. unfold verdicts in *. rewrite list_lookup_fmap in *.
    destruct (layers m !! i) as [desc|]; [|discriminate Hi].
    cbn [fmap option_fmap option_map] in *. injection Hi as <- Hv.
    do 2 f_equal. apply (layer_verdict_add ar blob _ Hv).
  - cbn [mk_layer digest]. unfold layer_verdict.
    rewrite blob_entry_sha256, obind_Some. unfold member_bytes, ar'.
    rewrite members_get_app_last by reflexivity.
    rewrite obind_Some. cbn [tarfile.extractfile tarfile.type].
    apply String.eqb_refl.
Qed.

(** ** The errors of [verify_layers] *)

Lemma verify_loop_not_FileNotFoundError (ms : list tarfile.TarInfo) :
  forall descs results,
  verify_loop ms descs results <> Raise FileNotFoundError.
Proof.
  induction descs as [|desc rest IH]; intros results; [discriminate|].
  cbn [verify_loop].
  destruct (json.dict_get "digest" desc) as [v|]; [|discriminate].
  rewrite or_raise_Some, bind_Ok.
  destruct v as [| | |s| |]; try discriminate.
  rewrite bind_Ok.
  destruct (str_split ":" s !! 1%nat) as [hex|]; [|discriminate].
  rewrite or_raise_Some, bind_Ok. cbv zeta.
  destruct (tarfile.members_get _ ms) as [bm|]; [|apply IH].
  destruct (tarfile.extractfile bm); apply IH.
Qed.

(** X9. [verify_layers] raises [FileNotFoundError] exactly when no member of
    the archive is named [manifest.json]. *)
Theorem verify_layers_missing_manifest (ar : list tarfile.TarInfo) :
  verify_layers ar = Raise FileNotFoundError
  <-> Forall (fun m => tarfile.name m <> "manifest.json") ar.
Proof.
  unfold verify_layers. change _MANIFEST_FILENAME with "manifest.json". split.
  - destruct (tarfile.members_get "manifest.json" ar) as [mm|] eqn:E.
    + destruct (tarfile.extractfile mm) as [text|]; [|discriminate].
      destruct (json.loads text) as [obj|e] eqn:El.
      * rewrite bind_Ok.
        destruct (pydantic.OCIManifest_validate obj) as [man|e] eqn:Ev.
        -- rewrite bind_Ok. intros H.
           exfalso. exact (verify_loop_not_FileNotFoundError ar _ _ H).
        -- rewrite bind_Raise. intros H. exfalso.
           unfold pydantic.OCIManifest_validate, or_raise in Ev.
           destruct (_ : option OCIManifest) in Ev; congruence.
      * rewrite bind_Raise. intros H. exfalso.
        unfold json.loads in El.
        destruct (json.parse_value _ _) as [[v rest]|] in El; [|congruence].
        destruct (json.skip_ws rest) in El; congruence.
    + intros _. apply Forall_forall. intros m Hm Hn.
      unfold tarfile.members_get in E.
      assert (In m (rev ar)) as Hin.
      { apply (proj1 (in_rev ar m)). apply list_elem_of_In. exact Hm. }
      pose proof (find_none _ _ E m Hin) as Hf. cbv beta in Hf.
      rewrite Hn, String.eqb_refl in Hf. discriminate Hf.
  - intros Hall. rewrite members_get_None; [reflexivity|].
    intros m Hm. exact (proj1 (Forall_forall _ _) Hall m Hm).
Qed.

Lemma verify_loop_prefix (ms : list tarfile.TarInfo) :
  forall pre rest results,
  Forall readable pre ->
  verify_loop ms (pre ++ rest) results
  = verify_loop ms rest (results ++ verdicts ms pre).
Proof.
  induction pre as [|desc pre IH]; intros rest results Hr.
  - cbn [app verdicts fmap list_fmap]. rewrite app_nil_r. reflexivity.
  - inversion Hr as [|? ? (d & n & Hd & Hn) Hr']; subst.
    cbn [app]. rewrite (verify_loop_step ms desc _ results d n Hd Hn).
    rewrite (IH rest _ Hr'). unfold verdicts. rewrite fmap_cons, Hd.
    cbn [default from_option id]. rewrite <- app_assoc. reflexivity.
Qed.

(** X10. When the manifest reads and the digest of one of its layers is a
    string with no colon, the layers before it being well formed,
    [verify_layers] raises [IndexError]: it reports nothing, not even for
    the layers before. *)
Theorem verify_layers_digest_without_colon (ar : list tarfile.TarInfo)
    (m : OCIManifest) (pre post : list (list (string * json.value)))
    (desc : list (string * json.value)) (d : string) :
  archive_manifest ar = Ok m ->
  layers m = pre ++ desc :: post ->
  Forall readable pre ->
  json.dict_get "digest" desc = Some (json.Str d) ->
  Forall (fun c => c <> ":"%char) (to_list d) ->
  verify_layers ar = Raise IndexError.
Proof.
  intros Hm Hl Hr Hd Hc.
  rewrite (verify_layers_eq ar m Hm), Hl, (verify_loop_prefix ar pre _ [] Hr).
  cbn [verify_loop]. rewrite Hd, or_raise_Some, !bind_Ok.
  rewrite (str_split_nosep ":" d Hc). reflexivity.
Qed.

(** X11. When the manifest reads and one of its layers has no [digest] key,
    the layers before it being well formed, [verify_layers] raises
    [KeyError]. *)
Theorem verify_layers_layer_without_digest (ar : list tarfile.TarInfo)
    (m : OCIManifest) (pre post : list (list (string * json.value)))
    (desc : list (string * json.value)) :
  archive_manifest ar = Ok m ->
  layers m = pre ++ desc :: post ->
  Forall readable pre ->
  json.dict_get "digest" desc = None ->
  verify_layers ar = Raise KeyError.
Proof.
  intros Hm Hl Hr Hd.
  rewrite (verify_layers_eq ar m Hm), Hl, (verify_loop_prefix ar pre _ [] Hr).
  cbn [verify_loop]. rewrite Hd. reflexivity.
Qed.

(** ** Unpacking: what stays as it was *)




(** ** Unpacking what [package] wrote *)

Lemma packaged_entries_inside clock fs dir cfg (out : list string) :
  Forall (fun m => out `prefix_of` tarfile.targetpath out (tarfile.name m))
    (archive_of (work_area clock fs dir cfg)).
Proof.
  apply Forall_forall. intros m Hm.
  apply elem_of_archive_of in Hm as [-> | (p & n & _ & Hn & ->)].
  - cbn [tarfile.of_node tarfile.name]. change "" with (str []).
    rewrite targetpath_clean by constructor. rewrite app_nil_r. reflexivity.
  - rewrite name_of_node.
    rewrite targetpath_clean by (apply (work_area_clean clock fs dir cfg p); eauto).
    apply prefix_app_r. reflexivity.
Qed.

(** X4. Every entry of an archive that [package] wrote resolves inside the
    directory it is unpacked into, whichever directory that is; so
    unpacking it changes nothing outside that directory, apart from making
    the missing directories on the way to it. *)
Theorem packaged_archive_stays_inside (clock : nat -> Z)
    (src : gmap (list string) node) (dir : list string) (cfg : OCIConfig)
    (fs : gmap (list string) node) (out : list string) :
  is_dir src dir = true ->
  exists archive_path ar,
    package clock src dir cfg = Ok (archive_path, ar)
    /\ Forall (fun m => out `prefix_of` tarfile.targetpath out (tarfile.name m)) ar
    /\ forall x, ~ out `prefix_of` x ->
         (unpack ar fs out).1 !! x = fs !! x
         \/ (fs !! x = None /\ (unpack ar fs out).1 !! x = Some Dir).
Proof.
  intros Hd. eexists _, _. split; [apply (package_eq clock src dir cfg Hd)|].
  split; [apply packaged_entries_inside|].
  intros x Hx. apply unpack_outside; [apply packaged_entries_inside | exact Hx].
Qed.

(** Unpacking the archive of a work area into a directory that holds
    nothing but a copy of it, or part of one. *)
Lemma unpack_over_copy (clock : nat -> Z) (src : gmap (list string) node)
    (dir : list string) (cfg : OCIConfig) (fs fs0 : gmap (list string) node)
    (out : list string) :
  config_wf cfg ->
  makedirs out fs = Ok fs0 ->
  extracting (work_area clock src dir cfg) out fs0 fs0 ->
  exists fs',
    unpack (archive_of (work_area clock src dir cfg)) fs out = (fs', Ok cfg)
    /\ (forall p, fs' !! (out ++ p) = node_copy <$> work_area clock src dir cfg !! p)
    /\ (forall q, ~ out `prefix_of` q -> fs' !! q = fs0 !! q).
Proof.
  intros Hwf Hm Hinv.
  pose proof (work_area_tree clock src dir cfg) as Ht.
  destruct (extract_archive_of _ out fs0 Ht Hinv) as (fs' & Hall & Hcopy & Hout).
  exists fs'. split; [|split; [exact Hcopy | exact Hout]].
  unfold unpack. rewrite Hm, Hall.
  change (out // _CONFIG_FILENAME) with (out ++ ["config.json"]).
  unfold exists_. rewrite Hcopy, work_area_config.
  cbn [fmap option_fmap option_map node_copy created negb].
  f_equal. exact (OCIConfig_roundtrip (Some 2%nat) cfg Hwf).
Qed.

(** X5. Unpacking a packaged archive a second time into the same directory
    succeeds, returns the same config and leaves the file system as the
    first unpacking left it. *)
Theorem unpack_twice (clock : nat -> Z) (src : gmap (list string) node)
    (dir : list string) (cfg : OCIConfig) (fs : gmap (list string) node)
    (out : list string) :
  is_dir src dir = true ->
  config_wf cfg ->
  (forall k st d, fs !! take k out <> Some (File st d)) ->
  (forall p, p <> [] -> fs !! (out ++ p) = None) ->
  exists archive_path ar fs',
    package clock src dir cfg = Ok (archive_path, ar)
    /\ unpack ar fs out = (fs', Ok cfg)
    /\ unpack ar fs' out = (fs', Ok cfg).
Proof.
  intros Hd Hwf Hnf Hfresh.
  set (W := work_area clock src dir cfg).
  destruct (makedirs_fresh W out fs) as (fs0 & Hm & Hinv);
    [apply work_area_root | exact Hnf | exact Hfresh |].
  destruct (unpack_over_copy clock src dir cfg fs fs0 out Hwf Hm Hinv)
    as (fs' & Hun & Hcopy & Hout).
  exists (parent dir // (model_name cfg +:+ "-" +:+ version cfg +:+ ".tar")),
    (archive_of W), fs'.
  split; [apply (package_eq clock src dir cfg Hd)|]. split; [exact Hun|].
  destruct Hinv as (Ha & _ & _).
  assert (forall q, q `prefix_of` out -> fs' !! q = Some Dir) as Ha'.
  { intros q Hq. destruct (decide (out `prefix_of` q)) as [Hoq|Hoq].
    - assert (q = out) as -> by (apply (anti_symm prefix); assumption).
      rewrite <- (app_nil_r out), Hcopy. unfold W. rewrite work_area_root. reflexivity.
    - rewrite (Hout q Hoq). apply Ha, Hq. }
  assert (makedirs out fs' = Ok fs') as Hm'.
  { destruct (makedirs_from_ok out [] fs') as (fs1 & Hm1 & Hi & Hii & _).
    { intros k st d _ Hf. cbn [app] in Hf.
      rewrite (Ha' (take k out)) in Hf by apply prefix_take. discriminate. }
    unfold makedirs. rewrite Hm1. f_equal. apply map_eq. intros x.
    destruct (fs' !! x) as [n|] eqn:Ex; [apply Hi, Ex|].
    destruct (Hii x Ex) as [H | [_ (k & _ & ->)]]; [exact H|].
    cbn [app] in Ex. rewrite (Ha' (take k out)) in Ex by apply prefix_take.
    discriminate. }
  assert (extracting W out fs' fs') as Hinv'.
  { split; [exact Ha'|]. split; [|reflexivity].
    intros p n Hp. rewrite <- Hcopy. exact Hp. }
  destruct (unpack_over_copy clock src dir cfg fs' fs' out Hwf Hm' Hinv')
    as (fs'' & Hun' & Hcopy' & Hout').
  assert (fs'' = fs') as ->; [|exact Hun'].
  apply map_eq. intros x. destruct (decide (out `prefix_of` x)) as [[p ->]|Hx].
  - rewrite Hcopy', Hcopy. reflexivity.
  - apply Hout', Hx.
Qed.

(** ** The layer descriptors of a packaged manifest *)

(** X12. In the manifest of a packaged archive, when the digests of the
    blobs are pairwise distinct, every layer descriptor names a blob entry
    of the archive, gives the byte length of that entry as its size, and
    has the layer media type [application/vnd.oci.image.layer.v1.tar+gzip]. *)
Theorem packaged_layer_descriptors (clock : nat -> Z)
    (fs : gmap (list string) node) (dir : list string) (cfg : OCIConfig) :
  is_dir fs dir = true ->
  NoDup (hashlib.hexdigest <$> package_blobs clock fs dir
           ++ [OCIConfig_model_dump_json (Some 2%nat) cfg]) ->
  exists archive_path ar m,
    package clock fs dir cfg = Ok (archive_path, ar)
    /\ archive_manifest ar = Ok m
    /\ Forall (fun desc => exists d entry data,
                 desc_digest desc = Some d
                 /\ blob_entry d = Some entry
                 /\ member_bytes entry ar = Some data
                 /\ desc_size desc = Some (len data)
                 /\ json.dict_get "mediaType" desc
                    = Some (json.Str "application/vnd.oci.image.layer.v1.tar+gzip"))
         (layers m).
Proof.
  intros Hd Hnd. eexists _, _, _.
  split; [apply (package_eq clock fs dir cfg Hd)|].
  split; [apply packaged_manifest|].
  apply Forall_lookup. intros i desc Hi.
  destruct (create_manifest_layer_lookup _ _ _ _ _ _ Hi) as (b & p & Hb & _ & Hdg & Hsz & _).
  assert (b ∈ package_blobs clock fs dir
              ++ [OCIConfig_model_dump_json (Some 2%nat) cfg]) as Hin.
  { apply elem_of_app. left. eapply list_elem_of_lookup_2, Hb. }
  exists (_sha256_bytes b), (_LAYERS_DIR +:+ "/" +:+ hashlib.hexdigest b), b.
  split; [exact Hdg|]. split; [apply blob_entry_sha256|].
  split; [apply member_bytes_blob_exact, work_area_blob_exact; assumption|].
  split; [exact Hsz|].
  cbn [create_manifest OCIManifest_new layers] in Hi.
  apply list_lookup_fmap_Some in Hi as (l & -> & Hl).
  unfold package_layer_list in Hl.
  apply lookup_zip_with_Some in Hl as (b' & t & -> & _ & _). reflexivity.
Qed.

(** ** The models: to JSON and back *)

(** X13. A config written by [model_dump_json], with any indent or none,
    reads back with [json.loads] and [model_validate] as the same config. *)
Theorem OCIConfig_json_roundtrip (indent : option nat) (c : OCIConfig) :
  config_wf c ->
  (json.loads (OCIConfig_model_dump_json indent c) ≫= pydantic.OCIConfig_validate)
  = Ok c.
Proof. apply OCIConfig_roundtrip. Qed.

Lemma wf_layers (ls : list (list (string * json.value))) :
  Forall (fun l => json.wf (json.Obj l)) ls ->
  fold_right (fun x P => json.wf x /\ P) True (map json.Obj ls).
Proof.
  induction 1 as [|l ls Hl _ IH]; [exact I|].
  cbn [map fold_right]. split; assumption.
Qed.

(** X14. A manifest written by [model_dump_json], with any indent or none,
    reads back with [json.loads] and [model_validate] as the same manifest:
    schema version, media type, config descriptor and layer descriptors,
    in order. *)
Theorem OCIManifest_json_roundtrip (indent : option nat) (m : OCIManifest) :
  json.wf (json.Obj (config m)) ->
  Forall (fun l => json.wf (json.Obj l)) (layers m) ->
  (json.loads (OCIManifest_model_dump_json indent m) ≫= pydantic.OCIManifest_validate)
  = Ok m.
Proof.
  intros Hc Hl. unfold OCIManifest_model_dump_json.
  rewrite loads_dumps.
  - rewrite bind_Ok. apply OCIManifest_validate_dump.
  - unfold pydantic.OCIManifest_dump. cbn [json.wf map fst snd fold_right].
    split; [apply (bool_decide_unpack _); vm_compute; exact I|].
    split; [exact I|]. split; [exact I|]. split; [exact Hc|].
    split; [|exact I]. apply wf_layers, Hl.
Qed.

(** ** Unpacking an archive that brings no [config.json] *)




(** ** Checking the blobs on disk after unpacking *)

(** X16. After a packaged archive is unpacked into a new directory,
    [_sha256_file] on the blob file of every layer of the manifest,
    [<out>/blobs/sha256/<hex>], returns the digest the manifest gives for
    that layer. *)
Theorem unpacked_blobs_hash_to_their_digests (clock : nat -> Z)
    (src : gmap (list string) node) (dir : list string) (cfg : OCIConfig)
    (fs : gmap (list string) node) (out : list string) :
  is_dir src dir = true ->
  config_wf cfg ->
  (forall k st d, fs !! take k out <> Some (File st d)) ->
  (forall p, p <> [] -> fs !! (out ++ p) = None) ->
  exists archive_path ar m fs',
    package clock src dir cfg = Ok (archive_path, ar)
    /\ archive_manifest ar = Ok m
    /\ unpack ar fs out = (fs', Ok cfg)
    /\ Forall (fun desc => exists d hex,
                 desc_digest desc = Some d
                 /\ str_split ":" d !! 1%nat = Some hex
                 /\ _sha256_file fs' (out // _LAYERS_DIR // hex) = Ok d)
         (layers m).
Proof.
  intros Hd Hwf Hnf Hfresh.
  destruct (makedirs_fresh (work_area clock src dir cfg) out fs) as (fs0 & Hm & Hinv);
    [apply work_area_root | exact Hnf | exact Hfresh |].
  destruct (unpack_over_copy clock src dir cfg fs fs0 out Hwf Hm Hinv)
    as (fs' & Hun & Hcopy & _).
  eexists _, _, _, fs'.
  split; [apply (package_eq clock src dir cfg Hd)|].
  split; [apply packaged_manifest|]. split; [exact Hun|].
  apply Forall_lookup. intros i desc Hi.
  destruct (create_manifest_layer_lookup _ _ _ _ _ _ Hi) as (b & p & Hb & _ & Hdg & _).
  exists (_sha256_bytes b), (hashlib.hexdigest b).
  split; [exact Hdg|]. split; [apply sha256_bytes_split|].
  assert (b ∈ package_blobs clock src dir
              ++ [OCIConfig_model_dump_json (Some 2%nat) cfg]) as Hin.
  { apply elem_of_app. left. eapply list_elem_of_lookup_2, Hb. }
  destruct (work_area_blob_present clock src dir cfg b Hin) as [n Hn].
  destruct (work_area_blob_content clock src dir cfg b n Hn) as (data & -> & Hh).
  assert (out // _LAYERS_DIR // hashlib.hexdigest b = out ++ blob_path b) as ->.
  { unfold joinpath. rewrite Path_hexdigest.
    change (Path _LAYERS_DIR) with ["blobs"; "sha256"].
    rewrite <- app_assoc. reflexivity. }
  rewrite sha256_file_eq, Hcopy, Hn.
  cbn [fmap option_fmap option_map node_copy created].
  unfold _sha256_bytes. rewrite Hh. reflexivity.
Qed.

(** ** What [package] reads of the source *)

Lemma regular_files_agree (fs fs' : gmap (list string) node) (dir : list string) :
  (forall p, below dir p -> is_file fs p = is_file fs' p) ->
  regular_files fs dir = regular_files fs' dir.
Proof.
  intros H. apply (StronglySorted_unique path_le); try apply regular_files_sorted.
  apply NoDup_Permutation; try apply NoDup_regular_files.
  intros p. rewrite !elem_of_regular_files. split; intros [Hb Hf]; split; try exact Hb.
  - rewrite <- (H p Hb). exact Hf.
  - rewrite (H p Hb). exact Hf.
Qed.

Lemma layer_blobs_agree (clock : nat -> Z) (fs fs' : gmap (list string) node)
    (base : list string) : forall files tick,
  (forall p, p ∈ files -> fs !! p = fs' !! p) ->
  layer_blobs clock tick fs base files = layer_blobs clock tick fs' base files.
Proof.
  induction files as [|p files IH]; intros tick H; [reflexivity|].
  cbn [layer_blobs]. unfold layer_blob at 1 2. rewrite (H p) by left.
  f_equal. apply IH. intros q Hq. apply H. right. exact Hq.
Qed.

(** X17. [package] reads nothing of the source but the regular files below
    [model_dir]: two file systems that hold the same regular files below it
    (and agree on whether it is a directory) give the same result, archive
    included, at the same clock readings. Directories below [model_dir],
    empty ones included, leave no trace in the archive. *)
Theorem package_reads_regular_files_only (clock : nat -> Z)
    (fs fs' : gmap (list string) node) (dir : list string) (cfg : OCIConfig) :
  is_dir fs dir = is_dir fs' dir ->
  (forall p, below dir p ->
     forall st data, fs !! p = Some (File st data) <-> fs' !! p = Some (File st data)) ->
  package clock fs dir cfg = package clock fs' dir cfg.
Proof.
  intros Hd Hsame.
  destruct (is_dir fs dir) eqn:Hd1.
  2: { unfold package. rewrite Hd1, <- Hd. reflexivity. }
  rewrite (package_eq clock fs dir cfg Hd1).
  rewrite (package_eq clock fs' dir cfg (eq_sym Hd)).
  assert (forall p, below dir p -> is_file fs p = is_file fs' p) as Hfile.
  { intros p Hp. unfold is_file.
    destruct (fs !! p) as [[st d|]|] eqn:E.
    - rewrite (proj1 (Hsame p Hp st d) E). reflexivity.
    - destruct (fs' !! p) as [[st' d'|]|] eqn:E'; try reflexivity.
      rewrite (proj2 (Hsame p Hp st' d') E') in E. discriminate.
    - destruct (fs' !! p) as [[st' d'|]|] eqn:E'; try reflexivity.
      rewrite (proj2 (Hsame p Hp st' d') E') in E. discriminate. }
  assert (package_blobs clock fs dir = package_blobs clock fs' dir) as Hb.
  { unfold package_blobs. rewrite <- (regular_files_agree fs fs' dir Hfile).
    apply layer_blobs_agree. intros p Hp.
    apply elem_of_regular_files in Hp as [Hp Hf].
    destruct (is_file_lookup fs p Hf) as (st & data & E).
    rewrite E. symmetry. apply (Hsame p Hp st data), E. }
  do 2 f_equal. unfold work_area, package_layer_list.
  rewrite Hb, (regular_files_agree fs fs' dir Hfile). reflexivity.
Qed.

(** ** The further theorems at concrete inputs *)

(** X4 at the directory [/m] with the one file [a.bin], unpacked into
    [/out] on an empty file system. *)
Lemma packaged_archive_stays_inside_witness :
  is_dir fs1 ["m"] = true
  /\ exists archive_path ar,
       package (fun _ => 0) fs1 ["m"] cfg0 = Ok (archive_path, ar)
       /\ Forall (fun m => ["out"] `prefix_of` tarfile.targetpath ["out"] (tarfile.name m))
            ar
       /\ forall x, ~ ["out"] `prefix_of` x ->
            (unpack ar ∅ ["out"]).1 !! x = (∅ : gmap (list string) node) !! x
            \/ ((∅ : gmap (list string) node) !! x = None
                /\ (unpack ar ∅ ["out"]).1 !! x = Some Dir).
Proof.
  split; [vm_compute; reflexivity|].
  apply (packaged_archive_stays_inside (fun _ => 0) fs1 ["m"] cfg0 ∅ ["out"]).
  vm_compute; reflexivity.
Defined.

(** X5 at the directory [/m] with the one file [a.bin], unpacked twice into
    [/out] on an empty file system. *)
Lemma unpack_twice_witness :
  is_dir fs1 ["m"] = true
  /\ config_wf cfg0
  /\ (forall k st d,
        (∅ : gmap (list string) node) !! take k ["out"] <> Some (File st d))
  /\ (forall p, p <> [] -> (∅ : gmap (list string) node) !! (["out"] ++ p) = None)
  /\ exists archive_path ar fs',
       package (fun _ => 0) fs1 ["m"] cfg0 = Ok (archive_path, ar)
       /\ unpack ar ∅ ["out"] = (fs', Ok cfg0)
       /\ unpack ar fs' ["out"] = (fs', Ok cfg0).
Proof.
  assert (config_wf cfg0) as Hwf.
  { vm_compute. split; [constructor | exact I]. }
  assert (forall k st d,
            (∅ : gmap (list string) node) !! take k ["out"] <> Some (File st d)) as Hnf.
  { intros k st d. rewrite lookup_empty. discriminate. }
  assert (forall p, p <> [] -> (∅ : gmap (list string) node) !! (["out"] ++ p) = None)
    as Hfresh.
  { intros p _. apply lookup_empty. }
  split; [vm_compute; reflexivity|]. split; [exact Hwf|].
  split; [exact Hnf|]. split; [exact Hfresh|].
  apply (unpack_twice (fun _ => 0) fs1 ["m"] cfg0 ∅ ["out"]);
    [vm_compute; reflexivity | exact Hwf | exact Hnf | exact Hfresh].
Defined.


(** X8 at [archive_ex] and the file [/m/a.bin]. *)
Lemma add_layer_keeps_verification_witness :
  is_file fs1 ["m"; "a.bin"] = true
  /\ archive_manifest archive_ex = Ok manifest_ex
  /\ Forall readable (layers manifest_ex)
  /\ exists layer ar' before after,
       add_layer 0 fs1 archive_ex ["m"; "a.bin"] = Ok (layer, ar')
       /\ verify_layers archive_ex = Ok before
       /\ verify_layers ar' = Ok after
       /\ after.*1 = before.*1
       /\ length after = length (layers manifest_ex)
       /\ (forall i d, before !! i = Some (d, true) -> after !! i = Some (d, true))
       /\ layer_verdict ar' (digest layer) = true.
Proof.
  assert (Forall readable (layers manifest_ex)) as Hr.
  { repeat constructor; eexists; eexists; (split; vm_compute; reflexivity). }
  split; [vm_compute; reflexivity|]. split; [vm_compute; reflexivity|].
  split; [exact Hr|].
  apply (add_layer_keeps_verification 0 fs1 archive_ex ["m"; "a.bin"] manifest_ex);
    [vm_compute; reflexivity | vm_compute; reflexivity | exact Hr].
Defined.

(** X10 at a manifest of two layers, the digest of the second being [abc]. *)
Lemma verify_layers_digest_without_colon_witness :
  archive_manifest
    (archive_with_layers [ [("digest", json.Str (_sha256_bytes "x"))];
                           [("digest", json.Str "abc")] ])
  = Ok (OCIManifest_new [] [ [("digest", json.Str (_sha256_bytes "x"))];
                             [("digest", json.Str "abc")] ])
  /\ layers (OCIManifest_new [] [ [("digest", json.Str (_sha256_bytes "x"))];
                                  [("digest", json.Str "abc")] ])
     = [ [("digest", json.Str (_sha256_bytes "x"))] ]
         ++ [("digest", json.Str "abc")] :: []
  /\ Forall readable [ [("digest", json.Str (_sha256_bytes "x"))] ]
  /\ json.dict_get "digest" [("digest", json.Str "abc")] = Some (json.Str "abc")
  /\ Forall (fun c => c <> ":"%char) (to_list "abc")
  /\ verify_layers
       (archive_with_layers [ [("digest", json.Str (_sha256_bytes "x"))];
                              [("digest", json.Str "abc")] ])
     = Raise IndexError.
Proof.
  assert (Forall readable [ [("digest", json.Str (_sha256_bytes "x"))] ]) as Hr.
  { repeat constructor; eexists; eexists; (split; vm_compute; reflexivity). }
  assert (Forall (fun c => c <> ":"%char) (to_list "abc")) as Hc.
  { repeat constructor; discriminate. }
  split; [vm_compute; reflexivity|]. split; [reflexivity|]. split; [exact Hr|].
  split; [reflexivity|]. split; [exact Hc|].
  apply (verify_layers_digest_without_colon _
           (OCIManifest_new [] [ [("digest", json.Str (_sha256_bytes "x"))];
                                 [("digest", json.Str "abc")] ])
           [ [("digest", json.Str (_sha256_bytes "x"))] ] []
           [("digest", json.Str "abc")] "abc");
    [vm_compute; reflexivity | reflexivity | exact Hr | reflexivity | exact Hc].
Defined.

(** X11 at a manifest of two layers, the second having no key at all. *)
Lemma verify_layers_layer_without_digest_witness :
  archive_manifest
    (archive_with_layers [ [("digest", json.Str (_sha256_bytes "x"))]; [] ])
  = Ok (OCIManifest_new [] [ [("digest", json.Str (_sha256_bytes "x"))]; [] ])
  /\ layers (OCIManifest_new [] [ [("digest", json.Str (_sha256_bytes "x"))]; [] ])
     = [ [("digest", json.Str (_sha256_bytes "x"))] ] ++ [] :: []
  /\ Forall readable [ [("digest", json.Str (_sha256_bytes "x"))] ]
  /\ json.dict_get "digest" [] = None
  /\ verify_layers
       (archive_with_layers [ [("digest", json.Str (_sha256_bytes "x"))]; [] ])
     = Raise KeyError.
Proof.
  assert (Forall readable [ [("digest", json.Str (_sha256_bytes "x"))] ]) as Hr.
  { repeat constructor; eexists; eexists; (split; vm_compute; reflexivity). }
  split; [vm_compute; reflexivity|]. split; [reflexivity|]. split; [exact Hr|].
  split; [reflexivity|].
  apply (verify_layers_layer_without_digest _
           (OCIManifest_new [] [ [("digest", json.Str (_sha256_bytes "x"))]; [] ])
           [ [("digest", json.Str (_sha256_bytes "x"))] ] [] []);
    [vm_compute; reflexivity | reflexivity | exact Hr | reflexivity].
Defined.

(** X12 at the directory [/m] with the one file [a.bin]. *)
Lemma packaged_layer_descriptors_witness :
  is_dir fs1 ["m"] = true
  /\ NoDup (hashlib.hexdigest <$> package_blobs (fun _ => 0) fs1 ["m"]
              ++ [OCIConfig_model_dump_json (Some 2%nat) cfg0])
  /\ exists archive_path ar m,
       package (fun _ => 0) fs1 ["m"] cfg0 = Ok (archive_path, ar)
       /\ archive_manifest ar = Ok m
       /\ Forall (fun desc => exists d entry data,
                    desc_digest desc = Some d
                    /\ blob_entry d = Some entry
                    /\ member_bytes entry ar = Some data
                    /\ desc_size desc = Some (len data)
                    /\ json.dict_get "mediaType" desc
                       = Some (json.Str "application/vnd.oci.image.layer.v1.tar+gzip"))
            (layers m).
Proof.
  assert (NoDup (hashlib.hexdigest <$> package_blobs (fun _ => 0) fs1 ["m"]
                   ++ [OCIConfig_model_dump_json (Some 2%nat) cfg0])) as Hnd.
  { apply (bool_decide_unpack _). vm_compute. exact I. }
  split; [vm_compute; reflexivity|]. split; [exact Hnd|].
  apply (packaged_layer_descriptors (fun _ => 0) fs1 ["m"] cfg0);
    [vm_compute; reflexivity | exact Hnd].
Defined.

(** X13 at a config with one metadata entry, written with indent 2. *)
Lemma OCIConfig_json_roundtrip_witness :
  config_wf {| model_name := "m"; version := "1.0"; framework := "onnx";
               architecture := "cnn"; metadata := [("epochs", json.Num 3)] |}
  /\ (json.loads
        (OCIConfig_model_dump_json (Some 2%nat)
           {| model_name := "m"; version := "1.0"; framework := "onnx";
              architecture := "cnn"; metadata := [("epochs", json.Num 3)] |})
      ≫= pydantic.OCIConfig_validate)
     = Ok {| model_name := "m"; version := "1.0"; framework := "onnx";
             architecture := "cnn"; metadata := [("epochs", json.Num 3)] |}.
Proof.
  assert (config_wf {| model_name := "m"; version := "1.0"; framework := "onnx";
                       architecture := "cnn";
                       metadata := [("epochs", json.Num 3)] |}) as Hwf.
  { split; [apply (bool_decide_unpack _); vm_compute; exact I|]. cbn. tauto. }
  split; [exact Hwf|].
  apply (OCIConfig_json_roundtrip (Some 2%nat) _ Hwf).
Defined.

(** X14 at [manifest_ex], written without indent. *)
Lemma OCIManifest_json_roundtrip_witness :
  json.wf (json.Obj (config manifest_ex))
  /\ Forall (fun l => json.wf (json.Obj l)) (layers manifest_ex)
  /\ (json.loads (OCIManifest_model_dump_json None manifest_ex)
      ≫= pydantic.OCIManifest_validate)
     = Ok manifest_ex.
Proof.
  assert (json.wf (json.Obj (config manifest_ex))) as Hc.
  { split; [constructor | exact I]. }
  assert (Forall (fun l => json.wf (json.Obj l)) (layers manifest_ex)) as Hl.
  { repeat constructor; try exact I; apply (bool_decide_unpack _); vm_compute; exact I. }
  split; [exact Hc|]. split; [exact Hl|].
  apply (OCIManifest_json_roundtrip None manifest_ex Hc Hl).
Defined.


(** X16 at the directory [/m] with the one file [a.bin], unpacked into
    [/out] on an empty file system. *)
Lemma unpacked_blobs_witness :
  is_dir fs1 ["m"] = true
  /\ config_wf cfg0
  /\ (forall k st d,
        (∅ : gmap (list string) node) !! take k ["out"] <> Some (File st d))
  /\ (forall p, p <> [] -> (∅ : gmap (list string) node) !! (["out"] ++ p) = None)
  /\ exists archive_path ar m fs',
       package (fun _ => 0) fs1 ["m"] cfg0 = Ok (archive_path, ar)
       /\ archive_manifest ar = Ok m
       /\ unpack ar ∅ ["out"] = (fs', Ok cfg0)
       /\ Forall (fun desc => exists d hex,
                    desc_digest desc = Some d
                    /\ str_split ":" d !! 1%nat = Some hex
                    /\ _sha256_file fs' (["out"] // _LAYERS_DIR // hex) = Ok d)
            (layers m).
Proof.
  assert (config_wf cfg0) as Hwf.
  { vm_compute. split; [constructor | exact I]. }
  assert (forall k st d,
            (∅ : gmap (list string) node) !! take k ["out"] <> Some (File st d)) as Hnf.
  { intros k st d. rewrite lookup_empty. discriminate. }
  assert (forall p, p <> [] -> (∅ : gmap (list string) node) !! (["out"] ++ p) = None)
    as Hfresh.
  { intros p _. apply lookup_empty. }
  split; [vm_compute; reflexivity|]. split; [exact Hwf|].
  split; [exact Hnf|]. split; [exact Hfresh|].
  apply (unpacked_blobs_hash_to_their_digests (fun _ => 0) fs1 ["m"] cfg0 ∅ ["out"]);
    [vm_compute; reflexivity | exact Hwf | exact Hnf | exact Hfresh].
Defined.

(** X17 at the directory [/m] with the one file [a.bin], and the same with
    an empty directory [/m/empty] beside the file. *)
Lemma package_reads_regular_files_only_witness :
  is_dir fs1 ["m"] = is_dir (<[ ["m"; "empty"] := Dir ]> fs1) ["m"]
  /\ (forall p, below ["m"] p ->
        forall st data,
          fs1 !! p = Some (File st data)
          <-> (<[ ["m"; "empty"] := Dir ]> fs1) !! p = Some (File st data))
  /\ package (fun _ => 0) fs1 ["m"] cfg0
     = package (fun _ => 0) (<[ ["m"; "empty"] := Dir ]> fs1) ["m"] cfg0.
Proof.
  assert (forall p, below ["m"] p ->
            forall st data,
              fs1 !! p = Some (File st data)
              <-> (<[ ["m"; "empty"] := Dir ]> fs1) !! p = Some (File st data)) as Hsame.
  { intros p _ st data. destruct (decide (["m"; "empty"] = p)) as [<-|Hne].
    - rewrite lookup_insert_eq. split; intros H; [|discriminate H].
      vm_compute in H. discriminate H.
    - rewrite lookup_insert_ne by exact Hne. reflexivity. }
  split; [vm_compute; reflexivity|]. split; [exact Hsame|].
  apply (package_reads_regular_files_only (fun _ => 0) fs1
           (<[ ["m"; "empty"] := Dir ]> fs1) ["m"] cfg0);
    [vm_compute; reflexivity | exact Hsame].
Defined.
